(** * Roadmap viewers: the panel browser and the report viewer

    A shallow embedding of [tools/roadmap-enhanced.py] (the full-screen panel
    browser) and [tools/roadmap-modern.py] (the card report with its menu),
    and the properties of the task store, the filter/sort pipeline, the text
    wrapper, the key dispatcher, the task list on the screen, the scan of
    the linked documents and the report menus.

    Conventions.
    - A Python [str] is a [string]; one [ascii] is one character, read as the
      code point of the same number (0..255).  The string methods of the
      Python library are written out in [PyStr] as Python defines them on
      such text.
    - A Python [int] is a [Z].
    - A [dict] whose iteration order is observable is a list of pairs in
      insertion order. *)

From Stdlib Require Import List String Ascii ZArith NArith Lia Bool.
From Stdlib Require Import Sorting.Sorted Sorting.Permutation OrdersEx.
From Stdlib Require Import RelationClasses DecimalString DecimalZ DecimalPos.
Import ListNotations.
Open Scope string_scope.
Open Scope Z_scope.
Open Scope list_scope.

(* ================================================================== *)
(** * Part I: the embedding                                            *)
(* ================================================================== *)

(** ** Python's string methods *)

Module PyStr.

(** [len(s)]. *)
Definition len (s : string) : Z := Z.of_nat (String.length s).

(** [c.isspace()] for one character: tab, line feed, vertical tab, form
    feed, carriage return, the four separators 28..31, space, NEL (133) and
    the no-break space (160). *)
Definition isspace (c : ascii) : bool :=
  let n := N_of_ascii c in
  (((9 <=? n) && (n <=? 13)) || ((28 <=? n) && (n <=? 32))
   || (n =? 133) || (n =? 160))%N.

(** [s.split()]: the maximal runs of characters that are not whitespace, in
    order; never an empty string. *)
Fixpoint split (s : string) : list string :=
  match s with
  | EmptyString => []
  | String c s' =>
      if isspace c then split s'
      else
        match s' with
        | EmptyString => [String c EmptyString]
        | String c' _ =>
            if isspace c' then String c EmptyString :: split s'
            else
              match split s' with
              | w :: ws => String c w :: ws
              | [] => [String c EmptyString]
              end
        end
  end.

(** [sep.join(ls)]. *)
Definition join (sep : string) (ls : list string) : string :=
  String.concat sep ls.

(** [c.lower()] for one character: the letters A..Z and the accented
    capitals 192..222 (the multiplication sign 215 apart) move up by 32. *)
Definition lower_char (c : ascii) : ascii :=
  let n := N_of_ascii c in
  if (((65 <=? n) && (n <=? 90))
      || ((192 <=? n) && (n <=? 222) && negb (n =? 215)))%N
  then ascii_of_N (n + 32) else c.

(** [c.upper()] for one character, as code points: the letters a..z and
    the accented small letters 224..254 (the division sign 247 apart) move
    down by 32; the sharp s (223) becomes the two letters [SS]; the micro
    sign (181) and the y with diaeresis (255) have their capitals beyond
    255, at 924 and 376. *)
Definition upper_char (c : ascii) : list N :=
  let n := N_of_ascii c in
  if (((97 <=? n) && (n <=? 122))
      || ((224 <=? n) && (n <=? 254) && negb (n =? 247)))%N
  then [n - 32]%N
  else if (n =? 223)%N then [83; 83]%N
  else if (n =? 181)%N then [924]%N
  else if (n =? 255)%N then [376]%N
  else [n].

Fixpoint map_chars (f : ascii -> ascii) (s : string) : string :=
  match s with
  | EmptyString => EmptyString
  | String c s' => String (f c) (map_chars f s')
  end.

(** [s.lower()]. *)
Definition lower (s : string) : string := map_chars lower_char s.

(** The code points of a text. *)
Definition points (s : string) : list N :=
  map N_of_ascii (list_ascii_of_string s).

(** [s.upper()], as code points. *)
Definition upper_points (s : string) : list N :=
  flat_map upper_char (list_ascii_of_string s).

(** The text with these code points, when none is beyond 255. *)
Fixpoint text (ps : list N) : option string :=
  match ps with
  | [] => Some EmptyString
  | n :: rest =>
      if (n <? 256)%N
      then match text rest with
           | Some s => Some (String (ascii_of_N n) s)
           | None => None
           end
      else None
  end.

(** [s.upper()], when it is a text of the model: [None] when it holds a
    character beyond 255. *)
Definition upper (s : string) : option string := text (upper_points s).

(** [s.lstrip()]. *)
Fixpoint lstrip (s : string) : string :=
  match s with
  | EmptyString => EmptyString
  | String c s' => if isspace c then lstrip s' else s
  end.

(** [s.rstrip()]. *)
Fixpoint rstrip (s : string) : string :=
  match s with
  | EmptyString => EmptyString
  | String c s' =>
      match rstrip s' with
      | EmptyString => if isspace c then EmptyString else String c EmptyString
      | r => String c r
      end
  end.

(** [s.strip()]. *)
Definition strip (s : string) : string := rstrip (lstrip s).

(** [c.isdigit()] for one character: 0..9 and the superscripts two, three
    (178, 179) and one (185). *)
Definition isdigit_char (c : ascii) : bool :=
  let n := N_of_ascii c in
  (((48 <=? n) && (n <=? 57)) || (n =? 178) || (n =? 179) || (n =? 185))%N.

Fixpoint all_chars (p : ascii -> bool) (s : string) : bool :=
  match s with
  | EmptyString => true
  | String c s' => p c && all_chars p s'
  end.

(** [s.isdigit()]: not empty, and every character a digit. *)
Definition isdigit (s : string) : bool :=
  match s with
  | EmptyString => false
  | _ => all_chars isdigit_char s
  end.

(** The value of a string of the decimal digits 0..9, read from the left;
    [None] at any other character. *)
Fixpoint decimal (acc : Z) (s : string) : option Z :=
  match s with
  | EmptyString => Some acc
  | String c s' =>
      let n := N_of_ascii c in
      if ((48 <=? n) && (n <=? 57))%N
      then decimal (10 * acc + Z.of_N (n - 48)) s'
      else None
  end.

(** [int(s)] for an [s] on which [isdigit()] holds: the superscript digits
    are no decimal digits, and more than 4300 digits exceed the
    interpreter's limit; [None] is Python's [ValueError]. *)
Definition int (s : string) : option Z :=
  if (4300 <? String.length s)%nat then None else decimal 0 s.

(** [str(n)] for an [int]. *)
Definition str (n : Z) : string := NilZero.string_of_int (Z.to_int n).

(** [s.startswith(p)]. *)
Definition startswith (s p : string) : bool := String.prefix p s.

(** [sub in s]. *)
Definition contains (sub s : string) : bool :=
  match String.index 0 sub s with
  | Some _ => true
  | None => false
  end.

(** [s[n:]]. *)
Fixpoint drop (n : nat) (s : string) : string :=
  match n, s with
  | O, _ => s
  | S n', String _ s' => drop n' s'
  | S _, EmptyString => EmptyString
  end.

(** [s.split(sep)] for a separator of one character: the pieces between the
    separators, empty pieces included; never an empty list. *)
Fixpoint split_at (sep : ascii) (s : string) : list string :=
  match s with
  | EmptyString => [EmptyString]
  | String c s' =>
      if (c =? sep)%char then EmptyString :: split_at sep s'
      else match split_at sep s' with
           | w :: ws => String c w :: ws
           | [] => [String c EmptyString]
           end
  end.

(** The line feed. *)
Definition LF : ascii := ascii_of_N 10.

(** A bound [i] of a slice of a sequence of length [n]: counted from the
    end when negative, and brought into [0..n]. *)
Definition clamp (n i : Z) : Z :=
  if i <? 0 then Z.max (i + n) 0 else Z.min i n.

(** [s[:n]]. *)
Definition slice_to (s : string) (n : Z) : string :=
  String.substring 0 (Z.to_nat (clamp (len s) n)) s.

(** [c * n] for a character [c]: empty when [n] is not positive. *)
Fixpoint times (c : ascii) (n : nat) : string :=
  match n with
  | O => EmptyString
  | S n' => String c (times c n')
  end.

(** [f"{s:<{w}}"] for a width [w] that is not negative: [s] with spaces
    after it up to [w] characters; a longer [s] is not cut. *)
Definition ljust (s : string) (w : Z) : string :=
  s ++ times " " (Z.to_nat (w - len s)).

(** [s.endswith(p)]. *)
Definition endswith (s p : string) : bool :=
  (String.length p <=? String.length s)%nat
  && (String.substring (String.length s - String.length p)
                       (String.length p) s =? p)%string.

(** [s.lstrip(c)], [s.rstrip(c)] and [s.strip(c)] for one character [c]. *)
Fixpoint lstrip_char (c : ascii) (s : string) : string :=
  match s with
  | EmptyString => EmptyString
  | String a s' => if (a =? c)%char then lstrip_char c s' else s
  end.

Fixpoint rstrip_char (c : ascii) (s : string) : string :=
  match s with
  | EmptyString => EmptyString
  | String a s' =>
      match rstrip_char c s' with
      | EmptyString => if (a =? c)%char then EmptyString
                       else String a EmptyString
      | r => String a r
      end
  end.

Definition strip_char (c : ascii) (s : string) : string :=
  rstrip_char c (lstrip_char c s).

(** [s.partition(c)] for one character [c], when [c] occurs in [s]: the
    text before its first occurrence and the text after it. *)
Fixpoint partition (c : ascii) (s : string) : option (string * string) :=
  match s with
  | EmptyString => None
  | String a s' =>
      if (a =? c)%char then Some (EmptyString, s')
      else match partition c s' with
           | Some (before, after) => Some (String a before, after)
           | None => None
           end
  end.

End PyStr.

(** ** Python's lists *)

Module PyList.

Section Sort.
Context {A K : Type}.
Variable key : A -> K.
Variable lt : K -> K -> bool.

(** [x] stood before every element of the sorted [l]: it goes before the
    first element whose key is not below its own. *)
Fixpoint insert (x : A) (l : list A) : list A :=
  match l with
  | [] => [x]
  | y :: l' => if lt (key y) (key x) then y :: insert x l' else x :: y :: l'
  end.

(** [l.sort(key=key)] and [sorted(l, key=key)]: the stable sort by [<] on
    the keys. *)
Fixpoint sort (l : list A) : list A :=
  match l with
  | [] => []
  | x :: l' => insert x (sort l')
  end.

End Sort.

(** [l[i]] for an [int] index: counted from the end when negative; [None]
    is Python's [IndexError]. *)
Definition getitem {A : Type} (l : list A) (i : Z) : option A :=
  let n := Z.of_nat (List.length l) in
  if (0 <=? i) && (i <? n) then nth_error l (Z.to_nat i)
  else if (- n <=? i) && (i <? 0) then nth_error l (Z.to_nat (n + i))
  else None.

(** [l.index(x)] on strings; [None] is Python's [ValueError]. *)
Fixpoint index (x : string) (l : list string) : option Z :=
  match l with
  | [] => None
  | y :: l' =>
      if (y =? x)%string then Some 0
      else match index x l' with
           | Some i => Some (i + 1)
           | None => None
           end
  end.

(** [x in l] on strings. *)
Definition contains (x : string) (l : list string) : bool :=
  existsb (fun y => (y =? x)%string) l.

(** [l[a:b]]: the bounds are counted from the end when negative and
    brought into the list; empty when the second is not after the first. *)
Definition slice {A : Type} (l : list A) (a b : Z) : list A :=
  let n := Z.of_nat (List.length l) in
  let a' := PyStr.clamp n a in
  let b' := PyStr.clamp n b in
  firstn (Z.to_nat (b' - a')) (skipn (Z.to_nat a') l).

End PyList.

(** ** Comparing strings and tuples

    [a < b] on [str] is the lexicographic order of the code points. *)

Definition str_ltb (a b : string) : bool :=
  match String_as_OT.compare a b with
  | Lt => true
  | _ => false
  end.

(** ** The task store's file *)

(** One entry of a task's [links]. *)
Record Link : Type := mk_link {
  name : string;
  url : string
}.

(** One task object of [tasks.json], as [json.load] returns it: a [dict]
    in which any key may be absent ([None]). *)
Record TaskDict : Type := mk_dict {
  d_id : option string;
  d_title : option string;
  d_status : option string;
  d_priority : option string;
  d_project : option string;
  d_description : option string;
  d_milestone : option string;
  d_created : option string;
  d_updated : option string;
  d_details : option string;
  d_links : option (list Link);
  d_subtasks : option (list string)
}.

(** The JSON document of the store: an object from task id to task object,
    in the order of the file. *)
Definition document : Type := list (string * TaskDict).

(** What is at the path of [tasks.json]: nothing, text that is no JSON, or a
    document. *)
Inductive file : Type :=
| NoFile
| Malformed
| Json (data : document).

(** The exceptions the modelled code can raise. *)
Inductive exn : Type :=
| JSONDecodeError
| KeyError (k : string)
| TypeError
| ValueError
| IndexError
| EOFError
| OSError.

Inductive result (A : Type) : Type :=
| Ok (a : A)
| Raise (e : exn).
Arguments Ok {A} a.
Arguments Raise {A} e.

Definition bind {A B : Type} (r : result A) (k : A -> result B) : result B :=
  match r with
  | Ok a => k a
  | Raise e => Raise e
  end.

(** Evaluation of a comprehension whose body may raise. *)
Fixpoint map_result {A B : Type} (f : A -> result B) (l : list A)
  : result (list B) :=
  match l with
  | [] => Ok []
  | x :: l' =>
      bind (f x) (fun y => bind (map_result f l') (fun ys => Ok (y :: ys)))
  end.

(** [d.get(k, default)] and [x or default] on an optional string. *)
Definition get_or (o : option string) (default : string) : string :=
  match o with
  | Some v => v
  | None => default
  end.

(** Python's truth value of [None] or a [str]: only a non-empty string is
    true. *)
Definition truthy (o : option string) : bool :=
  match o with
  | Some (String _ _) => true
  | _ => false
  end.

(** ** The text wrapper

    [EnhancedRoadmapTUI._wrap_text] and [ModernRoadmapViewer.format_text]
    have the same body; the loop over the words is a left fold over the
    three variables [lines], [current_line] and [current_length]. *)

Module Wrap.
Import PyStr.

Record wrap_state : Type := mk_wrap {
  lines : list string;
  current_line : list string;
  current_length : Z
}.

(** [if current_line: lines.append(' '.join(current_line))]. *)
Definition flush (st : wrap_state) : list string :=
  match current_line st with
  | [] => lines st
  | _ :: _ => lines st ++ [join " " (current_line st)]
  end.

(** One iteration of [for word in words]. *)
Definition wrap_word (width : Z) (st : wrap_state) (word : string)
  : wrap_state :=
  if current_length st + len word + 1 <=? width
  then mk_wrap (lines st) (current_line st ++ [word])
               (current_length st + len word + 1)
  else mk_wrap (flush st) [word] (len word).

Definition wrap_loop (width : Z) (words : list string) : wrap_state :=
  fold_left (wrap_word width) words (mk_wrap [] [] 0).

(** [return lines if lines else ['']], after the last flush. *)
Definition wrap_result (st : wrap_state) : list string :=
  match flush st with
  | [] => [""]
  | l :: ls => l :: ls
  end.

End Wrap.

(** ** The panel browser, [roadmap-enhanced.py] *)

Module Enhanced.
Import PyStr Wrap.

(** [EnhancedRoadmapTUI._wrap_text(text, width)]. *)
Definition _wrap_text (text : string) (width : Z) : list string :=
  wrap_result (wrap_loop width (split text)).

(** An [EnhancedTask] object: the attributes of the base class [Task] and
    the three the subclass adds. *)
Record EnhancedTask : Type := mk_task {
  id : string;
  title : string;
  status : string;
  priority : string;
  project : string;
  description : string;
  milestone : string;
  created : string;
  updated : string;
  details : string;
  links : list Link;
  subtasks : list string
}.

(** Modelled from the spec: the constructor of the base class [Task] (module
    [roadmap], not among the sources), with the defaults of the data model:
    status [todo], priority [medium], project [workspace], empty description
    and milestone, and the timestamps set to the time of construction when
    absent.  [EnhancedTask.__init__] adds [details], [links or []] and
    [subtasks or []]; a missing [title] is a [TypeError]. *)
Definition EnhancedTask_init (now : string) (task_id : string)
  (data : TaskDict) : result EnhancedTask :=
  match d_title data with
  | None => Raise TypeError
  | Some t =>
      Ok {| id := task_id;
            title := t;
            status := get_or (d_status data) "todo";
            priority := get_or (d_priority data) "medium";
            project := get_or (d_project data) "workspace";
            description := get_or (d_description data) "";
            milestone := get_or (d_milestone data) "";
            created := get_or (d_created data) now;
            updated := get_or (d_updated data) now;
            details := get_or (d_details data) "";
            links := match d_links data with Some l => l | None => [] end;
            subtasks := match d_subtasks data with Some l => l | None => [] end |}
  end.

(** [EnhancedTask.from_dict(data)]: [pop('id')] raises [KeyError] on a task
    object without [id]. *)
Definition from_dict (now : string) (data : TaskDict) : result EnhancedTask :=
  match d_id data with
  | None => Raise (KeyError "id")
  | Some task_id => EnhancedTask_init now task_id data
  end.

(** Modelled from the spec: [Task.to_dict] writes every field of the data
    model, [id] included; [EnhancedTask.to_dict] adds [details], [links]
    and [subtasks]. *)
Definition to_dict (t : EnhancedTask) : TaskDict :=
  {| d_id := Some (id t);
     d_title := Some (title t);
     d_status := Some (status t);
     d_priority := Some (priority t);
     d_project := Some (project t);
     d_description := Some (description t);
     d_milestone := Some (milestone t);
     d_created := Some (created t);
     d_updated := Some (updated t);
     d_details := Some (details t);
     d_links := Some (links t);
     d_subtasks := Some (subtasks t) |}.

(** The task objects live in the dict [tool.tasks]; a list of tasks handed
    around by the browser holds references to these objects.  A reference
    is the object's key in the dict, paired here with the object's state
    when the list was built. *)
Definition task_ref : Type := (string * EnhancedTask)%type.

Record EnhancedRoadmapTool : Type := mk_tool {
  tasks_file : file;
  tasks : list task_ref
}.

(** [EnhancedRoadmapTool.load_tasks], on the state of the file. *)
Definition load_tasks (now : string) (f : file) : result (list task_ref) :=
  match f with
  | NoFile => Ok []
  | Malformed => Raise JSONDecodeError
  | Json data =>
      map_result
        (fun kv => bind (from_dict now (snd kv)) (fun t => Ok (fst kv, t)))
        data
  end.

(** The [data] of [save_tasks]. *)
Definition dump (ts : list task_ref) : document :=
  map (fun r => (fst r, to_dict (snd r))) ts.

(** [EnhancedRoadmapTool.save_tasks]: the file is overwritten with the
    whole collection. *)
Definition save_tasks (tool : EnhancedRoadmapTool) : EnhancedRoadmapTool :=
  {| tasks_file := Json (dump (tasks tool)); tasks := tasks tool |}.

Record EnhancedRoadmapTUI : Type := mk_tui {
  tool : EnhancedRoadmapTool;
  selected_index : Z;
  scroll_offset : Z;
  filter_status : option string;
  filter_priority : option string;
  filter_milestone : option string;
  view_mode : string
}.

(** [EnhancedRoadmapTUI.__init__], given the tool it builds. *)
Definition init (t : EnhancedRoadmapTool) : EnhancedRoadmapTUI :=
  {| tool := t; selected_index := 0; scroll_offset := 0;
     filter_status := None; filter_priority := None;
     filter_milestone := None; view_mode := "split" |}.

(** [if flt: tasks = [t for t in tasks if t.field == flt]]. *)
Definition where_eq (flt : option string) (field : EnhancedTask -> string)
  (ts : list task_ref) : list task_ref :=
  if truthy flt
  then filter (fun r => (field (snd r) =? get_or flt "")%string) ts
  else ts.

(** [priority_order.get(p, 4)]. *)
Definition priority_order (p : string) : Z :=
  if (p =? "critical")%string then 0
  else if (p =? "high")%string then 1
  else if (p =? "medium")%string then 2
  else if (p =? "low")%string then 3
  else 4.

(** The sort key [(priority_order.get(t.priority, 4), t.milestone, t.id)]. *)
Definition sort_key (r : task_ref) : Z * string * string :=
  (priority_order (priority (snd r)), milestone (snd r), id (snd r)).

(** [a < b] on these tuples: decided at the first component that differs. *)
Definition key_ltb (a b : Z * string * string) : bool :=
  let '(p1, m1, i1) := a in
  let '(p2, m2, i2) := b in
  if p1 =? p2
  then if (m1 =? m2)%string then str_ltb i1 i2 else str_ltb m1 m2
  else p1 <? p2.

(** [EnhancedRoadmapTUI.get_filtered_tasks]. *)
Definition get_filtered_tasks (self : EnhancedRoadmapTUI) : list task_ref :=
  let tasks := tasks (tool self) in
  let tasks := where_eq (filter_status self) status tasks in
  let tasks := where_eq (filter_priority self) priority tasks in
  let tasks := where_eq (filter_milestone self) milestone tasks in
  PyList.sort sort_key key_ltb tasks.

(** *** The main loop *)

(** Key codes: [ord('q')], [curses.KEY_UP], [curses.KEY_DOWN], [ord('v')],
    [ord(' ')], [ord('f')]. *)
Definition KEY_Q : Z := 113.
Definition KEY_UP : Z := 259.
Definition KEY_DOWN : Z := 258.
Definition KEY_V : Z := 118.
Definition KEY_SPACE : Z := 32.
Definition KEY_F : Z := 102.

Definition status_cycle : list string :=
  ["todo"; "in_progress"; "done"; "todo"].

(** [status_cycle[current_idx + 1]] with
    [current_idx = status_cycle.index(s) if s in status_cycle else 0]. *)
Definition next_status (s : string) : result string :=
  let current_idx :=
    if PyList.contains s status_cycle
    then match PyList.index s status_cycle with
         | Some i => Ok i
         | None => Raise ValueError
         end
    else Ok 0 in
  bind current_idx (fun i =>
    match PyList.getitem status_cycle (i + 1) with
    | Some s' => Ok s'
    | None => Raise IndexError
    end).

(** [task.status = s; task.updated = now]: the two attributes are set, the
    others stay. *)
Definition touch (s now : string) (t : EnhancedTask) : EnhancedTask :=
  {| id := id t; title := title t;
     status := s;
     priority := priority t; project := project t;
     description := description t; milestone := milestone t;
     created := created t;
     updated := now;
     details := details t; links := links t; subtasks := subtasks t |}.

(** The assignment goes to the object behind the reference [k]: the object
    in the dict changes. *)
Definition assign (k : string) (s now : string) (ts : list task_ref)
  : list task_ref :=
  map (fun r => if (fst r =? k)%string then (fst r, touch s now (snd r)) else r)
      ts.

(** What one turn of the loop reads from the outside: the terminal's size
    ([getmaxyx]), the key ([getch]) and the clock ([datetime.now()]). *)
Record turn : Type := mk_turn {
  height : Z;
  width : Z;
  key : Z;
  now : string
}.

Inductive outcome : Type :=
| Continue (self : EnhancedRoadmapTUI)
| Break
| Raised (e : exn).

Definition with_tool (self : EnhancedRoadmapTUI) (t : EnhancedRoadmapTool)
  : EnhancedRoadmapTUI :=
  {| tool := t; selected_index := selected_index self;
     scroll_offset := scroll_offset self;
     filter_status := filter_status self;
     filter_priority := filter_priority self;
     filter_milestone := filter_milestone self;
     view_mode := view_mode self |}.

Definition with_position (self : EnhancedRoadmapTUI) (sel off : Z)
  : EnhancedRoadmapTUI :=
  {| tool := tool self; selected_index := sel; scroll_offset := off;
     filter_status := filter_status self;
     filter_priority := filter_priority self;
     filter_milestone := filter_milestone self;
     view_mode := view_mode self |}.

(** One turn of [while True] in [run]: the frame is drawn from the filtered
    tasks (the drawing routines write to the screen only and are left out),
    then the key is read and dispatched.  [shown] is the local [tasks] of
    the source. *)
Definition loop_body (ev : turn) (self : EnhancedRoadmapTUI) : outcome :=
  let shown := get_filtered_tasks self in
  let content_height := height ev - 4 in
  let len_tasks := Z.of_nat (List.length shown) in
  if key ev =? KEY_Q then Break
  else if key ev =? KEY_UP then
    if 0 <? selected_index self then
      let sel := selected_index self - 1 in
      Continue (with_position self sel
                  (if sel <? scroll_offset self then sel
                   else scroll_offset self))
    else Continue self
  else if key ev =? KEY_DOWN then
    if selected_index self <? len_tasks - 1 then
      let sel := selected_index self + 1 in
      Continue (with_position self sel
                  (if scroll_offset self + content_height - 2 <=? sel
                   then sel - content_height + 3
                   else scroll_offset self))
    else Continue self
  else if key ev =? KEY_V then
    Continue {| tool := tool self; selected_index := selected_index self;
                scroll_offset := scroll_offset self;
                filter_status := filter_status self;
                filter_priority := filter_priority self;
                filter_milestone := filter_milestone self;
                view_mode := if (view_mode self =? "split")%string
                             then "list" else "split" |}
  else if key ev =? KEY_SPACE then
    if negb (len_tasks =? 0) && (selected_index self <? len_tasks) then
      match PyList.getitem shown (selected_index self) with
      | None => Raised IndexError
      | Some task =>
          match next_status (status (snd task)) with
          | Raise e => Raised e
          | Ok s =>
              Continue
                (with_tool self
                   (save_tasks
                      {| tasks_file := tasks_file (tool self);
                         tasks := assign (fst task) s (now ev)
                                    (tasks (tool self)) |}))
          end
      end
    else Continue self
  else if key ev =? KEY_F then
    Continue {| tool := tool self; selected_index := 0; scroll_offset := 0;
                filter_status := None; filter_priority := None;
                filter_milestone := None; view_mode := view_mode self |}
  else Continue self.

(** [run] over the turns that happen: [Continue] when the turns are used up
    and the browser waits for the next key. *)
Fixpoint run (self : EnhancedRoadmapTUI) (turns : list turn) : outcome :=
  match turns with
  | [] => Continue self
  | ev :: rest =>
      match loop_body ev self with
      | Continue self' => run self' rest
      | Break => Break
      | Raised e => Raised e
      end
  end.

(** *** Drawing the task list *)

(** [curses.A_BOLD], [curses.A_REVERSE] and [curses.color_pair(n)], as the
    integers they are. *)
Definition A_BOLD : Z := 2097152.
Definition A_REVERSE : Z := 262144.
Definition color_pair (n : Z) : Z := Z.shiftl n 8.

(** A call [stdscr.addstr(y, x, text, attr)]; [Addrule] is the call whose
    text is [n] times the box-drawing dash (no text when [n] is not
    positive), drawn with no attribute. *)
Inductive call : Type :=
| Addstr (y x : Z) (text : string) (attr : Z)
| Addrule (y x : Z) (n : Z).

(** What the drawing takes from the terminal: [curses.LINES],
    [curses.COLS], and whether a call raises [curses.error]. *)
Record terminal : Type := mk_terminal {
  LINES : Z;
  COLS : Z;
  raises : call -> bool
}.

(** The calls of one [try] block that are made: a call that raises
    [curses.error] is the last one, [except curses.error: pass]. *)
Fixpoint attempted (raises : call -> bool) (calls : list call) : list call :=
  match calls with
  | [] => []
  | c :: rest => if raises c then [c] else c :: attempted raises rest
  end.

(** The column widths. *)
Definition id_width (list_width : Z) : Z := Z.min 6 (list_width / 5).
Definition status_width (list_width : Z) : Z := Z.min 8 (list_width / 4).
Definition pri_width : Z := 2.
Definition m_width : Z := 2.
Definition title_width (list_width : Z) : Z :=
  Z.max 10 (list_width - id_width list_width - status_width list_width
            - pri_width - m_width - 5).

(** The [header] line. *)
Definition header (list_width : Z) : string :=
  ljust "ID" (id_width list_width) ++ " "
  ++ ljust "Status" (status_width list_width) ++ " "
  ++ ljust "P" pri_width ++ " "
  ++ ljust "M" m_width ++ " "
  ++ ljust "Title" (title_width list_width).

(** [status_colors.get(status, 0)]. *)
Definition status_colors (status : string) : Z :=
  if (status =? "todo")%string then color_pair 1
  else if (status =? "in_progress")%string then color_pair 3
  else if (status =? "done")%string then color_pair 2
  else if (status =? "blocked")%string then color_pair 1
  else 0.

(** [pri_map.get(priority, '-')]. *)
Definition pri_map (priority : string) : string :=
  if (priority =? "critical")%string then "!!!"
  else if (priority =? "high")%string then "!!"
  else if (priority =? "medium")%string then "!"
  else "-".

(** [task.title if len(task.title) <= title_width else
    task.title[:title_width-3] + '...']. *)
Definition truncated_title (title : string) (title_width : Z) : string :=
  if len title <=? title_width then title
  else slice_to title (title_width - 3) ++ "...".

(** [task.milestone or '-']. *)
Definition milestone_or_dash (task : EnhancedTask) : string :=
  if (milestone task =? "")%string then "-" else milestone task.

(** The [line] of a task. *)
Definition line (task : EnhancedTask) (list_width : Z) : string :=
  ljust (id task) (id_width list_width) ++ " "
  ++ ljust (status task) (status_width list_width) ++ " "
  ++ ljust (pri_map (priority task)) pri_width ++ " "
  ++ ljust (milestone_or_dash task) m_width ++ " "
  ++ ljust (truncated_title (title task) (title_width list_width))
           (title_width list_width).

(** The [rest] of a task's row, after the id and the status. *)
Definition rest (task : EnhancedTask) (list_width : Z) : string :=
  " " ++ ljust (pri_map (priority task)) pri_width ++ " "
  ++ ljust (milestone_or_dash task) m_width ++ " "
  ++ truncated_title (title task) (title_width list_width).

(** [tasks[self.scroll_offset:self.scroll_offset + height - 3]]. *)
Definition visible_tasks (self : EnhancedRoadmapTUI) (tasks : list task_ref)
  (height : Z) : list task_ref :=
  PyList.slice tasks (scroll_offset self) (scroll_offset self + height - 3).

(** The body of [for i, task in enumerate(visible_tasks)]: the calls made
    for row [i]. *)
Definition draw_row (term : terminal) (self : EnhancedRoadmapTUI)
  (height start_y start_x list_width : Z) (i : Z) (task : EnhancedTask)
  : list call :=
  let y := start_y + 2 + i in
  let attr :=
    if i + scroll_offset self =? selected_index self then A_REVERSE else 0 in
  if (y <? start_y + height - 1) && (y <? LINES term - 1) then
    attempted (raises term)
      (if i + scroll_offset self =? selected_index self then
         [Addstr y start_x
            (slice_to (line task list_width)
               (Z.min (list_width - 1) (COLS term - start_x - 1)))
            attr]
       else
         let status_attr := status_colors (status task) in
         let status_x := start_x + id_width list_width + 1 in
         let remaining_x := status_x + status_width list_width in
         let max_rest_width :=
           Z.min (list_width - (remaining_x - start_x))
                 (COLS term - remaining_x - 1) in
         (if start_x + id_width list_width <? COLS term
          then [Addstr y start_x
                  (ljust (id task) (id_width list_width) ++ " ") attr]
          else [])
         ++ (if status_x + status_width list_width <? COLS term
             then [Addstr y status_x
                     (ljust (status task) (status_width list_width))
                     (Z.lor status_attr attr)]
             else [])
         ++ (if (remaining_x <? COLS term) && (0 <? max_rest_width)
             then [Addstr y remaining_x
                     (slice_to (rest task list_width) max_rest_width) attr]
             else []))
  else [].

(** The loop over [enumerate(visible_tasks)], from the index [i]. *)
Fixpoint draw_rows (term : terminal) (self : EnhancedRoadmapTUI)
  (height start_y start_x list_width : Z) (i : Z) (visible : list task_ref)
  : list call :=
  match visible with
  | [] => []
  | task :: others =>
      draw_row term self height start_y start_x list_width i (snd task)
      ++ draw_rows term self height start_y start_x list_width (i + 1) others
  end.

(** [EnhancedRoadmapTUI.draw_task_list(stdscr, tasks, height, width,
    start_y, start_x, list_width)]: the calls on [stdscr], in order. *)
Definition draw_task_list (term : terminal) (self : EnhancedRoadmapTUI)
  (tasks : list task_ref) (height width start_y start_x list_width : Z)
  : list call :=
  if list_width <? 30 then []
  else
    attempted (raises term)
      [Addstr start_y start_x
         (slice_to (header list_width)
            (Z.min (list_width - 1) (len (header list_width))))
         (Z.lor A_BOLD (color_pair 4));
       Addrule (start_y + 1) start_x
         (Z.min (list_width - 1) (width - start_x - 1))]
    ++ draw_rows term self height start_y start_x list_width 0
         (visible_tasks self tasks height).

End Enhanced.

(** ** The report viewer, [roadmap-modern.py] *)

Module Modern.
Import PyStr Wrap.

(** [ModernRoadmapViewer.format_text(text, width)]. *)
Definition format_text (text : string) (width : Z) : list string :=
  wrap_result (wrap_loop width (split text)).

(** [ModernRoadmapViewer.load_tasks]: the dict that [json.load] returns. *)
Definition load_tasks (f : file) : result document :=
  match f with
  | NoFile => Ok []
  | Malformed => Raise JSONDecodeError
  | Json data => Ok data
  end.

(** [self.tasks.get(task_id)]: [None] when [task_id not in self.tasks]. *)
Fixpoint lookup (task_id : string) (tasks : document) : option TaskDict :=
  match tasks with
  | [] => None
  | (k, task) :: rest =>
      if (k =? task_id)%string then Some task else lookup task_id rest
  end.

(** *** What the viewer takes from outside *)

(** What is at the path of a linked document.  [Inaccessible]: the path
    cannot be examined, and [prd_path.exists()] raises [OSError] (a
    directory of the path may not be searched, a name is too long).
    [Absent]: [exists()] is false.  [Unreadable]: the file is there, and
    opening or reading it raises. *)
Inductive prd_file : Type :=
| Inaccessible
| Absent
| Unreadable (reason : string)
| Text (content : string).

(** The answer of [re.search(pattern, line, re.IGNORECASE)]: a match, none,
    or [re.error] for a pattern that does not compile. *)
Inductive searched : Type :=
| Found
| NotFound
| BadPattern (reason : string).

Record outside : Type := mk_outside {
  (** [str(self.workspace_root.parent / p)]. *)
  path_str : string -> string;
  (** The file at a path; [reason] is the [str(e)] of the error on
      opening or reading it. *)
  file_at : string -> prd_file;
  (** The [re] module. *)
  re_search : string -> string -> searched;
  (** [os.get_terminal_size().columns]; [None] when the standard output
      is no terminal and the call raises [OSError]. *)
  columns : option Z
}.

Record ModernRoadmapViewer : Type := mk_viewer {
  env : outside;
  tasks : document
}.

(** *** The console *)

(** What the viewer writes.  The rendering routines [clear_screen],
    [print_header], [print_stats], [print_task_card] and
    [format_and_print_content] are one event each, with their arguments,
    when they return; [CardStart] is what [print_task_card] prints before
    a format specifier of negative width raises.
    [format_and_print_content(content)] prints every line of [content],
    styled by its markdown shape; only a line that holds a code fence is
    replaced by a rule and a label.  [Line] is a [print] of a text, given
    without its colour escapes, pictographs and the line feeds at its
    ends; [Wide] is such a [print] of a text with characters beyond 255,
    given by its code points; [Rule] is a [print] of a row of box-drawing
    characters. *)
Inductive event : Type :=
| Clear
| Header
| Stats
| Card (task_id : string) (task : TaskDict) (detailed : bool)
| CardStart (task_id : string) (task : TaskDict) (detailed : bool)
| Content (content : string)
| Rule
| Line (text : string)
| Wide (text : list N)
| Prompt (text : string).

Record console : Type := mk_console {
  stdin : list string;
  stdout : list event
}.

(** How a routine ends: it returns, it raises, or the fuel of the model ran
    out (which the menu loop never does, see [interactive_menu_total]). *)
Inductive ended (A : Type) : Type :=
| Done (a : A) (c : console)
| Fails (e : exn) (c : console)
| OutOfFuel.
Arguments Done {A} a c.
Arguments Fails {A} e c.
Arguments OutOfFuel {A}.

Definition io (A : Type) : Type := console -> ended A.

Definition ret {A : Type} (a : A) : io A := fun c => Done a c.

Definition seq {A B : Type} (m : io A) (k : A -> io B) : io B :=
  fun c =>
    match m c with
    | Done a c' => k a c'
    | Fails e c' => Fails e c'
    | OutOfFuel => OutOfFuel
    end.

Notation "x <- m ;; k" := (seq m (fun x => k))
  (at level 61, m at next level, right associativity).
Notation "m ;; k" := (seq m (fun _ => k))
  (at level 61, right associativity).

Definition raise {A : Type} (e : exn) : io A := fun c => Fails e c.

Definition emit (e : event) : io unit :=
  fun c => Done tt {| stdin := stdin c; stdout := stdout c ++ [e] |}.

(** [print(text)]. *)
Definition print (text : string) : io unit := emit (Line text).

(** [input(prompt)]: the prompt is written and a line is read; at the end
    of the input Python raises [EOFError]. *)
Definition input (prompt : string) : io string :=
  fun c =>
    match stdin c with
    | [] => Fails EOFError {| stdin := []; stdout := stdout c ++ [Prompt prompt] |}
    | l :: rest => Done l {| stdin := rest; stdout := stdout c ++ [Prompt prompt] |}
    end.

(** [for x in l: body(x)]. *)
Fixpoint for_each {A : Type} (l : list A) (body : A -> io unit) : io unit :=
  match l with
  | [] => ret tt
  | x :: l' => body x ;; for_each l' body
  end.

(** *** The header and the cards *)

(** [ModernRoadmapViewer.print_header]: [os.get_terminal_size()] is its
    first call. *)
Definition print_header (self : ModernRoadmapViewer) : io unit :=
  match columns (env self) with
  | None => raise OSError
  | Some _ => emit Header
  end.

(** The widths in the format specifiers of [print_task_card] are not
    negative: the header (of a task without milestone) and the priority
    line are padded to [width - 4]; in the detailed card the lines of the
    description and of the links are padded to [width - 5]. *)
Definition card_fits (width : Z) (task : TaskDict) (detailed : bool) : bool :=
  (4 <=? width)
  && (negb (detailed
            && (truthy (d_description task)
                || match d_links task with
                   | Some (_ :: _) => true
                   | _ => false
                   end))
      || (5 <=? width)).

(** [ModernRoadmapViewer.print_task_card(task_id, task, detailed)], with
    [width = min(100, os.get_terminal_size().columns - 4)]: a negative
    width in a format specifier is a [ValueError]. *)
Definition print_task_card (self : ModernRoadmapViewer) (task_id : string)
  (task : TaskDict) (detailed : bool) : io unit :=
  match columns (env self) with
  | None => raise OSError
  | Some cols =>
      if card_fits (Z.min 100 (cols - 4)) task detailed
      then emit (Card task_id task detailed)
      else emit (CardStart task_id task detailed) ;; raise ValueError
  end.

(** *** The milestone listing *)

(** [milestones[milestone].append(entry)], after
    [if milestone not in milestones: milestones[milestone] = []]. *)
Fixpoint add_to_bucket (milestone : string) (entry : string * TaskDict)
  (milestones : list (string * list (string * TaskDict)))
  : list (string * list (string * TaskDict)) :=
  match milestones with
  | [] => [(milestone, [entry])]
  | (m, es) :: rest =>
      if (m =? milestone)%string then (m, es ++ [entry]) :: rest
      else (m, es) :: add_to_bucket milestone entry rest
  end.

(** The dict [milestones] after the grouping loop; the bucket of a task is
    [task.get('milestone', 'Unassigned')]. *)
Definition group_by_milestone (tasks : document)
  : list (string * list (string * TaskDict)) :=
  fold_left
    (fun milestones kv =>
       add_to_bucket (get_or (d_milestone (snd kv)) "Unassigned") kv
                     milestones)
    tasks [].

(** [priority_order.get(p, 4)]. *)
Definition priority_order (p : string) : Z :=
  if (p =? "critical")%string then 0
  else if (p =? "high")%string then 1
  else if (p =? "medium")%string then 2
  else if (p =? "low")%string then 3
  else 4.

(** The sort key
    [(priority_order.get(t[1].get('priority', 'low'), 4), t[0])]. *)
Definition card_key (t : string * TaskDict) : Z * string :=
  (priority_order (get_or (d_priority (snd t)) "low"), fst t).

(** [a < b] on these pairs. *)
Definition pair_ltb (a b : Z * string) : bool :=
  if fst a =? fst b then str_ltb (snd a) (snd b) else fst a <? fst b.

(** [milestones[m]] for a key of the dict. *)
Fixpoint bucket (m : string) (milestones : list (string * list (string * TaskDict)))
  : list (string * TaskDict) :=
  match milestones with
  | [] => []
  | (m', es) :: rest => if (m' =? m)%string then es else bucket m rest
  end.

(** The buckets in the order in which they are printed, each with its
    tasks in the order of their cards. *)
Definition listing (tasks : document)
  : list (string * list (string * TaskDict)) :=
  let milestones := group_by_milestone tasks in
  let sorted_milestones :=
    PyList.sort (fun m => m) str_ltb (map fst milestones) in
  map (fun m => (m, PyList.sort card_key pair_ltb (bucket m milestones)))
      sorted_milestones.

(** The cards of one bucket; the state is [(task_number, task_map)]. *)
Fixpoint print_bucket (self : ModernRoadmapViewer) (interactive : bool)
  (cards : list (string * TaskDict)) (st : Z * list (string * string))
  : io (Z * list (string * string)) :=
  match cards with
  | [] => ret st
  | (task_id, task) :: rest =>
      st' <- (if interactive
              then print ("[" ++ str (fst st) ++ "]") ;;
                   ret (fst st + 1, snd st ++ [(str (fst st), task_id)])
              else ret st) ;;
      print_task_card self task_id task false ;;
      print "" ;;
      print_bucket self interactive rest st'
  end.

Fixpoint print_buckets (self : ModernRoadmapViewer) (interactive : bool)
  (buckets : list (string * list (string * TaskDict)))
  (st : Z * list (string * string)) : io (Z * list (string * string)) :=
  match buckets with
  | [] => ret st
  | (milestone, cards) :: rest =>
      print ("Milestone " ++ milestone) ;;
      emit Rule ;;
      st' <- print_bucket self interactive cards st ;;
      print_buckets self interactive rest st'
  end.

(** [ModernRoadmapViewer.list_tasks_by_milestone(interactive)]: the
    [task_map] from the printed numbers to the task ids, or [None]. *)
Definition list_tasks_by_milestone (self : ModernRoadmapViewer)
  (interactive : bool) : io (option (list (string * string))) :=
  st <- print_buckets self interactive (listing (tasks self)) (1, []) ;;
  ret (if interactive then Some (snd st) else None).

(** [task_map.get(selection)]. *)
Fixpoint map_get (selection : string) (task_map : list (string * string))
  : option string :=
  match task_map with
  | [] => None
  | (n, task_id) :: rest =>
      if (n =? selection)%string then Some task_id else map_get selection rest
  end.

(** *** Enrichment from the linked documents *)

Record scan : Type := mk_scan {
  task_content : list string;
  capturing : bool;
  section_level : Z
}.

(** [len(line.split(' ')[0])]. *)
Definition heading_level (line : string) : Z :=
  match split_at " " line with
  | w :: _ => len w
  | [] => 0
  end.

(** The two patterns of [load_prd_content], as the raw f-strings spell
    them: in the second, the replacement field [{1,3}] is the tuple
    [(1, 3)]. *)
Definition task_pattern (task_id : string) : string :=
  "\[task-id:\s*" ++ task_id ++ "\]".
Definition header_pattern (task_id : string) : string :=
  "#(1, 3)\s+.*?" ++ task_id ++ ".*?\n".

(** [re.search(task_pattern, line, ...) or re.search(header_pattern, line,
    ...)]: the second search runs only when the first finds nothing. *)
Definition tagged (o : outside) (task_id line : string) : searched :=
  match re_search o (task_pattern task_id) line with
  | NotFound => re_search o (header_pattern task_id) line
  | r => r
  end.

(** The loop over the lines of the document: [inr] is the captured block at
    the end of the loop or at [break], [inl] the message of an exception. *)
Fixpoint scan_lines (o : outside) (task_id : string) (lines : list string)
  (st : scan) : string + list string :=
  match lines with
  | [] => inr (task_content st)
  | line :: rest =>
      match tagged o task_id line with
      | BadPattern reason => inl reason
      | Found =>
          scan_lines o task_id rest
            {| task_content := task_content st ++ [line];
               capturing := true;
               section_level := if startswith line "#"
                                then heading_level line
                                else section_level st |}
      | NotFound =>
          if capturing st then
            if startswith line "#"
               && (heading_level line <=? section_level st)
               && (0 <? section_level st)
            then
              match re_search o task_id line with
              | BadPattern reason => inl reason
              | NotFound => inr (task_content st)
              | Found =>
                  scan_lines o task_id rest
                    {| task_content := task_content st ++ [line];
                       capturing := true;
                       section_level := section_level st |}
              end
            else
              scan_lines o task_id rest
                {| task_content := task_content st ++ [line];
                   capturing := true;
                   section_level := section_level st |}
          else scan_lines o task_id rest st
      end
  end.

(** The [prd_path] of [load_prd_content], as a string. *)
Definition prd_path (self : ModernRoadmapViewer) (url : string) : string :=
  if startswith url "../" then path_str (env self) (drop 3 url)
  else path_str (env self) url.

(** [ModernRoadmapViewer.load_prd_content(url, task_id)]: the call of
    [prd_path.exists()] stands before the [try]. *)
Definition load_prd_content (self : ModernRoadmapViewer)
  (url task_id : string) : result string :=
  match file_at (env self) (prd_path self url) with
  | Inaccessible => Raise OSError
  | Absent => Ok ("PRD file not found: " ++ prd_path self url)%string
  | Unreadable reason => Ok ("Error reading PRD: " ++ reason)%string
  | Text content =>
      match scan_lines (env self) task_id (split_at LF content)
                       {| task_content := []; capturing := false;
                          section_level := 0 |} with
      | inl reason => Ok ("Error reading PRD: " ++ reason)%string
      | inr [] => Ok ""
      | inr block => Ok (String.concat (String LF "") block)
      end
  end.

(** One turn of the loop over [task['links']]: a link whose name says it is
    technical goes to the front of [prd_contents], any other to the end;
    both only [if content and content != f"PRD file not found:
    {link['url']}"]. *)
Definition add_link (self : ModernRoadmapViewer) (task_id : string)
  (prd_contents : list (string * string)) (link : Link)
  : result (list (string * string)) :=
  bind (load_prd_content self (url link) task_id) (fun content =>
    let keep :=
      negb (content =? "")%string
      && negb (content =? "PRD file not found: " ++ url link)%string in
    Ok (if contains "Technical PRD" (name link)
           || contains "technical" (lower (name link))
        then if keep then (name link, content) :: prd_contents
             else prd_contents
        else if keep then prd_contents ++ [(name link, content)]
             else prd_contents)).

(** The list [prd_contents] after the loop, or the exception that ended
    the loop. *)
Definition collect_prd_contents (self : ModernRoadmapViewer)
  (task_id : string) (links : list Link) : result (list (string * string)) :=
  fold_left
    (fun prd_contents link =>
       bind prd_contents (fun l => add_link self task_id l link))
    links (Ok []).

(** The part of [show_task_detail] under "Show implementation details from
    PRDs". *)
Definition show_prd_contents (prd_contents : list (string * string))
  : io unit :=
  for_each prd_contents
    (fun entry =>
       if (snd entry =? "")%string then ret tt
       else
         print ("Implementation Details from " ++ fst entry) ;;
         emit Rule ;;
         emit (Content (snd entry)) ;;
         emit Rule).

(** The part under "Also show inline details if they exist". *)
Definition show_notes (task : TaskDict) : io unit :=
  match d_details task with
  | Some details =>
      if 100 <? len details
      then print "Additional Notes" ;;
           emit Rule ;;
           emit (Content details) ;;
           emit Rule
      else ret tt
  | None => ret tt
  end.

(** The part under "Show subtasks if any". *)
Definition show_subtasks (self : ModernRoadmapViewer) (task : TaskDict)
  : io unit :=
  match d_subtasks task with
  | Some (first :: others) =>
      print "Subtasks" ;;
      emit Rule ;;
      for_each (first :: others)
        (fun subtask_id =>
           match lookup subtask_id (tasks self) with
           | Some subtask =>
               print (subtask_id ++ ": "
                      ++ get_or (d_title subtask) "Untitled")
           | None => ret tt
           end)
  | _ => ret tt
  end.

(** [input(prompt)] for the Enter key: the line read is dropped. *)
Definition pause (prompt : string) : io unit :=
  _ <- input prompt ;; ret tt.

(** [ModernRoadmapViewer.show_task_detail(task_id, wait_for_input)]. *)
Definition show_task_detail (self : ModernRoadmapViewer) (task_id : string)
  (wait_for_input : bool) : io unit :=
  match lookup task_id (tasks self) with
  | None => print ("Task " ++ task_id ++ " not found")
  | Some task =>
      emit Clear ;;
      print_header self ;;
      print "Task Details" ;;
      print_task_card self task_id task true ;;
      match collect_prd_contents self task_id
              (match d_links task with Some l => l | None => [] end) with
      | Raise e => raise e
      | Ok prd_contents =>
          show_prd_contents prd_contents ;;
          show_notes task ;;
          show_subtasks self task ;;
          if wait_for_input then pause "Press Enter to continue..."
          else ret tt
      end
  end.

(** [self.show_task_detail(typed.upper(), wait_for_input)].  The keys of
    the store are texts of the model, so an id with a character beyond
    255 is no key: the branch [if task_id not in self.tasks] is taken. *)
Definition show_upper (self : ModernRoadmapViewer) (typed : string)
  (wait_for_input : bool) : io unit :=
  match upper typed with
  | Some task_id => show_task_detail self task_id wait_for_input
  | None =>
      emit (Wide (points "Task " ++ upper_points typed
                  ++ points " not found"))
  end.

(** *** The menus *)

(** [choice.isdigit() and 1 <= int(choice) <= n]; [int] may raise. *)
Definition valid_choice (choice : string) (n : Z) : io bool :=
  if isdigit choice
  then match int choice with
       | Some i => ret ((1 <=? i) && (i <=? n))
       | None => raise ValueError
       end
  else ret false.

(** The cards of [filtered_tasks] and the notice for an empty selection. *)
Definition print_selection (self : ModernRoadmapViewer)
  (selection : document) (none : string) : io unit :=
  for_each selection
    (fun kv => print_task_card self (fst kv) (snd kv) false ;; print "") ;;
  match selection with
  | [] => print none
  | _ :: _ => ret tt
  end.

(** The body shared by [filter_by_status] and [filter_by_priority]: the
    numbered values, the prompt, and the listing for a valid choice. *)
Definition filter_menu (self : ModernRoadmapViewer) (heading : string)
  (labels : list string) (values : list string)
  (field : TaskDict -> option string) (prompt what none : string)
  : io unit :=
  emit Clear ;;
  print_header self ;;
  print heading ;;
  for_each labels print ;;
  raw <- input prompt ;;
  let choice := strip raw in
  ok <- valid_choice choice (Z.of_nat (List.length values)) ;;
  if ok then
    match int choice with
    | None => raise ValueError
    | Some i =>
        match PyList.getitem values (i - 1) with
        | None => raise IndexError
        | Some selected =>
            print (what ++ selected) ;;
            print_selection self
              (filter (fun kv =>
                         match field (snd kv) with
                         | Some v => (v =? selected)%string
                         | None => false
                         end)
                      (tasks self))
              none ;;
            pause "Press Enter to continue..."
        end
    end
  else ret tt.

(** [ModernRoadmapViewer.filter_by_status]. *)
Definition filter_by_status (self : ModernRoadmapViewer) : io unit :=
  filter_menu self "Filter by Status"
    ["[1] Todo"; "[2] In Progress"; "[3] Done"; "[4] Blocked"]
    ["todo"; "in_progress"; "done"; "blocked"]
    d_status "Select status: " "Tasks with status: "
    "No tasks found with this status".

(** [ModernRoadmapViewer.filter_by_priority]. *)
Definition filter_by_priority (self : ModernRoadmapViewer) : io unit :=
  filter_menu self "Filter by Priority"
    ["[1] Critical"; "[2] High"; "[3] Medium"; "[4] Low"]
    ["critical"; "high"; "medium"; "low"]
    d_priority "Select priority: " "Tasks with priority: "
    "No tasks found with this priority".

(** [ModernRoadmapViewer.search_tasks]. *)
Definition search_tasks (self : ModernRoadmapViewer) : io unit :=
  emit Clear ;;
  print_header self ;;
  print "Search Tasks" ;;
  raw <- input "Enter search term: " ;;
  let keyword := lower (strip raw) in
  if (keyword =? "")%string then ret tt
  else
    print ("Search results for '" ++ keyword ++ "':") ;;
    print_selection self
      (filter (fun kv =>
                 contains keyword (lower (get_or (d_title (snd kv)) ""))
                 || contains keyword
                      (lower (get_or (d_description (snd kv)) ""))
                 || contains keyword (lower (get_or (d_details (snd kv)) "")))
              (tasks self))
      ("No tasks found matching '" ++ keyword ++ "'") ;;
    pause "Press Enter to continue...".

(** The listing of menu entry 1 and of [--list], with the prompt for a task
    number: [wait] is the menu's [input] after "Invalid selection". *)
Definition list_and_select (self : ModernRoadmapViewer) (hint : string)
  (wait : bool) : io unit :=
  emit Clear ;;
  print_header self ;;
  task_map <- list_tasks_by_milestone self true ;;
  emit Rule ;;
  print hint ;;
  raw <- input "Select task: " ;;
  let selection := strip raw in
  if (selection =? "")%string then ret tt
  else
    match map_get selection
            (match task_map with Some m => m | None => [] end) with
    | Some task_id => show_task_detail self task_id true
    | None =>
        print "Invalid selection" ;;
        if wait then pause "Press Enter to continue..." else ret tt
    end.

(** The [if]/[elif] chain of [interactive_menu] on the choice: [false] at
    [break]. *)
Definition dispatch (self : ModernRoadmapViewer) (choice : string) : io bool :=
  if (choice =? "1")%string then
    list_and_select self
      "Enter task number to view details, or press Enter to return to menu"
      true ;;
    ret true
  else if (choice =? "2")%string then
    raw_id <- input "Enter task ID: " ;;
    show_upper self (strip raw_id) true ;;
    pause "Press Enter to continue..." ;;
    ret true
  else if (choice =? "3")%string then filter_by_status self ;; ret true
  else if (choice =? "4")%string then filter_by_priority self ;; ret true
  else if (choice =? "5")%string then search_tasks self ;; ret true
  else if (choice =? "q")%string then print "Goodbye!" ;; ret false
  else ret true.

(** The screen of the menu, up to its prompt. *)
Definition print_menu (self : ModernRoadmapViewer) : io unit :=
  emit Clear ;;
  print_header self ;;
  emit Stats ;;
  print "Menu" ;;
  emit Rule ;;
  for_each
    ["[1] View all tasks by milestone"; "[2] View specific task details";
     "[3] Filter by status"; "[4] Filter by priority"; "[5] Search tasks";
     "[q] Quit"]
    print ;;
  emit Rule.

(** One turn of [while True] in [interactive_menu]. *)
Definition menu_turn (self : ModernRoadmapViewer) : io bool :=
  print_menu self ;;
  raw <- input "Select option: " ;;
  dispatch self (lower (strip raw)).

(** The loop, with fuel. *)
Fixpoint menu_loop (fuel : nat) (self : ModernRoadmapViewer) : io unit :=
  match fuel with
  | O => fun _ => OutOfFuel
  | S fuel' =>
      again <- menu_turn self ;;
      if again then menu_loop fuel' self else ret tt
  end.

(** [ModernRoadmapViewer.interactive_menu]: every turn reads a line, so one
    turn more than there are lines of input is fuel enough. *)
Definition interactive_menu (self : ModernRoadmapViewer) : io unit :=
  fun c => menu_loop (S (List.length (stdin c))) self c.

(** *** The command line *)

(** The [args] of [argparse]. *)
Record arguments : Type := mk_args {
  arg_list : bool;
  arg_task : option string;
  arg_status : option string;
  arg_priority : option string
}.

(** [{tid: task for ... if task.get(field) == value}] when the flag is
    given and not empty. *)
Definition narrow (flag : option string) (field : TaskDict -> option string)
  (tasks : document) : document :=
  if truthy flag
  then filter (fun kv =>
                 match field (snd kv) with
                 | Some v => (v =? get_or flag "")%string
                 | None => false
                 end) tasks
  else tasks.

(** [main()], after [parse_args]; the viewer is built from the file. *)
Definition main (args : arguments) (o : outside) (f : file) : io unit :=
  match load_tasks f with
  | Raise e => raise e
  | Ok data =>
      let viewer := {| env := o; tasks := data |} in
      if arg_list args then
        list_and_select viewer
          "Enter task number to view details, or press Enter to exit" false
      else if truthy (arg_task args) then
        show_upper viewer (get_or (arg_task args) "") true
      else if truthy (arg_status args) || truthy (arg_priority args) then
        emit Clear ;;
        print_header viewer ;;
        for_each
          (narrow (arg_priority args) d_priority
             (narrow (arg_status args) d_status (tasks viewer)))
          (fun kv =>
             print_task_card viewer (fst kv) (snd kv) false ;; print "")
      else interactive_menu viewer
  end.

(** *** The statistics *)

(** [sum(1 for t in self.tasks.values() if t.get('status') == status)]. *)
Definition count_status (self : ModernRoadmapViewer) (status : string) : Z :=
  Z.of_nat
    (List.length
       (filter (fun kv =>
                  match d_status (snd kv) with
                  | Some v => (v =? status)%string
                  | None => false
                  end)
               (tasks self))).

(** The [total] of [print_stats]. *)
Definition total (self : ModernRoadmapViewer) : Z :=
  Z.of_nat (List.length (tasks self)).

(** The rows of the grid of [print_stats]: the labels, without their
    pictographs, and the counts.  (The progress bar above the grid is
    computed in floating point and is not modelled.) *)
Definition stats (self : ModernRoadmapViewer) : list (string * Z) :=
  [("Todo", count_status self "todo");
   ("In Progress", count_status self "in_progress");
   ("Completed", count_status self "done");
   ("Blocked", count_status self "blocked")].

(** *** The content of a document on the screen *)

(** The colours in which [format_and_print_content] prints a line. *)
Inductive style : Type :=
| AsCode
| AsSection
| AsHeading
| AsBold
| AsNumbered
| AsLink
| AsTable
| AsText.

(** What [format_and_print_content] prints: the empty line of a leading
    line feed, a text in a colour, a line whose first asterisk is replaced
    by a green bullet (the text before and after it), a line printed as it
    is, a rule of [n] dashes, and the label of a fence. *)
Inductive piece : Type :=
| Blank
| Shown (s : style) (text : string)
| Bullet (before after : string)
| Unstyled (text : string)
| Dashes (n : Z)
| Label (text : string).

(** The branch [if '```' in line], after [in_code_block] has been
    switched. *)
Definition print_fence (line : string) (in_code_block : bool) : list piece :=
  Dashes 60
  :: (if contains "```bash" line || contains "```shell" line
      then [Label "Shell Command:"]
      else if contains "```hcl" line || contains "```terraform" line
      then [Label "Terraform Configuration:"]
      else if contains "```yaml" line || contains "```yml" line
      then [Label "YAML Configuration:"]
      else if contains "```" line && negb in_code_block
      then [Dashes 60]
      else []).

(** The chain of [elif] on a line outside a code block.  The characters of
    the model are those of code 0..255, so that no line starts with a
    box-drawing character and the branch for such separators is never
    taken. *)
Definition print_line (line : string) : list piece :=
  let stripped := strip line in
  if startswith stripped "##" then [Blank; Shown AsSection line; Dashes 40]
  else if startswith stripped "#" then [Blank; Shown AsHeading line]
  else if startswith stripped "*" && negb (startswith stripped "**") then
    match partition "*" line with
    | Some (before, after) => [Bullet before after]
    | None => [Unstyled line]
    end
  else if startswith stripped "**" && endswith stripped "**" then
    [Shown AsBold (strip_char "*" stripped)]
  else if startswith stripped "1." || startswith stripped "2."
          || startswith stripped "3." then [Shown AsNumbered line]
  else if contains "[" line && contains "](" line then [Shown AsLink line]
  else if startswith stripped "|" then [Shown AsTable line]
  else [Shown AsText line].

(** The loop over [detail_lines]. *)
Fixpoint print_lines (in_code_block : bool) (detail_lines : list string)
  : list piece :=
  match detail_lines with
  | [] => []
  | line :: rest =>
      if contains "```" line then
        print_fence line (negb in_code_block)
        ++ print_lines (negb in_code_block) rest
      else
        (if in_code_block then [Shown AsCode line] else print_line line)
        ++ print_lines in_code_block rest
  end.

(** [ModernRoadmapViewer.format_and_print_content(content)]: what is
    printed, in order. *)
Definition format_and_print_content (content : string) : list piece :=
  print_lines false (split_at LF content).

End Modern.

(* ================================================================== *)
(** * Part II: the vocabulary of the properties                        *)
(* ================================================================== *)

Import PyStr.

(** ** Words and lines *)

Fixpoint no_space (s : string) : bool :=
  match s with
  | EmptyString => true
  | String c s' => negb (isspace c) && no_space s'
  end.

(** A word: not empty, no whitespace inside. *)
Definition is_word (w : string) : Prop := w <> "" /\ no_space w = true.

(** A line fits the width, or it is one of the words [all] of the text,
    alone and longer than the width. *)
Definition line_ok (width : Z) (all : list string) (l : string) : Prop :=
  len l <= width \/ (In l all /\ width < len l).

(** What holds of the three loop variables of the wrapper once the words
    [done] have been consumed. *)
Record wrap_inv (width : Z) (all : list string) (st : Wrap.wrap_state)
  (done : list string) : Prop := {
  inv_lines : Forall (line_ok width all) (Wrap.lines st);
  inv_words : Forall is_word (Wrap.current_line st);
  inv_nonneg : 0 <= Wrap.current_length st;
  inv_length :
    Wrap.current_line st <> [] ->
    len (join " " (Wrap.current_line st)) <= Wrap.current_length st;
  inv_current :
    Wrap.current_line st <> [] ->
    line_ok width all (join " " (Wrap.current_line st));
  inv_done : flat_map split (Wrap.lines st) ++ Wrap.current_line st = done
}.

(** ** Orders *)

(** Under a sort by [key] and [lt], [x] may stand before [y]: [y]'s key is
    not below [x]'s. *)
Definition ordered {A K : Type} (key : A -> K) (lt : K -> K -> bool)
  (x y : A) : Prop :=
  lt (key y) (key x) = false.

(** [a < b] and [a <= b] on strings. *)
Definition str_lt (a b : string) : Prop := String_as_OT.lt a b.
Definition str_le (a b : string) : Prop := str_lt a b \/ a = b.

(** [a <= b] on the triples (rank, milestone, id), lexicographically. *)
Definition key_le (a b : Z * string * string) : Prop :=
  let '(p1, m1, i1) := a in
  let '(p2, m2, i2) := b in
  p1 < p2 \/ (p1 = p2 /\ (str_lt m1 m2 \/ (m1 = m2 /\ str_le i1 i2))).

(** [a <= b] on the pairs (rank, id). *)
Definition pair_le (a b : Z * string) : Prop :=
  fst a < fst b \/ (fst a = fst b /\ str_le (snd a) (snd b)).

(** ** The filters of the panel browser *)

(** A filter asks for a value when it is a string that is not empty: the
    field [v] meets the filter when it is the value asked for.  [None] and
    the empty string ask for nothing. *)
Definition constrains (flt : option string) (v : string) : Prop :=
  forall w, flt = Some w -> w <> "" -> v = w.

Definition constrainsb (flt : option string) (v : string) : bool :=
  match flt with
  | None => true
  | Some EmptyString => true
  | Some w => (v =? w)%string
  end.

(** The filter asks for nothing. *)
Definition unset (flt : option string) : Prop :=
  flt = None \/ flt = Some "".

(** The task meets every filter. *)
Definition satisfies (self : Enhanced.EnhancedRoadmapTUI)
  (t : Enhanced.EnhancedTask) : Prop :=
  constrains (Enhanced.filter_status self) (Enhanced.status t)
  /\ constrains (Enhanced.filter_priority self) (Enhanced.priority t)
  /\ constrains (Enhanced.filter_milestone self) (Enhanced.milestone t).

Definition satisfiesb (self : Enhanced.EnhancedRoadmapTUI)
  (r : Enhanced.task_ref) : bool :=
  constrainsb (Enhanced.filter_status self) (Enhanced.status (snd r))
  && (constrainsb (Enhanced.filter_priority self) (Enhanced.priority (snd r))
      && constrainsb (Enhanced.filter_milestone self)
           (Enhanced.milestone (snd r))).

(** ** The selection of the panel browser *)

(** The task under the selection bar. *)
Definition selected (self : Enhanced.EnhancedRoadmapTUI)
  : option Enhanced.task_ref :=
  nth_error (Enhanced.get_filtered_tasks self)
            (Z.to_nat (Enhanced.selected_index self)).

(** The file holds the whole collection as it is in memory. *)
Definition saved (self : Enhanced.EnhancedRoadmapTUI) : Prop :=
  Enhanced.tasks_file (Enhanced.tool self)
  = Json (Enhanced.dump (Enhanced.tasks (Enhanced.tool self))).

(** The state after [task.status = s], [task.updated = now] and
    [save_tasks()]. *)
Definition pressed (self : Enhanced.EnhancedRoadmapTUI) (k s now : string)
  : Enhanced.EnhancedRoadmapTUI :=
  Enhanced.with_tool self
    (Enhanced.save_tasks
       {| Enhanced.tasks_file := Enhanced.tasks_file (Enhanced.tool self);
          Enhanced.tasks :=
            Enhanced.assign k s now (Enhanced.tasks (Enhanced.tool self)) |}).

(** ** The console of the report viewer *)

Section ReportVocabulary.
Import Modern.

(** The console after more output. *)
Definition put (c : console) (evs : list event) : console :=
  {| stdin := stdin c; stdout := stdout c ++ evs |}.

(** A terminal is attached to the standard output and is at least 9
    columns wide: [print_header] and [print_task_card] return. *)
Definition terminal (self : ModernRoadmapViewer) : Prop :=
  exists cols, columns (env self) = Some cols /\ 9 <= cols.

(** A routine that only writes: on every console it returns [a], having
    written [evs] and read nothing. *)
Definition writes {A : Type} (m : io A) (a : A) (evs : list event) : Prop :=
  forall c, m c = Done a (put c evs).

(** A routine that never reads more than there is and never runs out of
    fuel: when it returns, the input has not grown. *)
Definition tame {A : Type} (m : io A) : Prop :=
  forall c,
    match m c with
    | Done _ c' => (List.length (stdin c') <= List.length (stdin c))%nat
    | Fails _ _ => True
    | OutOfFuel => False
    end.

(** A tame routine that reads at least one line when it returns. *)
Definition reads {A : Type} (m : io A) : Prop :=
  forall c,
    match m c with
    | Done _ c' => (List.length (stdin c') < List.length (stdin c))%nat
    | Fails _ _ => True
    | OutOfFuel => False
    end.

(** ** The detail view *)

(** The links of a task: [task['links']] when [task.get('links')]. *)
Definition links_of (task : TaskDict) : list Link :=
  match d_links task with
  | Some l => l
  | None => []
  end.

(** The existence of the link's document can be checked:
    [prd_path.exists()] returns. *)
Definition examinable (self : ModernRoadmapViewer) (link : Link) : bool :=
  match file_at (env self) (prd_path self (url link)) with
  | Inaccessible => false
  | _ => true
  end.

(** The text that [load_prd_content] returns, when it returns. *)
Definition content_of (self : ModernRoadmapViewer) (url task_id : string)
  : string :=
  match load_prd_content self url task_id with
  | Ok content => content
  | Raise _ => ""
  end.


(** One turn of the loop over the links, on the list so far or on the
    exception that has ended the loop. *)
Definition next_link (self : ModernRoadmapViewer) (task_id : string)
  (prd_contents : result (list (string * string))) (link : Link)
  : result (list (string * string)) :=
  bind prd_contents (fun l => add_link self task_id l link).

(** What [show_prd_contents] writes. *)
Definition prd_events (prd_contents : list (string * string)) : list event :=
  flat_map
    (fun entry =>
       if (snd entry =? "")%string then []
       else [Line ("Implementation Details from " ++ fst entry); Rule;
             Content (snd entry); Rule])
    prd_contents.


(** ** The menu and the listing *)

(** The screen of the menu. *)
Definition menu_screen : list event :=
  [Clear; Header; Stats; Line "Menu"; Rule;
   Line "[1] View all tasks by milestone";
   Line "[2] View specific task details";
   Line "[3] Filter by status"; Line "[4] Filter by priority";
   Line "[5] Search tasks"; Line "[q] Quit"; Rule].









(** The bucket of a task: [task.get('milestone', 'Unassigned')]. *)
Definition milestone_of (kv : string * TaskDict) : string :=
  get_or (d_milestone (snd kv)) "Unassigned".

(** The dict [milestones] after the tasks [kvs], from the dict [g]. *)
Definition grouped (g : list (string * list (string * TaskDict)))
  (kvs : list (string * TaskDict))
  : list (string * list (string * TaskDict)) :=
  fold_left (fun ms kv => add_to_bucket (milestone_of kv) kv ms) kvs g.

End ReportVocabulary.

(** ** The lines of the wrapper, once more *)

(** A line is a row of words with one space between them. *)
Definition spaced (l : string) : Prop :=
  exists ws, ws <> [] /\ Forall is_word ws /\ l = join " " ws.

(** The break after the line [l] is forced: with a space and the first
    word of the line [next] after it, [l] would have [width] characters or
    more. *)
Definition forced (width : Z) (l next : string) : Prop :=
  exists w ws, split next = w :: ws /\ width <= len l + 1 + len w.

(** Every break of the lines is forced. *)
Fixpoint tight (width : Z) (ls : list string) : Prop :=
  match ls with
  | [] => True
  | l :: rest =>
      match rest with
      | [] => True
      | next :: _ => forced width l next
      end
      /\ tight width rest
  end.

(** What holds of the loop variables of the wrapper besides [wrap_inv]:
    the lines closed so far are rows of words, the open line is charged at
    most one character more than it has, and every break so far was
    forced. *)
Record wrap_tight (width : Z) (st : Wrap.wrap_state) : Prop := {
  t_words : Forall is_word (Wrap.current_line st);
  t_spaced : Forall spaced (Wrap.lines st);
  t_first :
    Wrap.current_line st = [] ->
    Wrap.lines st = [] /\ Wrap.current_length st = 0;
  t_charged :
    Wrap.current_line st <> [] ->
    Wrap.current_length st <= len (join " " (Wrap.current_line st)) + 1;
  t_tight : tight width (Wrap.flush st)
}.

(** ** The key loop of the panel browser *)

(** Two task objects that differ at most in [status] and [updated]. *)
Definition same_but_status (t t' : Enhanced.EnhancedTask) : Prop :=
  Enhanced.id t' = Enhanced.id t
  /\ Enhanced.title t' = Enhanced.title t
  /\ Enhanced.priority t' = Enhanced.priority t
  /\ Enhanced.project t' = Enhanced.project t
  /\ Enhanced.description t' = Enhanced.description t
  /\ Enhanced.milestone t' = Enhanced.milestone t
  /\ Enhanced.created t' = Enhanced.created t
  /\ Enhanced.details t' = Enhanced.details t
  /\ Enhanced.links t' = Enhanced.links t
  /\ Enhanced.subtasks t' = Enhanced.subtasks t.

(** The same keys in the same order, each with its task object changed at
    most in [status] and [updated]. *)
Definition same_tasks (ts ts' : list Enhanced.task_ref) : Prop :=
  Forall2 (fun r r' => fst r' = fst r /\ same_but_status (snd r) (snd r'))
          ts ts'.

(** The file holds, under the key [k], a task object with the status [s]
    and the [updated] time [u]. *)
Definition file_has (f : file) (k s u : string) : Prop :=
  exists data d,
    f = Json data /\ In (k, d) data
    /\ d_status d = Some s /\ d_updated d = Some u.

(** What a press of the space key at the time [now] has done when it has
    given the task [t] under the key [k] the status [s]; [self] is the
    browser before, [self'] after, and [t'] the task after.  The task has
    the status [s], the [updated] time [now] and the other attributes of
    [t], and it is in the collection; the collection has the keys it had,
    in their order, and under the other keys the tasks it had; the file
    can be loaded and gives the collection as it is in memory, and its
    object under [k] has the status [s] and the [updated] time [now]. *)
Definition cycled (self self' : Enhanced.EnhancedRoadmapTUI) (k : string)
  (t t' : Enhanced.EnhancedTask) (s now : string) : Prop :=
  Enhanced.status t' = s
  /\ Enhanced.updated t' = now
  /\ same_but_status t t'
  /\ In (k, t') (Enhanced.tasks (Enhanced.tool self'))
  /\ map fst (Enhanced.tasks (Enhanced.tool self'))
     = map fst (Enhanced.tasks (Enhanced.tool self))
  /\ (forall r, fst r <> k ->
        (In r (Enhanced.tasks (Enhanced.tool self'))
         <-> In r (Enhanced.tasks (Enhanced.tool self))))
  /\ (forall clock,
        Enhanced.load_tasks clock (Enhanced.tasks_file (Enhanced.tool self'))
        = Ok (Enhanced.tasks (Enhanced.tool self')))
  /\ file_has (Enhanced.tasks_file (Enhanced.tool self')) k s now.

(** No filter is set. *)
Definition unfiltered (self : Enhanced.EnhancedRoadmapTUI) : Prop :=
  truthy (Enhanced.filter_status self) = false
  /\ truthy (Enhanced.filter_priority self) = false
  /\ truthy (Enhanced.filter_milestone self) = false.

(** The selection is an index of the collection (0 when there is no
    task). *)
Definition in_list (self : Enhanced.EnhancedRoadmapTUI) : Prop :=
  0 <= Enhanced.selected_index self
  /\ Enhanced.selected_index self
     < Z.max 1 (Z.of_nat (List.length (Enhanced.tasks (Enhanced.tool self)))).

(** On a terminal of [h] lines the list is drawn with the height
    [content_height = h - 4]: the scroll offset is not negative and not
    after the selection, and the selection is at most [content_height - 3]
    rows below it. *)
Definition in_window (h : Z) (self : Enhanced.EnhancedRoadmapTUI) : Prop :=
  0 <= Enhanced.scroll_offset self
  /\ Enhanced.scroll_offset self <= Enhanced.selected_index self
  /\ Enhanced.selected_index self
     <= Enhanced.scroll_offset self + (h - 4) - 3.

(** The call draws in reverse video: [curses.A_REVERSE] is bit 18 of its
    attribute. *)
Definition reversed (c : Enhanced.call) : bool :=
  match c with
  | Enhanced.Addstr _ _ _ a => Z.testbit a 18
  | Enhanced.Addrule _ _ _ => false
  end.

(** By how much the fields of a task exceed their columns in [line]: the
    id over 6 characters, the status over 8, the priority mark and the
    milestone over 2. *)
Definition overflow (task : Enhanced.EnhancedTask) : Z :=
  (Z.max (len (Enhanced.id task)) 6 - 6)
  + (Z.max (len (Enhanced.status task)) 8 - 8)
  + (Z.max (len (Enhanced.pri_map (Enhanced.priority task))) 2 - 2)
  + (Z.max (len (Enhanced.milestone_or_dash task)) 2 - 2).

(** ** The report viewer, continued *)

Section ViewerVocabulary.
Import Modern.

(** The state in which [load_prd_content] starts its loop. *)
Definition scan_start : scan :=
  {| task_content := []; capturing := false; section_level := 0 |}.

(** The line carries neither the task's tag nor its heading. *)
Definition plain (o : outside) (task_id line : string) : Prop :=
  tagged o task_id line = NotFound.

(** The line is not tagged, or it is tagged and no heading. *)
Definition no_heading_tagged (o : outside) (task_id line : string) : Prop :=
  tagged o task_id line = NotFound
  \/ (tagged o task_id line = Found /\ startswith line "#" = false).

(** A line inside the section of a heading of level [level]: not tagged,
    and no heading unless of a deeper level. *)
Definition inside (o : outside) (task_id : string) (level : Z) (line : string)
  : Prop :=
  tagged o task_id line = NotFound
  /\ (startswith line "#" = true -> level < heading_level line).

(** A line that closes the section of a heading of level [level]: a
    heading of that level or above that does not mention the task. *)
Definition closes (o : outside) (task_id : string) (level : Z) (line : string)
  : Prop :=
  tagged o task_id line = NotFound
  /\ startswith line "#" = true
  /\ heading_level line <= level
  /\ re_search o task_id line = NotFound.

(** The test of [show_task_detail] on the name of a link. *)
Definition technical (link : Link) : bool :=
  contains "Technical PRD" (name link)
  || contains "technical" (lower (name link)).

(** The test of [show_task_detail] on the content of a link: not empty,
    and not the message it is compared with. *)
Definition kept (self : ModernRoadmapViewer) (task_id : string) (link : Link)
  : bool :=
  negb (content_of self (url link) task_id =? "")%string
  && negb (content_of self (url link) task_id
           =? "PRD file not found: " ++ url link)%string.

(** The entry of a link in [prd_contents]. *)
Definition entry (self : ModernRoadmapViewer) (task_id : string) (link : Link)
  : string * string :=
  (name link, content_of self (url link) task_id).


(** [task.get(field) == v]. *)
Definition has (field : TaskDict -> option string) (v : string)
  (kv : string * TaskDict) : bool :=
  match field (snd kv) with
  | Some x => (x =? v)%string
  | None => false
  end.




(** A routine that reads its input from the front: when it returns, what
    is left of the input is the end of what it found. *)
Definition reads_ahead {A : Type} (m : io A) : Prop :=
  forall c a c', m c = Done a c' -> exists used, stdin c = used ++ stdin c'.

(** The task's status is one of the four that the statistics count. *)
Definition counted (kv : string * TaskDict) : bool :=
  has d_status "todo" kv || has d_status "in_progress" kv
  || has d_status "done" kv || has d_status "blocked" kv.

(** The number of lines that hold a code fence. *)
Definition fences (lines : list string) : nat :=
  List.length (filter (contains "```") lines).

End ViewerVocabulary.

(** ** Sample data *)

(** A store of one task, and the world around a viewer in which no linked
    document exists. *)
Definition sample_task (task_id : string) : TaskDict :=
  {| d_id := Some task_id; d_title := Some "A"; d_status := Some "todo";
     d_priority := Some "high"; d_project := None; d_description := None;
     d_milestone := Some "M1"; d_created := None; d_updated := None;
     d_details := None; d_links := None; d_subtasks := None |}.

Definition bare_outside : Modern.outside :=
  {| Modern.path_str := fun p => ("/ws/" ++ p)%string;
     Modern.file_at := fun _ => Modern.Absent;
     Modern.re_search := fun _ _ => Modern.NotFound;
     Modern.columns := Some 80 |}.

(** The same world with the standard output sent to a pipe. *)
Definition piped_outside : Modern.outside :=
  {| Modern.path_str := fun p => ("/ws/" ++ p)%string;
     Modern.file_at := fun _ => Modern.Absent;
     Modern.re_search := fun _ _ => Modern.NotFound;
     Modern.columns := None |}.

(** The command line [--task a]. *)
Definition task_flag (a : string) : Modern.arguments :=
  {| Modern.arg_list := false; Modern.arg_task := Some a;
     Modern.arg_status := None; Modern.arg_priority := None |}.

(** A viewer over the store of one task. *)
Definition one_task_viewer : Modern.ModernRoadmapViewer :=
  {| Modern.env := bare_outside;
     Modern.tasks := [("T1", sample_task "T1")] |}.

(** A viewer with one task that links one technical document. *)
Definition linked_task : TaskDict :=
  {| d_id := Some "T1"; d_title := Some "A"; d_status := Some "todo";
     d_priority := Some "high"; d_project := None; d_description := None;
     d_milestone := Some "M1"; d_created := None; d_updated := None;
     d_details := None;
     d_links := Some [{| name := "Technical PRD"; url := "../prds/t.md" |}];
     d_subtasks := None |}.

Definition viewer_with (doc : Modern.prd_file) : Modern.ModernRoadmapViewer :=
  {| Modern.env := {| Modern.path_str := fun p => ("/ws/" ++ p)%string;
                      Modern.file_at := fun _ => doc;
                      Modern.re_search := fun _ _ => Modern.NotFound;
     Modern.columns := Some 80 |};
     Modern.tasks := [("T1", linked_task)] |}.

(** A task object of the panel browser, and a store of three of them. *)
Definition sample_entry (i s p : string) : Enhanced.EnhancedTask :=
  {| Enhanced.id := i; Enhanced.title := "Set up the cluster";
     Enhanced.status := s; Enhanced.priority := p;
     Enhanced.project := "workspace"; Enhanced.description := "";
     Enhanced.milestone := "M1"; Enhanced.created := "c";
     Enhanced.updated := "u"; Enhanced.details := "";
     Enhanced.links := []; Enhanced.subtasks := [] |}.

Definition sample_store : Enhanced.EnhancedRoadmapTool :=
  {| Enhanced.tasks_file := NoFile;
     Enhanced.tasks := [("T1", sample_entry "T1" "todo" "high");
                        ("T2", sample_entry "T2" "blocked" "critical");
                        ("T3", sample_entry "T3" "done" "low")] |}.

(** A browser over that store whose milestone filter is the empty
    string. *)
Definition empty_filter_browser : Enhanced.EnhancedRoadmapTUI :=
  {| Enhanced.tool := sample_store;
     Enhanced.selected_index := 0; Enhanced.scroll_offset := 0;
     Enhanced.filter_status := None; Enhanced.filter_priority := None;
     Enhanced.filter_milestone := Some "";
     Enhanced.view_mode := "split" |}.

(** A task object of the file that has no [id]. *)
Definition task_without_id : TaskDict :=
  {| d_id := None; d_title := Some "B"; d_status := None;
     d_priority := None; d_project := None; d_description := None;
     d_milestone := None; d_created := None; d_updated := None;
     d_details := None; d_links := None; d_subtasks := None |}.

(** A turn of the key loop on a terminal of [h] lines and 120 columns. *)
Definition press (h k : Z) : Enhanced.turn :=
  {| Enhanced.height := h; Enhanced.width := 120; Enhanced.key := k;
     Enhanced.now := "n" |}.

(** A terminal of 8 lines on which no call fails. *)
Definition small_terminal : Enhanced.terminal :=
  {| Enhanced.LINES := 8; Enhanced.COLS := 120;
     Enhanced.raises := fun _ => false |}.

(** A world in which the one linked document is [doc], and a line carries
    the tag of [T1] when it holds [[task-id: T1]] and mentions the task
    when it holds [T1]. *)
Definition tagging_outside (doc : Modern.prd_file) : Modern.outside :=
  {| Modern.path_str := fun p => ("/ws/" ++ p)%string;
     Modern.file_at := fun _ => doc;
     Modern.re_search :=
       fun pattern line =>
         if (pattern =? Modern.task_pattern "T1")%string
         then if contains "[task-id: T1]" line
              then Modern.Found else Modern.NotFound
         else if (pattern =? "T1")%string
         then if contains "T1" line then Modern.Found else Modern.NotFound
         else Modern.NotFound;
     Modern.columns := Some 80 |}.

Definition tagging_viewer (doc : Modern.prd_file)
  : Modern.ModernRoadmapViewer :=
  {| Modern.env := tagging_outside doc;
     Modern.tasks := [("T1", linked_task)] |}.

(** The text of the lines, with line feeds between them. *)
Definition text_of (lines : list string) : string :=
  String.concat (String LF "") lines.

(** A document with a tagged heading and one with a tag on a plain line. *)
Definition sectioned_document : list string :=
  ["# Plan"; "## Setup [task-id: T1]"; "step one"; "### Detail"; "more";
   "## Other"; "tail"].

Definition noted_document : list string :=
  ["# Plan"; "note [task-id: T1]"; "step one"; "## Other"].



(* ================================================================== *)
(** * Part III: the properties                                         *)
(* ================================================================== *)

(** ** Words and lines *)

Lemma split_words : forall s, Forall is_word (split s).
Proof.
  induction s as [|c s IH]; simpl; [constructor|].
  destruct (isspace c) eqn:Hc; [exact IH|].
  destruct s as [|c' s'].
  - repeat constructor; [discriminate | simpl; now rewrite Hc].
  - destruct (isspace c') eqn:Hc'.
    + constructor; [|exact IH].
      split; [discriminate | simpl; now rewrite Hc].
    + destruct (split (String c' s')) as [|w ws] eqn:Hs.
      * repeat constructor; [discriminate | simpl; now rewrite Hc].
      * inversion IH as [|? ? [_ Hw] Hws]; subst.
        constructor; [|exact Hws].
        split; [discriminate|].
        cbn [no_space]. now rewrite Hc, Hw.
Qed.

Lemma split_word : forall w, is_word w -> split w = [w].
Proof.
  induction w as [|c w IH]; intros [Hne Hns]; [congruence|].
  cbn [no_space] in Hns. apply andb_true_iff in Hns as [Hc Hw].
  apply negb_true_iff in Hc.
  cbn [split]. rewrite Hc.
  destruct w as [|c' w']; [reflexivity|].
  assert (Hw' : is_word (String c' w')) by (split; [discriminate|exact Hw]).
  cbn [no_space] in Hw. apply andb_true_iff in Hw as [Hc' _].
  apply negb_true_iff in Hc'. rewrite Hc'.
  now rewrite (IH Hw').
Qed.

Lemma split_space : forall c s,
  isspace c = true -> split (String c s) = split s.
Proof. intros c s Hc. cbn [split]. now rewrite Hc. Qed.

Lemma split_word_space : forall w c s,
  is_word w -> isspace c = true ->
  split (w ++ String c s) = w :: split s.
Proof.
  induction w as [|a w IH]; intros c s [Hne Hns] Hc; [congruence|].
  cbn [no_space] in Hns. apply andb_true_iff in Hns as [Ha Hw].
  apply negb_true_iff in Ha.
  change (String a w ++ String c s)%string with (String a (w ++ String c s))%string.
  cbn [split]. rewrite Ha.
  destruct w as [|a' w'].
  - change ("" ++ String c s)%string with (String c s)%string. cbv iota.
    rewrite Hc. f_equal. now apply split_space.
  - assert (Hw' : is_word (String a' w')) by (split; [discriminate|exact Hw]).
    cbn [no_space] in Hw. apply andb_true_iff in Hw as [Ha' _].
    apply negb_true_iff in Ha'.
    change (String a' w' ++ String c s)%string with (String a' (w' ++ String c s))%string.
    cbv iota. rewrite Ha'.
    change (String a' (w' ++ String c s))%string with (String a' w' ++ String c s)%string.
    now rewrite (IH c s Hw' Hc).
Qed.

Lemma split_join : forall ws,
  Forall is_word ws -> split (join " " ws) = ws.
Proof.
  unfold join.
  induction ws as [|w ws IH]; intros H; [reflexivity|].
  inversion H as [|? ? Hw Hws]; subst.
  destruct ws as [|w' ws'].
  - now apply split_word.
  - change (concat " " (w :: w' :: ws'))
      with (w ++ String " " (concat " " (w' :: ws')))%string.
    rewrite split_word_space by (first [assumption | reflexivity]).
    f_equal. now apply IH.
Qed.

Lemma len_append : forall a b, len (a ++ b) = len a + len b.
Proof.
  unfold len. intros a b.
  induction a as [|c a IH]; cbn [append String.length]; lia.
Qed.

Lemma len_join_snoc : forall cl w,
  cl <> [] -> len (join " " (cl ++ [w])) = len (join " " cl) + 1 + len w.
Proof.
  unfold join.
  induction cl as [|x cl IH]; intros w Hne; [congruence|].
  destruct cl as [|y cl'].
  - cbn [app concat]. rewrite !len_append. change (len " ") with 1. lia.
  - change (concat " " ((x :: y :: cl') ++ [w]))
      with (x ++ " " ++ concat " " ((y :: cl') ++ [w]))%string.
    change (concat " " (x :: y :: cl'))
      with (x ++ " " ++ concat " " (y :: cl'))%string.
    rewrite !len_append, IH by discriminate. change (len " ") with 1. lia.
Qed.

(** ** The wrapper's loop invariant *)

Section WrapInvariant.
Import Wrap.

Variable width : Z.
(** The words of the text being wrapped. *)
Variable all : list string.

Lemma len_nonneg : forall s, 0 <= len s.
Proof. intros s. unfold len. lia. Qed.

Lemma flush_lines_ok : forall st done,
  wrap_inv width all st done -> Forall (line_ok width all) (flush st).
Proof.
  intros st done I. unfold flush.
  destruct (current_line st) as [|w cl] eqn:E; [apply (inv_lines _ _ _ _ I)|].
  apply Forall_app. split; [apply (inv_lines _ _ _ _ I)|].
  constructor; [|constructor].
  rewrite <- E. apply (inv_current _ _ _ _ I). rewrite E. discriminate.
Qed.

Lemma flush_words : forall st done,
  wrap_inv width all st done -> flat_map split (flush st) = done.
Proof.
  intros st done I. unfold flush.
  pose proof (inv_done _ _ _ _ I) as D. pose proof (inv_words _ _ _ _ I) as W.
  destruct (current_line st) as [|w cl] eqn:E.
  - now rewrite app_nil_r in D.
  - rewrite flat_map_app. cbn [flat_map]. rewrite app_nil_r.
    now rewrite split_join.
Qed.

Lemma wrap_word_inv : forall st done w,
  wrap_inv width all st done -> is_word w -> In w all ->
  wrap_inv width all (wrap_word width st w) (done ++ [w]).
Proof.
  intros st done w I Hw Hin. unfold wrap_word.
  pose proof (len_nonneg w) as Lw. pose proof (inv_nonneg _ _ _ _ I) as L0.
  destruct (current_length st + len w + 1 <=? width) eqn:Hfit.
  - apply Z.leb_le in Hfit.
    assert (Hlen : len (join " " (current_line st ++ [w]))
                   <= current_length st + len w + 1).
    { destruct (current_line st) as [|x cl] eqn:E.
      - cbn. lia.
      - rewrite len_join_snoc by discriminate.
        assert (len (join " " (x :: cl)) <= current_length st)
          by (rewrite <- E; apply (inv_length _ _ _ _ I); rewrite E; discriminate).
        lia. }
    constructor; cbn [lines current_line current_length].
    + apply (inv_lines _ _ _ _ I).
    + apply Forall_app. split; [apply (inv_words _ _ _ _ I)|].
      constructor; [exact Hw | constructor].
    + lia.
    + intros _. exact Hlen.
    + intros _. left. lia.
    + rewrite app_assoc. f_equal. apply (inv_done _ _ _ _ I).
  - apply Z.leb_gt in Hfit.
    constructor; cbn [lines current_line current_length].
    + eapply flush_lines_ok; eauto.
    + constructor; [exact Hw | constructor].
    + exact Lw.
    + intros _. cbn. lia.
    + intros _. cbn. unfold line_ok.
      destruct (Z_le_gt_dec (len w) width); [left; lia | right; split; [assumption | lia]].
    + f_equal. eapply flush_words; eauto.
Qed.

Lemma wrap_fold_inv : forall ws st done,
  wrap_inv width all st done -> Forall is_word ws -> incl ws all ->
  wrap_inv width all (fold_left (wrap_word width) ws st) (done ++ ws).
Proof.
  induction ws as [|w ws IH]; intros st done I W Hall; cbn [fold_left].
  - now rewrite app_nil_r.
  - inversion W as [|? ? Hw Hws]; subst.
    replace (done ++ w :: ws) with ((done ++ [w]) ++ ws)
      by (now rewrite <- app_assoc).
    apply IH; [|assumption|].
    + apply wrap_word_inv; [assumption..|]. apply Hall. now left.
    + intros x Hx. apply Hall. now right.
Qed.

Lemma wrap_init_inv : wrap_inv width all (mk_wrap [] [] 0) [].
Proof. constructor; cbn; try constructor; try congruence; lia. Qed.

End WrapInvariant.

Lemma wrap_loop_inv : forall width text,
  wrap_inv width (split text) (Wrap.wrap_loop width (split text)) (split text).
Proof.
  intros width text. unfold Wrap.wrap_loop.
  change (split text) with ([] ++ split text) at 3.
  apply wrap_fold_inv.
  - apply wrap_init_inv.
  - apply split_words.
  - apply incl_refl.
Qed.

(** ** C5: the lines fit the width *)

(** C5.  For every text and every positive width, both wrappers (they are
    the same function) return a non-empty list of lines; every line is at
    most [width] characters long, unless it is exactly one of the words of
    the text, alone on its line and longer than [width]; and splitting the
    lines again yields the words of the text in their order, so that no
    word is broken, dropped, repeated or moved. *)
Theorem wrap_text_lines_fit : forall (text : string) (width : Z),
  0 < width ->
  Modern.format_text text width = Enhanced._wrap_text text width
  /\ Enhanced._wrap_text text width <> []
  /\ (forall l, In l (Enhanced._wrap_text text width) ->
        len l <= width \/ (In l (split text) /\ width < len l))
  /\ flat_map split (Enhanced._wrap_text text width) = split text.
Proof.
  intros text width Hpos.
  split; [reflexivity|].
  unfold Enhanced._wrap_text, Wrap.wrap_result.
  pose proof (wrap_loop_inv width text) as I.
  pose proof (flush_lines_ok _ _ _ _ I) as Hok.
  pose proof (flush_words _ _ _ _ I) as Hws.
  destruct (Wrap.flush (Wrap.wrap_loop width (split text))) as [|l ls].
  - repeat split; [discriminate| |].
    + intros l [<-|[]]. left. cbn. lia.
    + cbn in Hws. now rewrite <- Hws.
  - repeat split; [discriminate| |exact Hws].
    intros l' Hin. rewrite Forall_forall in Hok. now apply Hok.
Qed.

Lemma wrap_text_lines_fit_witness :
  0 < 5
  /\ Enhanced._wrap_text "ab cd ef" 5 = ["ab"; "cd ef"]
  /\ Modern.format_text "ab cd ef" 5 = Enhanced._wrap_text "ab cd ef" 5
  /\ flat_map split (Enhanced._wrap_text "ab cd ef" 5) = split "ab cd ef".
Proof.
  assert (H : 0 < 5) by lia.
  destruct (wrap_text_lines_fit "ab cd ef" 5 H) as (E & _ & _ & W).
  split; [exact H|].
  split; [reflexivity|].
  split; [exact E | exact W].
Defined.

(** ** C6: wrapping again *)

(** The wrapper on the empty text: one empty line, which wraps to itself. *)
Lemma wrap_text_empty : forall width,
  Enhanced._wrap_text "" width = [""]
  /\ Modern.format_text "" width = [""].
Proof. intros width. split; reflexivity. Qed.

(** C6.  Wrapping is not idempotent.  At width 5 the text [ab cd ef] is
    wrapped into the lines [ab] and [cd ef]: the first line is closed one
    character early, because a line begun by the first word of the text is
    charged for a space after its last word, while a line begun after a
    break is not.  Wrapped again on its own, the line [cd ef] is then the
    start of a text and is broken into [cd] and [ef]. *)
Theorem wrap_text_not_idempotent :
  Enhanced._wrap_text "ab cd ef" 5 = ["ab"; "cd ef"]
  /\ Enhanced._wrap_text "cd ef" 5 = ["cd"; "ef"]
  /\ Modern.format_text "cd ef" 5 = ["cd"; "ef"]
  /\ ~ (forall text width l,
          In l (Enhanced._wrap_text text width) ->
          Enhanced._wrap_text l width = [l]).
Proof.
  split; [reflexivity|]. split; [reflexivity|]. split; [reflexivity|].
  intros H. specialize (H "ab cd ef" 5 "cd ef").
  assert (E : Enhanced._wrap_text "cd ef" 5 = ["cd ef"]).
  { apply H. right. left. reflexivity. }
  discriminate E.
Qed.

(** ** C9: the absent store file *)

(** C9.  When the tasks file does not exist, both [load_tasks] return the
    empty mapping and raise nothing; saving the empty collection leaves the
    file holding the empty JSON object, the collection unchanged, and a
    later load of that file gives the empty mapping again. *)
Theorem absent_file_loads_empty_and_saves_empty_object :
  forall (now : string) (f : file),
  Enhanced.load_tasks now NoFile = Ok []
  /\ Modern.load_tasks NoFile = Ok []
  /\ Enhanced.tasks_file
       (Enhanced.save_tasks
          {| Enhanced.tasks_file := f; Enhanced.tasks := [] |})
     = Json []
  /\ Enhanced.tasks
       (Enhanced.save_tasks
          {| Enhanced.tasks_file := f; Enhanced.tasks := [] |})
     = []
  /\ Enhanced.load_tasks now (Json []) = Ok []
  /\ Modern.load_tasks (Json []) = Ok [].
Proof.
  intros now f. unfold Enhanced.load_tasks, Modern.load_tasks.
  cbn [Enhanced.save_tasks Enhanced.tasks_file Enhanced.tasks Enhanced.dump
       map map_result].
  repeat split.
Qed.

(** ** The stable sort *)

Section SortFacts.
Context {A K : Type}.
Variable key : A -> K.
Variable lt : K -> K -> bool.

Lemma insert_perm : forall x l,
  Permutation (PyList.insert key lt x l) (x :: l).
Proof.
  intros x l. induction l as [|y l IH]; cbn [PyList.insert]; [reflexivity|].
  destruct (lt (key y) (key x)); [|reflexivity].
  rewrite IH. apply perm_swap.
Qed.

Lemma sort_perm : forall l, Permutation (PyList.sort key lt l) l.
Proof.
  induction l as [|x l IH]; cbn [PyList.sort]; [reflexivity|].
  rewrite insert_perm. now constructor.
Qed.

Lemma sort_map : forall (f : A -> A) l,
  (forall x, key (f x) = key x) ->
  PyList.sort key lt (map f l) = map f (PyList.sort key lt l).
Proof.
  intros f l Hf.
  assert (Hins : forall x m,
    PyList.insert key lt (f x) (map f m) = map f (PyList.insert key lt x m)).
  { intros x m. induction m as [|y m IH]; cbn [PyList.insert map]; [reflexivity|].
    rewrite !Hf. destruct (lt (key y) (key x)); cbn [map]; [now rewrite IH | reflexivity]. }
  induction l as [|x l IH]; cbn [PyList.sort map]; [reflexivity|].
  now rewrite IH, Hins.
Qed.

Hypothesis lt_asym : forall a b, lt a b = true -> lt b a = false.
Hypothesis nlt_trans :
  forall a b c, lt b a = false -> lt c b = false -> lt c a = false.

Lemma insert_sorted : forall x l,
  StronglySorted (ordered key lt) l -> StronglySorted (ordered key lt) (PyList.insert key lt x l).
Proof.
  intros x l. induction 1 as [|y l Hl IH Hy]; cbn [PyList.insert].
  - repeat constructor.
  - destruct (lt (key y) (key x)) eqn:E.
    + constructor; [exact IH|].
      apply Forall_forall. intros z Hz.
      apply (Permutation_in _ (insert_perm x l)) in Hz.
      destruct Hz as [<-|Hz].
      * unfold ordered. now apply lt_asym.
      * rewrite Forall_forall in Hy. now apply Hy.
    + constructor; [now constructor|].
      constructor; [exact E|].
      apply Forall_forall. intros z Hz.
      rewrite Forall_forall in Hy. specialize (Hy z Hz).
      unfold ordered in *. eapply nlt_trans; eassumption.
Qed.

Lemma sort_sorted : forall l, StronglySorted (ordered key lt) (PyList.sort key lt l).
Proof.
  induction l as [|x l IH]; cbn [PyList.sort]; [constructor|].
  now apply insert_sorted.
Qed.

End SortFacts.

(** ** The order of tuples *)

Lemma str_ltb_lt : forall a b, str_ltb a b = true <-> str_lt a b.
Proof.
  intros a b. unfold str_ltb, str_lt, String_as_OT.lt.
  destruct (String_as_OT.compare a b); split; congruence.
Qed.

Lemma str_lt_irrefl : forall a, ~ str_lt a a.
Proof. intros a. apply (StrictOrder_Irreflexive (R := String_as_OT.lt)). Qed.

Lemma str_lt_trans : forall a b c, str_lt a b -> str_lt b c -> str_lt a c.
Proof. intros a b c. apply (StrictOrder_Transitive (R := String_as_OT.lt)). Qed.

Lemma str_trichotomy : forall a b, str_lt a b \/ a = b \/ str_lt b a.
Proof.
  intros a b. unfold str_lt.
  destruct (String_as_OT.compare_spec a b); auto.
Qed.

Lemma str_nltb_le : forall a b, str_ltb b a = false <-> str_le a b.
Proof.
  intros a b. unfold str_le. split.
  - intros H. destruct (str_trichotomy a b) as [L|[E|G]]; auto.
    apply str_ltb_lt in G. congruence.
  - intros [L|E].
    + destruct (str_ltb b a) eqn:G; [|reflexivity].
      apply str_ltb_lt in G. exfalso.
      exact (str_lt_irrefl a (str_lt_trans _ _ _ L G)).
    + subst. destruct (str_ltb b b) eqn:G; [|reflexivity].
      apply str_ltb_lt in G. now apply str_lt_irrefl in G.
Qed.

Lemma key_nltb_le : forall a b, Enhanced.key_ltb b a = false <-> key_le a b.
Proof.
  intros [[p1 m1] i1] [[p2 m2] i2]. unfold Enhanced.key_ltb, key_le.
  destruct (Z.eqb_spec p2 p1) as [->|Hp].
  - destruct (String.eqb_spec m2 m1) as [->|Hm].
    + rewrite str_nltb_le. split.
      * intros H. right. split; [reflexivity|]. right. now split.
      * intros [H|[_ [H|[_ H]]]]; [lia| |exact H].
        now apply str_lt_irrefl in H.
    + rewrite str_nltb_le. split.
      * intros [H|H]; [|congruence]. right. split; [reflexivity|]. now left.
      * intros [H|[_ [H|[H _]]]]; [lia| |congruence]. now left.
  - rewrite Z.ltb_ge. split.
    + intros H. left. lia.
    + intros [H|[H _]]; lia.
Qed.

Lemma key_le_trans : forall a b c, key_le a b -> key_le b c -> key_le a c.
Proof.
  intros [[p1 m1] i1] [[p2 m2] i2] [[p3 m3] i3]. unfold key_le, str_le.
  intros [H1|[-> H1]] [H2|[-> H2]]; try (left; lia).
  right. split; [reflexivity|].
  destruct H1 as [H1|[-> H1]], H2 as [H2|[-> H2]]; auto.
  - left. eapply str_lt_trans; eassumption.
  - right. split; [reflexivity|].
    destruct H1 as [H1| ->], H2 as [H2| ->]; auto.
    left. eapply str_lt_trans; eassumption.
Qed.

Lemma key_le_total : forall a b, key_le a b \/ key_le b a.
Proof.
  intros [[p1 m1] i1] [[p2 m2] i2]. unfold key_le, str_le.
  destruct (Z.lt_trichotomy p1 p2) as [H|[->|H]]; auto.
  destruct (str_trichotomy m1 m2) as [H|[->|H]]; auto.
  destruct (str_trichotomy i1 i2) as [H|[->|H]]; auto 10.
Qed.

Lemma key_ltb_asym : forall a b,
  Enhanced.key_ltb a b = true -> Enhanced.key_ltb b a = false.
Proof.
  intros a b H. apply key_nltb_le.
  destruct (key_le_total a b) as [L|L]; [exact L|].
  apply key_nltb_le in L. congruence.
Qed.

Lemma key_nltb_trans : forall a b c,
  Enhanced.key_ltb b a = false -> Enhanced.key_ltb c b = false ->
  Enhanced.key_ltb c a = false.
Proof.
  intros a b c. rewrite !key_nltb_le. apply key_le_trans.
Qed.

(** ** C2: the filter/sort pipeline *)

Lemma constrainsb_spec : forall flt v,
  constrainsb flt v = true <-> constrains flt v.
Proof.
  intros flt v. unfold constrainsb, constrains.
  destruct flt as [[|c s]|].
  - split; [|reflexivity]. intros _ w E Hw. injection E as <-. congruence.
  - rewrite String.eqb_eq. split.
    + intros -> w E _. now injection E.
    + intros H. apply H; [reflexivity | discriminate].
  - split; [|reflexivity]. intros _ w E. discriminate E.
Qed.

Lemma constrainsb_unset : forall flt v,
  truthy flt = false -> constrainsb flt v = true.
Proof.
  intros flt v H. unfold constrainsb.
  destruct flt as [[|ch w]|]; [reflexivity | discriminate H | reflexivity].
Qed.

Lemma satisfiesb_spec : forall self r,
  satisfiesb self r = true <-> satisfies self (snd r).
Proof.
  intros self r. unfold satisfiesb, satisfies.
  rewrite !andb_true_iff, !constrainsb_spec. tauto.
Qed.

Lemma where_eq_filter : forall flt field ts,
  Enhanced.where_eq flt field ts
  = filter (fun r => constrainsb flt (field (snd r))) ts.
Proof.
  intros flt field ts. unfold Enhanced.where_eq, constrainsb.
  destruct flt as [[|c s]|]; cbn [truthy get_or]; [|reflexivity|];
    (induction ts as [|r ts IH]; cbn [filter]; [reflexivity|];
     now rewrite <- IH).
Qed.

Lemma filter_twice : forall (A : Type) (f g : A -> bool) l,
  filter g (filter f l) = filter (fun x => f x && g x) l.
Proof.
  intros A f g l. induction l as [|x l IH]; cbn [filter]; [reflexivity|].
  destruct (f x); cbn [filter andb]; [destruct (g x)|]; now rewrite IH.
Qed.

(** The pipeline is the stable sort of the tasks that pass the filters. *)
Lemma get_filtered_tasks_eq : forall self,
  Enhanced.get_filtered_tasks self
  = PyList.sort Enhanced.sort_key Enhanced.key_ltb
      (filter (satisfiesb self) (Enhanced.tasks (Enhanced.tool self))).
Proof.
  intros self. unfold Enhanced.get_filtered_tasks.
  rewrite !where_eq_filter, !filter_twice. reflexivity.
Qed.

Lemma get_filtered_tasks_incl : forall self r,
  In r (Enhanced.get_filtered_tasks self) ->
  In r (Enhanced.tasks (Enhanced.tool self)).
Proof.
  intros self r H. rewrite get_filtered_tasks_eq in H.
  apply (Permutation_in _ (sort_perm _ _ _)) in H.
  now apply filter_In in H.
Qed.

(** The scenario of two tasks of milestone [M1], one [high] and [todo], one
    [critical] and [done]: under the milestone filter the critical one
    comes first. *)
Example filtered_by_milestone_critical_first :
  let task i s p :=
    {| Enhanced.id := i; Enhanced.title := i; Enhanced.status := s;
       Enhanced.priority := p; Enhanced.project := "workspace";
       Enhanced.description := ""; Enhanced.milestone := "M1";
       Enhanced.created := ""; Enhanced.updated := "";
       Enhanced.details := ""; Enhanced.links := [];
       Enhanced.subtasks := [] |} in
  map fst
    (Enhanced.get_filtered_tasks
       {| Enhanced.tool :=
            {| Enhanced.tasks_file := NoFile;
               Enhanced.tasks := [("T1", task "T1" "todo" "high");
                                  ("T2", task "T2" "done" "critical")] |};
          Enhanced.selected_index := 0; Enhanced.scroll_offset := 0;
          Enhanced.filter_status := None; Enhanced.filter_priority := None;
          Enhanced.filter_milestone := Some "M1";
          Enhanced.view_mode := "split" |})
  = ["T2"; "T1"].
Proof. reflexivity. Qed.

(** C2 fails as stated: the milestone filter is the empty string, the
    value of a task without milestone, and the pipeline returns the tasks
    of milestone [M1]: the empty string is no constraint. *)
Lemma empty_filter_selects_every_task :
  Enhanced.filter_milestone empty_filter_browser = Some ""
  /\ ~ (forall r,
          In r (Enhanced.get_filtered_tasks empty_filter_browser) ->
          Enhanced.milestone (snd r) = "").
Proof.
  split; [reflexivity|]. intros H.
  assert (Hin : In ("T1", sample_entry "T1" "todo" "high")
                   (Enhanced.get_filtered_tasks empty_filter_browser))
    by (vm_compute; tauto).
  apply H in Hin. discriminate Hin.
Qed.

(** C2, as the code has it.  A filter that is [None] or the empty string is
    not applied; any other filter is an exact-match constraint.  For every
    task collection and every setting of the three filters, the pipeline's
    output holds exactly the tasks of the collection whose status,
    priority and milestone are the values that the filters ask for (it is
    a permutation of that selection, so nothing is lost or repeated),
    ascending in the triple (priority rank, milestone, id) under the
    lexicographic order of tuples and strings, where the rank is 0 for
    critical, 1 for high, 2 for medium, 3 for low and 4 for everything
    else.  The output is a function of the collection and the filters. *)
Theorem get_filtered_tasks_selects_and_sorts :
  forall self : Enhanced.EnhancedRoadmapTUI,
  (forall r, In r (Enhanced.get_filtered_tasks self) <->
             In r (Enhanced.tasks (Enhanced.tool self))
             /\ (forall w, Enhanced.filter_status self = Some w ->
                           w <> "" -> Enhanced.status (snd r) = w)
             /\ (forall w, Enhanced.filter_priority self = Some w ->
                           w <> "" -> Enhanced.priority (snd r) = w)
             /\ (forall w, Enhanced.filter_milestone self = Some w ->
                           w <> "" -> Enhanced.milestone (snd r) = w))
  /\ (forall flt v, constrainsb flt v = true <->
                    (forall w, flt = Some w -> w <> "" -> v = w))
  /\ Permutation (Enhanced.get_filtered_tasks self)
       (filter (satisfiesb self) (Enhanced.tasks (Enhanced.tool self)))
  /\ StronglySorted
       (fun a b => key_le (Enhanced.sort_key a) (Enhanced.sort_key b))
       (Enhanced.get_filtered_tasks self)
  /\ (forall r, Enhanced.sort_key r =
        (Enhanced.priority_order (Enhanced.priority (snd r)),
         Enhanced.milestone (snd r), Enhanced.id (snd r)))
  /\ Enhanced.priority_order "critical" = 0
  /\ Enhanced.priority_order "high" = 1
  /\ Enhanced.priority_order "medium" = 2
  /\ Enhanced.priority_order "low" = 3
  /\ (forall p, ~ In p ["critical"; "high"; "medium"; "low"] ->
        Enhanced.priority_order p = 4).
Proof.
  intros self.
  assert (P : Permutation (Enhanced.get_filtered_tasks self)
                (filter (satisfiesb self) (Enhanced.tasks (Enhanced.tool self)))).
  { rewrite get_filtered_tasks_eq. apply sort_perm. }
  split; [|split; [exact constrainsb_spec
                  |split; [exact P|split; [|split; [reflexivity|]]]]].
  - intros r.
    change (In r (Enhanced.get_filtered_tasks self) <->
            In r (Enhanced.tasks (Enhanced.tool self))
            /\ satisfies self (snd r)).
    rewrite <- satisfiesb_spec, <- filter_In. split.
    + apply Permutation_in. exact P.
    + apply Permutation_in. symmetry. exact P.
  - rewrite get_filtered_tasks_eq.
    eapply StronglySorted_ind with
      (P := fun l => StronglySorted
              (fun a b => key_le (Enhanced.sort_key a) (Enhanced.sort_key b)) l);
      [constructor | | apply (sort_sorted Enhanced.sort_key Enhanced.key_ltb
                                key_ltb_asym key_nltb_trans)].
    intros a l _ IH Ha. constructor; [exact IH|].
    eapply Forall_impl; [|exact Ha].
    intros b Hb. apply key_nltb_le. exact Hb.
  - repeat (split; [reflexivity|]).
    intros p Hp. unfold Enhanced.priority_order.
    repeat match goal with
           | |- context [String.eqb p ?s] =>
               destruct (String.eqb_spec p s) as [->|_];
               [exfalso; apply Hp; cbn; tauto|]
           end.
    reflexivity.
Qed.

(** ** C3 and C10: the space key *)

Lemma getitem_nth_error : forall (A : Type) (l : list A) i x,
  0 <= i -> nth_error l (Z.to_nat i) = Some x ->
  PyList.getitem l i = Some x /\ i < Z.of_nat (List.length l).
Proof.
  intros A l i x Hi Hn.
  assert (Hlt : (Z.to_nat i < List.length l)%nat)
    by (apply nth_error_Some; congruence).
  unfold PyList.getitem.
  assert (i < Z.of_nat (List.length l)) by lia.
  replace ((0 <=? i) && (i <? Z.of_nat (List.length l))) with true.
  - now split.
  - symmetry. apply andb_true_iff. split; [apply Z.leb_le | apply Z.ltb_lt]; lia.
Qed.

(** What the space key does to a selected task whose next status is [s]. *)
Lemma space_step : forall self ev r s,
  Enhanced.key ev = Enhanced.KEY_SPACE ->
  0 <= Enhanced.selected_index self ->
  selected self = Some r ->
  Enhanced.next_status (Enhanced.status (snd r)) = Ok s ->
  Enhanced.loop_body ev self
  = Enhanced.Continue (pressed self (fst r) s (Enhanced.now ev)).
Proof.
  intros self ev r s Hk Hsel Hr Hs. unfold selected in Hr.
  destruct (getitem_nth_error _ _ _ _ Hsel Hr) as [Hget Hlt].
  unfold Enhanced.loop_body. rewrite Hk.
  change (Enhanced.KEY_SPACE =? Enhanced.KEY_Q) with false.
  change (Enhanced.KEY_SPACE =? Enhanced.KEY_UP) with false.
  change (Enhanced.KEY_SPACE =? Enhanced.KEY_DOWN) with false.
  change (Enhanced.KEY_SPACE =? Enhanced.KEY_V) with false.
  change (Enhanced.KEY_SPACE =? Enhanced.KEY_SPACE) with true.
  cbv iota.
  replace (negb (Z.of_nat (List.length (Enhanced.get_filtered_tasks self)) =? 0)
           && (Enhanced.selected_index self
               <? Z.of_nat (List.length (Enhanced.get_filtered_tasks self))))
    with true.
  - rewrite Hget, Hs. reflexivity.
  - symmetry. apply andb_true_iff. split.
    + apply negb_true_iff, Z.eqb_neq. lia.
    + apply Z.ltb_lt. lia.
Qed.

Lemma pressed_saved : forall self k s now, saved (pressed self k s now).
Proof. reflexivity. Qed.

Lemma filter_map_commute : forall (A : Type) (p : A -> bool) (g : A -> A) l,
  (forall x, p (g x) = p x) -> filter p (map g l) = map g (filter p l).
Proof.
  intros A p g l H. induction l as [|x l IH]; cbn [map filter]; [reflexivity|].
  rewrite H. destruct (p x); cbn [map]; now rewrite IH.
Qed.

(** Setting status and timestamp moves no task in the list, as long as no
    status filter is set: neither the other filters nor the sort key read
    the two attributes. *)
Lemma get_filtered_tasks_pressed : forall self k s now,
  truthy (Enhanced.filter_status self) = false ->
  Enhanced.get_filtered_tasks (pressed self k s now)
  = Enhanced.assign k s now (Enhanced.get_filtered_tasks self).
Proof.
  intros self k s now Hf.
  rewrite !get_filtered_tasks_eq.
  cbn [pressed Enhanced.with_tool Enhanced.save_tasks Enhanced.tool
       Enhanced.tasks].
  unfold Enhanced.assign.
  rewrite <- sort_map.
  - f_equal.
    rewrite <- filter_map_commute.
    + apply filter_ext. intros r. unfold satisfiesb.
      cbn [Enhanced.filter_status Enhanced.filter_priority
           Enhanced.filter_milestone Enhanced.with_tool].
      reflexivity.
    + intros r. unfold satisfiesb.
      rewrite !(constrainsb_unset _ _ Hf).
      destruct (fst r =? k)%string; reflexivity.
  - intros r. destruct (fst r =? k)%string; reflexivity.
Qed.

Lemma selected_pressed : forall self k t s now,
  truthy (Enhanced.filter_status self) = false ->
  selected self = Some (k, t) ->
  selected (pressed self k s now) = Some (k, Enhanced.touch s now t).
Proof.
  intros self k t s now Hf Hsel. unfold selected in *.
  rewrite get_filtered_tasks_pressed by exact Hf.
  change (Enhanced.selected_index (pressed self k s now))
    with (Enhanced.selected_index self).
  unfold Enhanced.assign. rewrite nth_error_map.
  unfold Enhanced.task_ref in *. rewrite Hsel.
  cbn [option_map fst snd]. now rewrite String.eqb_refl.
Qed.

Lemma touch_touch : forall s1 n1 s2 n2 t,
  Enhanced.touch s2 n2 (Enhanced.touch s1 n1 t) = Enhanced.touch s2 n2 t.
Proof. reflexivity. Qed.

Lemma pressed_filter_status : forall self k s now,
  Enhanced.filter_status (pressed self k s now) = Enhanced.filter_status self.
Proof. reflexivity. Qed.

Lemma pressed_selected_index : forall self k s now,
  Enhanced.selected_index (pressed self k s now) = Enhanced.selected_index self.
Proof. reflexivity. Qed.

Lemma from_dict_to_dict : forall now t,
  Enhanced.from_dict now (Enhanced.to_dict t) = Ok t.
Proof. intros now [ ]. reflexivity. Qed.

(** Loading what [save_tasks] has written gives the collection back. *)
Lemma load_tasks_dump : forall now ts,
  Enhanced.load_tasks now (Json (Enhanced.dump ts)) = Ok ts.
Proof.
  intros now ts. cbn [Enhanced.load_tasks]. unfold Enhanced.dump.
  induction ts as [|[k t] ts IH]; cbn [map map_result]; [reflexivity|].
  cbn [fst snd]. rewrite from_dict_to_dict. cbn [bind].
  rewrite IH. reflexivity.
Qed.

Lemma assign_assign : forall k s1 n1 s2 n2 ts,
  Enhanced.assign k s2 n2 (Enhanced.assign k s1 n1 ts)
  = Enhanced.assign k s2 n2 ts.
Proof.
  intros k s1 n1 s2 n2 ts. unfold Enhanced.assign. rewrite map_map.
  apply map_ext. intros r.
  destruct (fst r =? k)%string eqn:E; cbn [fst snd]; now rewrite E.
Qed.

Lemma pressed_pressed_tool : forall self k s1 n1 s2 n2,
  Enhanced.tool (pressed (pressed self k s1 n1) k s2 n2)
  = Enhanced.tool (pressed self k s2 n2).
Proof.
  intros self k s1 n1 s2 n2.
  cbn [pressed Enhanced.with_tool Enhanced.save_tasks Enhanced.tool
       Enhanced.tasks Enhanced.tasks_file].
  now rewrite assign_assign.
Qed.

Lemma selected_in_tasks : forall self r,
  selected self = Some r -> In r (Enhanced.tasks (Enhanced.tool self)).
Proof.
  intros self r H. unfold selected in H.
  apply nth_error_In in H. now apply get_filtered_tasks_incl in H.
Qed.

(** The state that the space key leaves, spelled out. *)
Lemma pressed_cycled : forall self self' k t s now,
  In (k, t) (Enhanced.tasks (Enhanced.tool self)) ->
  Enhanced.tool self' = Enhanced.tool (pressed self k s now) ->
  cycled self self' k t (Enhanced.touch s now t) s now.
Proof.
  intros self self' k t s now Hin Htool. unfold cycled. rewrite Htool.
  cbn [pressed Enhanced.with_tool Enhanced.save_tasks Enhanced.tool
       Enhanced.tasks Enhanced.tasks_file].
  assert (Hin' : In (k, Enhanced.touch s now t)
                    (Enhanced.assign k s now
                       (Enhanced.tasks (Enhanced.tool self)))).
  { unfold Enhanced.assign. apply in_map_iff. exists (k, t).
    split; [|exact Hin]. cbn [fst snd]. now rewrite String.eqb_refl. }
  split; [reflexivity|]. split; [reflexivity|].
  split; [repeat split|]. split; [exact Hin'|]. split; [|split; [|split]].
  - unfold Enhanced.assign. rewrite map_map. apply map_ext. intros r.
    now destruct (fst r =? k)%string.
  - intros r Hr. unfold Enhanced.assign. rewrite in_map_iff. split.
    + intros (r' & E & Hr').
      destruct (String.eqb_spec (fst r') k) as [Ek|_].
      * subst r. cbn [fst] in Hr. congruence.
      * now subst r'.
    + intros H. exists r. split; [|exact H].
      destruct (String.eqb_spec (fst r) k); [congruence | reflexivity].
  - intros clock. apply load_tasks_dump.
  - exists (Enhanced.dump
              (Enhanced.assign k s now (Enhanced.tasks (Enhanced.tool self)))),
           (Enhanced.to_dict (Enhanced.touch s now t)).
    split; [reflexivity|]. split; [|split; reflexivity].
    unfold Enhanced.dump. apply in_map_iff.
    exists (k, Enhanced.touch s now t). split; [reflexivity | exact Hin'].
Qed.

Lemma unset_not_truthy : forall flt, unset flt -> truthy flt = false.
Proof. intros flt [-> | ->]; reflexivity. Qed.

(** C3.  In the panel browser, with no status filter set (the browser never
    sets one), three presses of the space key on a selected task whose
    status is [todo] take it to [in_progress], then [done], then [todo]
    again, and the task stays under the selection bar.  After each press,
    in the state in which the next key is read: the task has the new
    status, its [updated] is the time of the press and its other
    attributes are as they were; the collection has the same keys and,
    under the other keys, the same tasks; and the file, loaded again,
    gives the collection as it is in memory, the new status and time
    under the key of the task. *)
Theorem space_cycles_status_and_saves :
  forall (self : Enhanced.EnhancedRoadmapTUI) (e1 e2 e3 : Enhanced.turn)
         (k : string) (t : Enhanced.EnhancedTask),
  Enhanced.key e1 = Enhanced.KEY_SPACE ->
  Enhanced.key e2 = Enhanced.KEY_SPACE ->
  Enhanced.key e3 = Enhanced.KEY_SPACE ->
  unset (Enhanced.filter_status self) ->
  0 <= Enhanced.selected_index self ->
  selected self = Some (k, t) ->
  Enhanced.status t = "todo" ->
  exists s1 s2 s3 t1 t2 t3,
    Enhanced.run self [e1] = Enhanced.Continue s1
    /\ Enhanced.run self [e1; e2] = Enhanced.Continue s2
    /\ Enhanced.run self [e1; e2; e3] = Enhanced.Continue s3
    /\ selected s1 = Some (k, t1)
    /\ selected s2 = Some (k, t2)
    /\ selected s3 = Some (k, t3)
    /\ cycled self s1 k t t1 "in_progress" (Enhanced.now e1)
    /\ cycled self s2 k t t2 "done" (Enhanced.now e2)
    /\ cycled self s3 k t t3 "todo" (Enhanced.now e3).
Proof.
  intros self e1 e2 e3 k t K1 K2 K3 Hu Hsel Hk Hst.
  pose proof (unset_not_truthy _ Hu) as Hf.
  pose proof (selected_in_tasks _ _ Hk) as Hin.
  set (s1 := pressed self k "in_progress" (Enhanced.now e1)).
  set (s2 := pressed s1 k "done" (Enhanced.now e2)).
  set (s3 := pressed s2 k "todo" (Enhanced.now e3)).
  assert (Sel1 : selected s1
                 = Some (k, Enhanced.touch "in_progress" (Enhanced.now e1) t))
    by (apply selected_pressed; assumption).
  assert (Sel2 : selected s2
                 = Some (k, Enhanced.touch "done" (Enhanced.now e2) t)).
  { unfold s2. erewrite selected_pressed; [|exact Hf|exact Sel1].
    now rewrite touch_touch. }
  assert (Sel3 : selected s3
                 = Some (k, Enhanced.touch "todo" (Enhanced.now e3) t)).
  { unfold s3. erewrite selected_pressed; [|exact Hf|exact Sel2].
    now rewrite touch_touch. }
  assert (R1 : Enhanced.loop_body e1 self = Enhanced.Continue s1).
  { apply (space_step self e1 (k, t) "in_progress" K1 Hsel Hk).
    cbn [snd]. now rewrite Hst. }
  assert (R2 : Enhanced.loop_body e2 s1 = Enhanced.Continue s2).
  { now apply (space_step s1 e2 (k, _) "done" K2 Hsel Sel1). }
  assert (R3 : Enhanced.loop_body e3 s2 = Enhanced.Continue s3).
  { now apply (space_step s2 e3 (k, _) "todo" K3 Hsel Sel2). }
  assert (T2 : Enhanced.tool s2
               = Enhanced.tool (pressed self k "done" (Enhanced.now e2)))
    by (unfold s2, s1; apply pressed_pressed_tool).
  assert (T3 : Enhanced.tool s3
               = Enhanced.tool (pressed self k "todo" (Enhanced.now e3))).
  { unfold s3, s2, s1. rewrite pressed_pressed_tool.
    apply pressed_pressed_tool. }
  exists s1, s2, s3,
    (Enhanced.touch "in_progress" (Enhanced.now e1) t),
    (Enhanced.touch "done" (Enhanced.now e2) t),
    (Enhanced.touch "todo" (Enhanced.now e3) t).
  cbn [Enhanced.run]. rewrite R1, R2, R3.
  repeat (split; [first [reflexivity | assumption]|]).
  split; [|split].
  - now apply pressed_cycled.
  - now apply pressed_cycled.
  - now apply pressed_cycled.
Qed.

Lemma space_cycles_status_and_saves_witness :
  let t := {| Enhanced.id := "T1"; Enhanced.title := "A";
              Enhanced.status := "todo"; Enhanced.priority := "high";
              Enhanced.project := "workspace"; Enhanced.description := "";
              Enhanced.milestone := "M1"; Enhanced.created := "c";
              Enhanced.updated := "u"; Enhanced.details := "";
              Enhanced.links := []; Enhanced.subtasks := [] |} in
  let self := Enhanced.init
                {| Enhanced.tasks_file := NoFile;
                   Enhanced.tasks := [("T1", t)] |} in
  let e n := {| Enhanced.height := 24; Enhanced.width := 80;
                Enhanced.key := 32; Enhanced.now := n |} in
  exists s3 t3,
    Enhanced.run self [e "n1"; e "n2"; e "n3"] = Enhanced.Continue s3
    /\ selected s3 = Some ("T1", t3)
    /\ cycled self s3 "T1" t t3 "todo" "n3".
Proof.
  intros t self e.
  destruct (space_cycles_status_and_saves self (e "n1") (e "n2") (e "n3")
              "T1" t eq_refl eq_refl eq_refl (or_introl eq_refl))
    as (s1 & s2 & s3 & t1 & t2 & t3 & _ & _ & R & _ & _ & S & _ & _ & V);
    [vm_compute; discriminate | reflexivity | reflexivity |].
  exists s3, t3. split; [exact R | split; [exact S | exact V]].
Defined.

(** C10.  In the panel browser, a press of the space key on a selected task
    whose status is none of [todo], [in_progress] and [done] ([blocked],
    or any other string) sets that task's status to [in_progress] and its
    [updated] to the time of the press, leaves its other attributes and
    the other tasks alone, and writes the whole collection to the file:
    loaded again, the file gives the collection as it is in memory, with
    the new status and time under the key of the task. *)
Theorem space_on_other_status_goes_to_in_progress :
  forall (self : Enhanced.EnhancedRoadmapTUI) (ev : Enhanced.turn)
         (k : string) (t : Enhanced.EnhancedTask),
  Enhanced.key ev = Enhanced.KEY_SPACE ->
  0 <= Enhanced.selected_index self ->
  selected self = Some (k, t) ->
  ~ In (Enhanced.status t) ["todo"; "in_progress"; "done"] ->
  exists self' t',
    Enhanced.loop_body ev self = Enhanced.Continue self'
    /\ Enhanced.status t' = "in_progress"
    /\ Enhanced.updated t' = Enhanced.now ev
    /\ same_but_status t t'
    /\ In (k, t') (Enhanced.tasks (Enhanced.tool self'))
    /\ map fst (Enhanced.tasks (Enhanced.tool self'))
       = map fst (Enhanced.tasks (Enhanced.tool self))
    /\ (forall r, fst r <> k ->
          (In r (Enhanced.tasks (Enhanced.tool self'))
           <-> In r (Enhanced.tasks (Enhanced.tool self))))
    /\ (forall clock,
          Enhanced.load_tasks clock
            (Enhanced.tasks_file (Enhanced.tool self'))
          = Ok (Enhanced.tasks (Enhanced.tool self')))
    /\ (exists data d,
          Enhanced.tasks_file (Enhanced.tool self') = Json data
          /\ In (k, d) data
          /\ d_status d = Some "in_progress"
          /\ d_updated d = Some (Enhanced.now ev)).
Proof.
  intros self ev k t K Hsel Hk Hst.
  exists (pressed self k "in_progress" (Enhanced.now ev)),
         (Enhanced.touch "in_progress" (Enhanced.now ev) t).
  split.
  - apply (space_step self ev (k, t) "in_progress" K Hsel Hk).
    cbn [snd]. unfold Enhanced.next_status.
    replace (PyList.contains (Enhanced.status t) Enhanced.status_cycle)
      with false; [reflexivity|].
    symmetry. unfold PyList.contains, Enhanced.status_cycle.
    cbn [existsb].
    repeat match goal with
           | |- context [String.eqb ?s (Enhanced.status t)] =>
               destruct (String.eqb_spec s (Enhanced.status t)) as [E|_];
               [exfalso; apply Hst; rewrite <- E; cbn; tauto|]
           end.
    reflexivity.
  - apply (pressed_cycled self _ k t "in_progress" (Enhanced.now ev));
      [now apply selected_in_tasks | reflexivity].
Qed.

Lemma space_on_other_status_goes_to_in_progress_witness :
  let t := {| Enhanced.id := "T1"; Enhanced.title := "A";
              Enhanced.status := "blocked"; Enhanced.priority := "high";
              Enhanced.project := "workspace"; Enhanced.description := "";
              Enhanced.milestone := "M1"; Enhanced.created := "c";
              Enhanced.updated := "u"; Enhanced.details := "";
              Enhanced.links := []; Enhanced.subtasks := [] |} in
  let self := Enhanced.init
                {| Enhanced.tasks_file := NoFile;
                   Enhanced.tasks := [("T1", t)] |} in
  let ev := {| Enhanced.height := 24; Enhanced.width := 80;
               Enhanced.key := 32; Enhanced.now := "n1" |} in
  exists self' t',
    Enhanced.loop_body ev self = Enhanced.Continue self'
    /\ Enhanced.status t' = "in_progress"
    /\ Enhanced.updated t' = "n1"
    /\ In ("T1", t') (Enhanced.tasks (Enhanced.tool self'))
    /\ Enhanced.load_tasks "n2" (Enhanced.tasks_file (Enhanced.tool self'))
       = Ok (Enhanced.tasks (Enhanced.tool self')).
Proof.
  intros t self ev.
  destruct (space_on_other_status_goes_to_in_progress self ev "T1" t eq_refl)
    as (self' & t' & R & S & U & _ & I & _ & _ & L & _).
  - vm_compute. discriminate.
  - reflexivity.
  - cbn. intros [H|[H|[H|[]]]]; discriminate.
  - exists self', t'.
    split; [exact R | split; [exact S | split; [exact U | split; [exact I|]]]].
    apply L.
Defined.

(** ** C4: the milestone listing *)

Section Listing.
Import Modern.

Lemma bucket_add : forall m e g m',
  bucket m' (add_to_bucket m e g)
  = if (m =? m')%string then bucket m' g ++ [e] else bucket m' g.
Proof.
  intros m e g m'. induction g as [|[k es] g IH]; cbn [add_to_bucket bucket].
  - rewrite String.eqb_sym. now destruct (m' =? m)%string.
  - destruct (String.eqb_spec k m) as [->|Hk]; cbn [bucket].
    + destruct (String.eqb_spec m m') as [->|Hm]; reflexivity.
    + destruct (String.eqb_spec k m') as [->|Hk'].
      * destruct (String.eqb_spec m m') as [->|_]; [congruence|reflexivity].
      * exact IH.
Qed.

Lemma keys_add : forall m e g,
  map fst (add_to_bucket m e g)
  = if existsb (String.eqb m) (map fst g) then map fst g
    else map fst g ++ [m].
Proof.
  intros m e g. induction g as [|[k es] g IH];
    cbn [add_to_bucket map fst existsb]; [reflexivity|].
  rewrite (String.eqb_sym m k).
  destruct (k =? m)%string; cbn [map fst orb]; [reflexivity|].
  rewrite IH. now destruct (existsb (String.eqb m) (map fst g)).
Qed.

Lemma existsb_eqb_In : forall m l,
  existsb (String.eqb m) l = true <-> In m l.
Proof.
  intros m l. rewrite existsb_exists. split.
  - intros (x & Hx & E). apply String.eqb_eq in E. now subst.
  - intros H. exists m. split; [exact H | apply String.eqb_refl].
Qed.

Lemma bucket_grouped : forall kvs g m,
  bucket m (grouped g kvs)
  = bucket m g ++ filter (fun kv => (milestone_of kv =? m)%string) kvs.
Proof.
  unfold grouped.
  induction kvs as [|kv kvs IH]; intros g m; cbn [fold_left filter].
  - now rewrite app_nil_r.
  - rewrite IH, bucket_add.
    destruct (milestone_of kv =? m)%string; [|reflexivity].
    now rewrite <- app_assoc.
Qed.

Lemma keys_grouped_nodup : forall kvs g,
  NoDup (map fst g) -> NoDup (map fst (grouped g kvs)).
Proof.
  unfold grouped.
  induction kvs as [|kv kvs IH]; intros g H; cbn [fold_left]; [exact H|].
  apply IH. rewrite keys_add.
  destruct (existsb (String.eqb (milestone_of kv)) (map fst g)) eqn:E;
    [exact H|].
  apply NoDup_app; [exact H | repeat constructor; intros [] | ].
  intros x Hx [<-|[]].
  apply existsb_eqb_In in Hx. congruence.
Qed.

Lemma keys_grouped_in : forall kvs g m,
  In m (map fst (grouped g kvs))
  <-> In m (map fst g) \/ In m (map milestone_of kvs).
Proof.
  unfold grouped.
  induction kvs as [|kv kvs IH]; intros g m; cbn [fold_left map].
  - cbn. tauto.
  - rewrite IH, keys_add.
    destruct (existsb (String.eqb (milestone_of kv)) (map fst g)) eqn:E.
    + apply existsb_eqb_In in E. cbn [In]. split.
      * tauto.
      * intros [H|[<-|H]]; tauto.
    + rewrite in_app_iff. cbn [In]. tauto.
Qed.

Lemma str_ltb_asym : forall a b, str_ltb a b = true -> str_ltb b a = false.
Proof.
  intros a b H. apply str_nltb_le. left. now apply str_ltb_lt.
Qed.

Lemma str_le_trans : forall a b c, str_le a b -> str_le b c -> str_le a c.
Proof.
  unfold str_le. intros a b c [H1| ->] [H2| ->]; auto.
  left. eapply str_lt_trans; eassumption.
Qed.

Lemma str_nltb_trans : forall a b c,
  str_ltb b a = false -> str_ltb c b = false -> str_ltb c a = false.
Proof. intros a b c. rewrite !str_nltb_le. apply str_le_trans. Qed.

Lemma pair_nltb_le : forall a b, pair_ltb b a = false <-> pair_le a b.
Proof.
  intros [p1 i1] [p2 i2]. unfold pair_ltb, pair_le. cbn [fst snd].
  destruct (Z.eqb_spec p2 p1) as [->|Hp].
  - rewrite str_nltb_le. split; [intros H; right; now split|].
    intros [H|[_ H]]; [lia | exact H].
  - rewrite Z.ltb_ge. split; [intros H; left; lia | intros [H|[H _]]; lia].
Qed.

Lemma pair_le_trans : forall a b c, pair_le a b -> pair_le b c -> pair_le a c.
Proof.
  intros [p1 i1] [p2 i2] [p3 i3]. unfold pair_le. cbn [fst snd].
  intros [H1|[-> H1]] [H2|[-> H2]]; try (left; lia).
  right. split; [reflexivity|]. eapply str_le_trans; eassumption.
Qed.

Lemma pair_le_total : forall a b, pair_le a b \/ pair_le b a.
Proof.
  intros [p1 i1] [p2 i2]. unfold pair_le, str_le. cbn [fst snd].
  destruct (Z.lt_trichotomy p1 p2) as [H|[->|H]]; auto.
  destruct (str_trichotomy i1 i2) as [H|[->|H]]; auto.
Qed.

Lemma pair_ltb_asym : forall a b,
  pair_ltb a b = true -> pair_ltb b a = false.
Proof.
  intros a b H. apply pair_nltb_le.
  destruct (pair_le_total a b) as [L|L]; [exact L|].
  apply pair_nltb_le in L. congruence.
Qed.

Lemma pair_nltb_trans : forall a b c,
  pair_ltb b a = false -> pair_ltb c b = false -> pair_ltb c a = false.
Proof. intros a b c. rewrite !pair_nltb_le. apply pair_le_trans. Qed.

Lemma listing_names : forall tasks,
  map fst (listing tasks)
  = PyList.sort (fun m => m) str_ltb (map fst (group_by_milestone tasks)).
Proof.
  intros tasks. unfold listing. rewrite map_map. cbn [fst]. apply map_id.
Qed.

(** X13.  The listing, for every collection: the buckets are the values
    of [task.get('milestone', 'Unassigned')] that occur, each once, in
    ascending order; a bucket holds exactly the tasks with that value,
    ascending in (priority rank, id), where the rank is 0 for [critical],
    1 for [high], 2 for [medium], 3 for [low] and for a task without
    priority, and 4 for every other priority, which so comes after the
    low ones. *)
Theorem listing_buckets_and_cards : forall tasks : document,
  StronglySorted str_le (map fst (listing tasks))
  /\ NoDup (map fst (listing tasks))
  /\ (forall m, In m (map fst (listing tasks))
                <-> In m (map milestone_of tasks))
  /\ (forall m cards,
        In (m, cards) (listing tasks) ->
        Permutation cards
          (filter (fun kv => (milestone_of kv =? m)%string) tasks)
        /\ StronglySorted
             (fun a b => pair_le (card_key a) (card_key b)) cards)
  /\ (forall kv,
        card_key kv
        = (Modern.priority_order (get_or (d_priority (snd kv)) "low"),
           fst kv))
  /\ Modern.priority_order "critical" = 0
  /\ Modern.priority_order "high" = 1
  /\ Modern.priority_order "medium" = 2
  /\ Modern.priority_order "low" = 3
  /\ (forall p, ~ In p ["critical"; "high"; "medium"; "low"] ->
        Modern.priority_order p = 4).
Proof.
  intros tasks.
  assert (Hperm : Permutation (map fst (listing tasks))
                    (map fst (group_by_milestone tasks))).
  { rewrite listing_names. apply sort_perm. }
  split; [|split; [|split; [|split; [|repeat (split; [reflexivity|])]]]].
  5: { intros p Hp. unfold Modern.priority_order.
       repeat match goal with
              | |- context [String.eqb p ?s] =>
                  destruct (String.eqb_spec p s) as [->|_];
                  [exfalso; apply Hp; cbn; tauto|]
              end.
       reflexivity. }
  - rewrite listing_names.
    eapply StronglySorted_ind with (P := StronglySorted str_le);
      [constructor | | apply (sort_sorted (fun m => m) str_ltb
                                str_ltb_asym str_nltb_trans)].
    intros a l _ IH Ha. constructor; [exact IH|].
    eapply Forall_impl; [|exact Ha]. intros b Hb. now apply str_nltb_le.
  - eapply Permutation_NoDup; [symmetry; exact Hperm|].
    apply (keys_grouped_nodup tasks []). constructor.
  - intros m. split.
    + intros H. apply (Permutation_in _ Hperm) in H.
      apply (keys_grouped_in tasks [] m) in H. destruct H as [[]|H]. exact H.
    + intros H. apply (Permutation_in _ (Permutation_sym Hperm)).
      apply (keys_grouped_in tasks [] m). now right.
  - intros m cards Hin. unfold listing in Hin.
    apply in_map_iff in Hin. destruct Hin as (m' & E & _).
    injection E as <- <-.
    change (group_by_milestone tasks) with (grouped [] tasks).
    rewrite bucket_grouped. cbn [bucket app]. split; [apply sort_perm|].
    eapply StronglySorted_ind with
      (P := StronglySorted (fun a b => pair_le (card_key a) (card_key b)));
      [constructor | | apply (sort_sorted card_key pair_ltb
                                pair_ltb_asym pair_nltb_trans)].
    intros a l _ IH Ha. constructor; [exact IH|].
    eapply Forall_impl; [|exact Ha]. intros b Hb. now apply pair_nltb_le.
Qed.

End Listing.

(** C4.  The listing does not put every task without a milestone into one
    bucket.  A task whose [milestone] is the empty string and a task with
    no [milestone] key land in two buckets, the first under the empty
    heading, the second under [Unassigned]: only the absent key gets the
    default of [task.get('milestone', 'Unassigned')]. *)
Theorem listing_splits_tasks_without_milestone :
  let t1 := {| d_id := Some "T1"; d_title := Some "A";
               d_status := Some "todo"; d_priority := Some "high";
               d_project := None; d_description := None;
               d_milestone := Some ""; d_created := None; d_updated := None;
               d_details := None; d_links := None; d_subtasks := None |} in
  let t2 := {| d_id := Some "T2"; d_title := Some "B";
               d_status := Some "todo"; d_priority := Some "high";
               d_project := None; d_description := None;
               d_milestone := None; d_created := None; d_updated := None;
               d_details := None; d_links := None; d_subtasks := None |} in
  let self := {| Modern.env := {| Modern.path_str := fun p => p;
                                  Modern.file_at := fun _ => Modern.Absent;
                                  Modern.re_search :=
                                    fun _ _ => Modern.NotFound;
                                  Modern.columns := Some 80 |};
                 Modern.tasks := [("T1", t1); ("T2", t2)] |} in
  Modern.listing (Modern.tasks self)
  = [("", [("T1", t1)]); ("Unassigned", [("T2", t2)])]
  /\ Modern.list_tasks_by_milestone self true
       {| Modern.stdin := []; Modern.stdout := [] |}
     = Modern.Done (Some [("1", "T1"); ("2", "T2")])
         {| Modern.stdin := [];
            Modern.stdout :=
              [Modern.Line "Milestone "; Modern.Rule;
               Modern.Line "[1]"; Modern.Card "T1" t1 false; Modern.Line "";
               Modern.Line "Milestone Unassigned"; Modern.Rule;
               Modern.Line "[2]"; Modern.Card "T2" t2 false;
               Modern.Line ""] |}.
Proof.
  intros t1 t2 self. split; vm_compute; reflexivity.
Qed.

(** ** The console *)

Section Console.
Import Modern.

Lemma put_nil : forall c, put c [] = c.
Proof. intros [i o]. unfold put. cbn. now rewrite app_nil_r. Qed.

Lemma put_put : forall c e1 e2, put (put c e1) e2 = put c (e1 ++ e2).
Proof. intros c e1 e2. unfold put. cbn. now rewrite app_assoc. Qed.

Lemma writes_ret : forall (A : Type) (a : A), writes (ret a) a [].
Proof. intros A a c. unfold ret. now rewrite put_nil. Qed.

Lemma writes_emit : forall e, writes (emit e) tt [e].
Proof. intros e c. reflexivity. Qed.

Lemma writes_print : forall text, writes (print text) tt [Line text].
Proof. intros text c. reflexivity. Qed.

Lemma writes_seq : forall (A B : Type) (m : io A) (k : A -> io B) a b e1 e2,
  writes m a e1 -> writes (k a) b e2 -> writes (seq m k) b (e1 ++ e2).
Proof.
  intros A B m k a b e1 e2 Hm Hk c. unfold seq.
  now rewrite Hm, Hk, put_put.
Qed.

Lemma writes_for_each : forall (A : Type) (body : A -> io unit) l,
  (forall x, exists evs, writes (body x) tt evs) ->
  exists evs, writes (for_each l body) tt evs.
Proof.
  intros A body l H. induction l as [|x l [evs IH]]; cbn [for_each].
  - exists []. apply writes_ret.
  - destruct (H x) as [e1 H1]. exists (e1 ++ evs).
    eapply writes_seq; eassumption.
Qed.

(** A routine that writes first continues on the console it has written. *)
Lemma seq_writes : forall (A B : Type) (m : io A) (k : A -> io B) a evs c,
  writes m a evs -> seq m k c = k a (put c evs).
Proof. intros A B m k a evs c H. unfold seq. now rewrite H. Qed.

Lemma seq_input : forall (B : Type) prompt (k : string -> io B) c l rest,
  stdin c = l :: rest ->
  seq (input prompt) k c
  = k l {| stdin := rest; stdout := stdout c ++ [Prompt prompt] |}.
Proof.
  intros B prompt k c l rest H. unfold seq, input. now rewrite H.
Qed.

Lemma seq_assoc : forall (A B C : Type) (m : io A) (k : A -> io B)
  (h : B -> io C) c,
  seq (seq m k) h c = seq m (fun a => seq (k a) h) c.
Proof.
  intros A B C m k h c. unfold seq. destruct (m c); reflexivity.
Qed.

(** On a terminal the header and the cards are printed. *)
Lemma print_header_writes : forall self,
  terminal self -> writes (print_header self) tt [Header].
Proof.
  intros self (cols & E & _) c. unfold print_header. now rewrite E.
Qed.

Lemma card_fits_terminal : forall cols task detailed,
  9 <= cols -> card_fits (Z.min 100 (cols - 4)) task detailed = true.
Proof.
  intros cols task detailed H. unfold card_fits.
  apply andb_true_iff. split; [apply Z.leb_le; lia|].
  apply orb_true_iff. right. apply Z.leb_le. lia.
Qed.

Lemma print_task_card_writes : forall self task_id task detailed,
  terminal self ->
  writes (print_task_card self task_id task detailed) tt
         [Card task_id task detailed].
Proof.
  intros self task_id task detailed (cols & E & H) c.
  unfold print_task_card. rewrite E, card_fits_terminal by exact H.
  reflexivity.
Qed.

Lemma terminal_80 : forall self,
  columns (env self) = Some 80 -> terminal self.
Proof. intros self E. exists 80. split; [exact E | lia]. Qed.

(** Without a terminal neither is. *)
Lemma print_header_piped : forall self c,
  columns (env self) = None -> print_header self c = Fails OSError c.
Proof. intros self c E. unfold print_header. now rewrite E. Qed.

Lemma print_task_card_piped : forall self task_id task detailed c,
  columns (env self) = None ->
  print_task_card self task_id task detailed c = Fails OSError c.
Proof.
  intros self task_id task detailed c E. unfold print_task_card.
  now rewrite E.
Qed.

End Console.

(** ** The detail view *)

Section DetailView.
Import Modern.

Lemma show_prd_contents_writes : forall prd_contents,
  writes (show_prd_contents prd_contents) tt (prd_events prd_contents).
Proof.
  unfold show_prd_contents.
  induction prd_contents as [|entry l IH]; cbn [for_each prd_events flat_map].
  - apply writes_ret.
  - eapply writes_seq; [|exact IH].
    destruct (snd entry =? "")%string; [apply writes_ret|].
    repeat (eapply (writes_seq _ _ _ _ _ _ [_]);
            [first [apply writes_print | apply writes_emit]|]).
    apply writes_emit.
Qed.

Lemma show_notes_writes : forall task,
  exists evs, writes (show_notes task) tt evs.
Proof.
  intros task. unfold show_notes.
  destruct (d_details task) as [details|]; [|eexists; apply writes_ret].
  destruct (100 <? len details); [|eexists; apply writes_ret].
  eexists.
  repeat (eapply writes_seq;
          [first [apply writes_print | apply writes_emit]|]).
  apply writes_emit.
Qed.

Lemma show_subtasks_writes : forall self task,
  exists evs, writes (show_subtasks self task) tt evs.
Proof.
  intros self task. unfold show_subtasks.
  destruct (d_subtasks task) as [[|first others]|];
    try (eexists; apply writes_ret).
  destruct (writes_for_each _
              (fun subtask_id =>
                 match lookup subtask_id (tasks self) with
                 | Some subtask =>
                     print (subtask_id ++ ": "
                            ++ get_or (d_title subtask) "Untitled")
                 | None => ret tt
                 end) (first :: others)) as [evs Hevs].
  { intros x. destruct (lookup x (tasks self)); eexists;
      [apply writes_print | apply writes_ret]. }
  eexists.
  eapply writes_seq; [apply writes_print|].
  eapply writes_seq; [apply writes_emit|]. exact Hevs.
Qed.




(** The detail view ends with the exception that ends the loop over the
    links, after the card. *)
Lemma show_task_detail_aborts : forall self task_id task e wait c,
  terminal self ->
  lookup task_id (tasks self) = Some task ->
  collect_prd_contents self task_id (links_of task) = Raise e ->
  show_task_detail self task_id wait c
  = Fails e
      (put c [Clear; Header; Line "Task Details"; Card task_id task true]).
Proof.
  intros self task_id task e wait c T Hl Hc.
  unfold show_task_detail. rewrite Hl.
  rewrite (seq_writes _ _ _ _ _ _ _ (writes_emit Clear)).
  rewrite (seq_writes _ _ _ _ _ _ _ (print_header_writes _ T)).
  rewrite (seq_writes _ _ _ _ _ _ _ (writes_print "Task Details")).
  rewrite (seq_writes _ _ _ _ _ _ _ (print_task_card_writes _ _ _ _ T)).
  unfold links_of in Hc. rewrite Hc.
  rewrite !put_put. reflexivity.
Qed.



End DetailView.

(** ** C1: enrichment from the linked documents *)

Section Enrichment.
Import Modern.




(** A document that can be examined gives a text. *)
Lemma load_prd_content_examinable : forall self link task_id,
  examinable self link = true ->
  load_prd_content self (url link) task_id
  = Ok (content_of self (url link) task_id).
Proof.
  intros self link task_id H. unfold content_of.
  destruct (load_prd_content self (url link) task_id) as [content|e] eqn:E;
    [reflexivity|].
  exfalso. unfold load_prd_content, examinable in *.
  destruct (file_at (env self) (prd_path self (url link)));
    [discriminate H | discriminate E | discriminate E |].
  destruct (scan_lines _ _ _ _) as [r|[|l ls]]; discriminate E.
Qed.

Lemma load_prd_content_inaccessible : forall self link task_id,
  examinable self link = false ->
  load_prd_content self (url link) task_id = Raise OSError.
Proof.
  intros self link task_id H. unfold load_prd_content, examinable in *.
  destruct (file_at (env self) (prd_path self (url link)));
    [reflexivity | discriminate H | discriminate H | discriminate H].
Qed.



Lemma fold_next_link_raise : forall self task_id links e,
  fold_left (next_link self task_id) links (Raise e) = Raise e.
Proof.
  intros self task_id links e. induction links as [|l links IH];
    cbn [fold_left]; [reflexivity | exact IH].
Qed.










End Enrichment.




(** The message for a document that is not there is meant to be dropped,
    but it is compared with the url of the link and built from the
    resolved path: for a relative url the two differ, and the message is
    shown. *)
Lemma missing_document_message_is_shown :
  Modern.show_task_detail (viewer_with Modern.Absent)
    "T1" false {| Modern.stdin := []; Modern.stdout := [] |}
  = Modern.Done tt
      {| Modern.stdin := [];
         Modern.stdout :=
           [Modern.Clear; Modern.Header; Modern.Line "Task Details";
            Modern.Card "T1" linked_task true;
            Modern.Line "Implementation Details from Technical PRD";
            Modern.Rule;
            Modern.Content "PRD file not found: /ws/prds/t.md";
            Modern.Rule] |}.
Proof. reflexivity. Qed.

(** The existence of a linked document is checked outside the [try]: when
    the check itself raises, nothing catches the [OSError], and the
    detail view ends after the card. *)
Lemma inaccessible_document_aborts_view :
  Modern.show_task_detail (viewer_with Modern.Inaccessible)
    "T1" true {| Modern.stdin := [""]; Modern.stdout := [] |}
  = Modern.Fails OSError
      {| Modern.stdin := [""];
         Modern.stdout :=
           [Modern.Clear; Modern.Header; Modern.Line "Task Details";
            Modern.Card "T1" linked_task true] |}.
Proof. reflexivity. Qed.

(** ** C7: the [--task] flag *)

(** [str.upper()] on the characters of the model: the sharp s gives two
    letters, and the capital of the y with diaeresis is beyond 255. *)
Example upper_sharp_s :
  PyStr.upper ("stra" ++ String (ascii_of_N 223) "e")%string
  = Some "STRASSE"
  /\ PyStr.upper (String (ascii_of_N 233) "t")
     = Some (String (ascii_of_N 201) "T")
  /\ PyStr.upper (String (ascii_of_N 255) "") = None
  /\ PyStr.upper_points (String (ascii_of_N 255) "") = [376%N]
  /\ PyStr.upper (String (ascii_of_N 181) "") = None
  /\ PyStr.upper_points (String (ascii_of_N 181) "") = [924%N].
Proof. repeat split; reflexivity. Qed.






(** With the standard output sent to a pipe, [print_header] raises in the
    detail view: nothing of the task is printed. *)
Lemma task_flag_without_terminal :
  Modern.main (task_flag "T1") piped_outside
    (Json [("T1", sample_task "T1")])
    {| Modern.stdin := [""]; Modern.stdout := [] |}
  = Modern.Fails OSError
      {| Modern.stdin := [""]; Modern.stdout := [Modern.Clear] |}.
Proof. reflexivity. Qed.

(** ** The menu loop ends *)

Section MenuLoop.
Import Modern.

Lemma writes_tame : forall (A : Type) (m : io A) a evs,
  writes m a evs -> tame m.
Proof. intros A m a evs H c. rewrite H. cbn. lia. Qed.

Lemma tame_ret : forall (A : Type) (a : A), tame (ret a).
Proof. intros A a c. cbn. lia. Qed.

Lemma tame_raise : forall (A : Type) e, tame (@raise A e).
Proof. intros A e c. exact I. Qed.

Lemma tame_emit : forall e, tame (emit e).
Proof. intros e. eapply writes_tame, writes_emit. Qed.

Lemma tame_print : forall text, tame (print text).
Proof. intros text. eapply writes_tame, writes_print. Qed.

Lemma reads_input : forall prompt, reads (input prompt).
Proof.
  intros prompt c. unfold input. destruct (stdin c); cbn; [exact I | lia].
Qed.

Lemma reads_tame : forall (A : Type) (m : io A), reads m -> tame m.
Proof.
  intros A m H c. specialize (H c). destruct (m c); [lia | exact I | exact H].
Qed.

Lemma tame_seq : forall (A B : Type) (m : io A) (k : A -> io B),
  tame m -> (forall a, tame (k a)) -> tame (seq m k).
Proof.
  intros A B m k Hm Hk c. unfold seq. specialize (Hm c).
  destruct (m c) as [a c'| |]; [|exact I|exact Hm].
  specialize (Hk a c'). destruct (k a c'); [lia | exact I | exact Hk].
Qed.

Lemma reads_seq_l : forall (A B : Type) (m : io A) (k : A -> io B),
  reads m -> (forall a, tame (k a)) -> reads (seq m k).
Proof.
  intros A B m k Hm Hk c. unfold seq. specialize (Hm c).
  destruct (m c) as [a c'| |]; [|exact I|exact Hm].
  specialize (Hk a c'). destruct (k a c'); [lia | exact I | exact Hk].
Qed.

Lemma reads_seq_r : forall (A B : Type) (m : io A) (k : A -> io B),
  tame m -> (forall a, reads (k a)) -> reads (seq m k).
Proof.
  intros A B m k Hm Hk c. unfold seq. specialize (Hm c).
  destruct (m c) as [a c'| |]; [|exact I|exact Hm].
  specialize (Hk a c'). destruct (k a c'); [lia | exact I | exact Hk].
Qed.

Lemma tame_for_each : forall (A : Type) (body : A -> io unit) l,
  (forall x, tame (body x)) -> tame (for_each l body).
Proof.
  intros A body l H. induction l as [|x l IH]; cbn [for_each].
  - apply tame_ret.
  - apply tame_seq; [apply H | intros _; exact IH].
Qed.

Lemma tame_pause : forall prompt, tame (pause prompt).
Proof.
  intros prompt. unfold pause. apply reads_tame, reads_seq_l.
  - apply reads_input.
  - intros a. apply tame_ret.
Qed.

Lemma tame_print_header : forall self, tame (print_header self).
Proof.
  intros self. unfold print_header.
  destruct (columns (env self)); [apply tame_emit | apply tame_raise].
Qed.

Lemma tame_print_task_card : forall self task_id task detailed,
  tame (print_task_card self task_id task detailed).
Proof.
  intros self task_id task detailed. unfold print_task_card.
  destruct (columns (env self)); [|apply tame_raise].
  destruct (card_fits _ _ _); [apply tame_emit|].
  apply tame_seq; [apply tame_emit | intros _; apply tame_raise].
Qed.

(** Routines put together from tame parts are tame. *)
Ltac solve_tame :=
  solve
    [ repeat first
        [ apply tame_ret | apply tame_raise | apply tame_emit
        | apply tame_print | apply tame_pause
        | apply tame_print_header | apply tame_print_task_card
        | apply reads_tame, reads_input
        | apply tame_seq; [|intros ?]
        | apply tame_for_each; intros ?
        | match goal with
          | |- tame (if ?b then _ else _) => destruct b
          | |- tame (match ?x with _ => _ end) => destruct x
          end ] ].

(** The leading parts of a sequence, as long as they are tame. *)
Ltac tame_lead := repeat (apply tame_seq; [solve_tame | intros ?]).

Lemma tame_show_task_detail : forall self task_id wait,
  tame (show_task_detail self task_id wait).
Proof.
  intros self task_id wait. unfold show_task_detail.
  destruct (lookup task_id (tasks self)) as [task|]; [|apply tame_print].
  destruct (show_notes_writes task) as [e2 H2].
  destruct (show_subtasks_writes self task) as [e3 H3].
  tame_lead.
  destruct (collect_prd_contents _ _ _); [|apply tame_raise].
  repeat (apply tame_seq;
          [first [ solve_tame
                 | eapply writes_tame;
                   first [apply show_prd_contents_writes | exact H2 | exact H3] ]
          | intros ?]).
  solve_tame.
Qed.

Lemma tame_show_upper : forall self typed wait,
  tame (show_upper self typed wait).
Proof.
  intros self typed wait. unfold show_upper.
  destruct (upper typed); [apply tame_show_task_detail | apply tame_emit].
Qed.

Lemma tame_print_bucket : forall self interactive cards st,
  tame (print_bucket self interactive cards st).
Proof.
  intros self interactive cards. induction cards as [|[task_id task] rest IH];
    intros st; cbn [print_bucket]; [apply tame_ret|].
  tame_lead. apply IH.
Qed.

Lemma tame_print_buckets : forall self interactive buckets st,
  tame (print_buckets self interactive buckets st).
Proof.
  intros self interactive buckets. induction buckets as [|[m cards] rest IH];
    intros st; cbn [print_buckets]; [apply tame_ret|].
  tame_lead.
  apply tame_seq; [apply tame_print_bucket|]. intros st'. apply IH.
Qed.

Lemma tame_list_tasks_by_milestone : forall self interactive,
  tame (list_tasks_by_milestone self interactive).
Proof.
  intros self interactive. unfold list_tasks_by_milestone.
  apply tame_seq; [apply tame_print_buckets | intros st; apply tame_ret].
Qed.

Lemma tame_list_and_select : forall self hint wait,
  tame (list_and_select self hint wait).
Proof.
  intros self hint wait. unfold list_and_select.
  tame_lead.
  apply tame_seq; [apply tame_list_tasks_by_milestone|]. intros task_map.
  tame_lead.
  destruct (_ =? "")%string; [apply tame_ret|].
  destruct (map_get _ _); [apply tame_show_task_detail|].
  solve_tame.
Qed.

Lemma tame_print_selection : forall self selection none,
  tame (print_selection self selection none).
Proof. intros self selection none. unfold print_selection. solve_tame. Qed.

Lemma tame_valid_choice : forall choice n, tame (valid_choice choice n).
Proof. intros choice n. unfold valid_choice. solve_tame. Qed.

Lemma tame_filter_menu :
  forall self heading labels values field prompt what none,
  tame (filter_menu self heading labels values field prompt what none).
Proof.
  intros. unfold filter_menu.
  tame_lead.
  apply tame_seq; [apply tame_valid_choice|]. intros ok.
  destruct ok; [|apply tame_ret].
  destruct (int _); [|apply tame_raise].
  destruct (PyList.getitem _ _); [|apply tame_raise].
  tame_lead. solve_tame.
Qed.

Lemma tame_search_tasks : forall self, tame (search_tasks self).
Proof.
  intros self. unfold search_tasks.
  tame_lead.
  destruct (_ =? "")%string; [apply tame_ret|].
  tame_lead. solve_tame.
Qed.

Lemma tame_dispatch : forall self choice, tame (dispatch self choice).
Proof.
  intros self choice. unfold dispatch, filter_by_status, filter_by_priority.
  repeat match goal with
         | |- tame (if ?b then _ else _) => destruct b
         end;
    repeat first
      [ apply tame_ret | apply tame_print | apply tame_pause
      | apply tame_list_and_select | apply tame_show_upper
      | apply tame_filter_menu | apply tame_search_tasks
      | apply reads_tame, reads_input
      | apply tame_seq; [|intros ?] ].
Qed.

Lemma tame_print_menu : forall self, tame (print_menu self).
Proof. intros self. unfold print_menu. solve_tame. Qed.

(** Every turn of the menu reads its choice. *)
Lemma reads_menu_turn : forall self, reads (menu_turn self).
Proof.
  intros self. unfold menu_turn.
  apply reads_seq_r; [apply tame_print_menu|]. intros _.
  apply reads_seq_l; [apply reads_input|]. intros raw. apply tame_dispatch.
Qed.


(** The menu never runs out of fuel: it returns or raises. *)
Lemma interactive_menu_total : forall self c,
  interactive_menu self c <> OutOfFuel.
Proof.
  intros self c. unfold interactive_menu.
  assert (H : forall n c0, (List.length (stdin c0) < n)%nat ->
                           menu_loop n self c0 <> OutOfFuel).
  { induction n as [|n IH]; intros c0 Hlen; [lia|].
    cbn [menu_loop]. unfold seq.
    pose proof (reads_menu_turn self c0) as Hr.
    destruct (menu_turn self c0) as [again c'| |];
      [|discriminate|contradiction].
    destruct again; [apply IH; lia | discriminate]. }
  apply H. lia.
Qed.


End MenuLoop.

(** ** C8: input that selects nothing *)

Section Menu.
Import Modern.

Lemma print_menu_writes : forall self,
  terminal self -> writes (print_menu self) tt menu_screen.
Proof.
  intros self T c. unfold print_menu, menu_screen. cbn [for_each].
  rewrite (seq_writes _ _ _ _ _ _ _ (writes_emit Clear)).
  rewrite (seq_writes _ _ _ _ _ _ _ (print_header_writes _ T)).
  unfold seq, print, emit, ret, put. cbn [stdin stdout].
  f_equal. f_equal. now rewrite <- !app_assoc.
Qed.







End Menu.

Section MenuCases.
Import Modern.








End MenuCases.




(** A choice of superscript digits passes [isdigit()] and is refused by
    [int()]: the filter menu raises [ValueError], which nothing catches. *)
Lemma superscript_choice_raises :
  Modern.interactive_menu one_task_viewer
    {| Modern.stdin := ["3"; String (ascii_of_N 178) ""; "q"];
       Modern.stdout := [] |}
  = Modern.Fails ValueError
      {| Modern.stdin := ["q"];
         Modern.stdout :=
           menu_screen
           ++ [Modern.Prompt "Select option: "; Modern.Clear; Modern.Header;
               Modern.Line "Filter by Status"; Modern.Line "[1] Todo";
               Modern.Line "[2] In Progress"; Modern.Line "[3] Done";
               Modern.Line "[4] Blocked"; Modern.Prompt "Select status: "] |}.
Proof. vm_compute. reflexivity. Qed.

(* ================================================================== *)
(** * Part IV: more of the two programs                                *)
(* ================================================================== *)

(** ** The store of the panel browser *)

(** X1.  What [save_tasks] writes, [load_tasks] reads back: loading the
    file that a save has left gives the collection that was saved, key by
    key and field by field, and the save leaves the collection in memory
    as it was.  ([Task.to_dict] is taken to write every field of the data
    model.) *)
Theorem load_after_save_gives_the_tasks :
  forall (now : string) (tool : Enhanced.EnhancedRoadmapTool),
  Enhanced.load_tasks now (Enhanced.tasks_file (Enhanced.save_tasks tool))
  = Ok (Enhanced.tasks tool)
  /\ Enhanced.tasks (Enhanced.save_tasks tool) = Enhanced.tasks tool.
Proof.
  intros now tool. split; [|reflexivity].
  cbn [Enhanced.save_tasks Enhanced.tasks_file Enhanced.load_tasks].
  unfold Enhanced.dump.
  induction (Enhanced.tasks tool) as [|[k t] ts IH]; cbn [map map_result];
    [reflexivity|].
  cbn [fst snd]. rewrite from_dict_to_dict. cbn [bind].
  rewrite IH. reflexivity.
Qed.

Lemma map_result_app_raise :
  forall (A B : Type) (f : A -> result B) l1 x l2 ys e,
  map_result f l1 = Ok ys -> f x = Raise e ->
  map_result f (l1 ++ x :: l2) = Raise e.
Proof.
  intros A B f l1 x l2. induction l1 as [|a l1 IH]; intros ys e H1 Hx.
  - cbn [app map_result]. rewrite Hx. reflexivity.
  - cbn [app map_result] in *. destruct (f a) as [b|e']; cbn [bind] in *;
      [|discriminate].
    destruct (map_result f l1) as [bs|e'] eqn:E; cbn [bind] in *;
      [|discriminate].
    now rewrite (IH bs e eq_refl Hx).
Qed.

(** X2.  The panel browser does not load a store in which a task object
    has no [id]: when the objects before it load, [load_tasks] raises
    [KeyError('id')], whatever the key of the object and whatever comes
    after it.  The report viewer loads the same file as it is. *)
Theorem load_tasks_needs_every_id :
  forall (now : string) (before after : document) (k : string)
         (data : TaskDict) (loaded : list Enhanced.task_ref),
  Enhanced.load_tasks now (Json before) = Ok loaded ->
  d_id data = None ->
  Enhanced.load_tasks now (Json (before ++ (k, data) :: after))
  = Raise (KeyError "id")
  /\ Modern.load_tasks (Json (before ++ (k, data) :: after))
     = Ok (before ++ (k, data) :: after).
Proof.
  intros now before after k data loaded H Hid. split; [|reflexivity].
  cbn [Enhanced.load_tasks] in *.
  eapply map_result_app_raise; [exact H|].
  cbn [snd]. unfold Enhanced.from_dict. now rewrite Hid.
Qed.

Lemma load_tasks_needs_every_id_witness :
  Enhanced.load_tasks "now"
    (Json [("T1", sample_task "T1"); ("T2", task_without_id)])
  = Raise (KeyError "id").
Proof.
  exact (proj1 (load_tasks_needs_every_id "now" [("T1", sample_task "T1")] []
                  "T2" task_without_id _ eq_refl eq_refl)).
Defined.

(** ** The key loop *)

Lemma next_status_total : forall s, exists s', Enhanced.next_status s = Ok s'.
Proof.
  intros s. unfold Enhanced.next_status, PyList.contains, Enhanced.status_cycle.
  cbn [existsb PyList.index].
  destruct ("todo" =? s)%string; [eexists; reflexivity|].
  destruct ("in_progress" =? s)%string; [eexists; reflexivity|].
  destruct ("done" =? s)%string; [eexists; reflexivity|].
  eexists; reflexivity.
Qed.

Lemma getitem_in_range : forall (A : Type) (l : list A) i,
  0 <= i < Z.of_nat (List.length l) ->
  exists x, PyList.getitem l i = Some x.
Proof.
  intros A l i H. unfold PyList.getitem.
  replace ((0 <=? i) && (i <? Z.of_nat (List.length l))) with true
    by (symmetry; apply andb_true_iff; split;
        [apply Z.leb_le | apply Z.ltb_lt]; lia).
  destruct (nth_error l (Z.to_nat i)) as [x|] eqn:E; [now exists x|].
  apply nth_error_None in E. lia.
Qed.

(** The cases of [loop_body], from an equation on its result. *)
Ltac loop_cases H :=
  unfold Enhanced.loop_body in H;
  repeat match type of H with
         | context [if ?b then _ else _] => destruct b eqn:?
         | context [match PyList.getitem ?l ?i with _ => _ end] =>
             destruct (PyList.getitem l i) eqn:?
         | context [match Enhanced.next_status ?s with _ => _ end] =>
             destruct (Enhanced.next_status s) eqn:?
         end;
  try discriminate H.

(** The comparisons among the hypotheses, as propositions. *)
Ltac bools :=
  repeat match goal with
         | H : (_ && _) = true |- _ => apply andb_true_iff in H; destruct H
         | H : negb _ = true |- _ => apply negb_true_iff in H
         | H : (_ <? _) = true |- _ => apply Z.ltb_lt in H
         | H : (_ <? _) = false |- _ => apply Z.ltb_ge in H
         | H : (_ <=? _) = true |- _ => apply Z.leb_le in H
         | H : (_ <=? _) = false |- _ => apply Z.leb_gt in H
         | H : (_ =? _) = true |- _ => apply Z.eqb_eq in H
         | H : (_ =? _) = false |- _ => apply Z.eqb_neq in H
         end.

Lemma loop_body_nonneg : forall ev self self',
  0 <= Enhanced.selected_index self ->
  Enhanced.loop_body ev self = Enhanced.Continue self' ->
  0 <= Enhanced.selected_index self'.
Proof.
  intros ev self self' Hs H. loop_cases H; injection H as <-; bools; cbn; lia.
Qed.

Lemma loop_body_no_raise : forall ev self e,
  0 <= Enhanced.selected_index self ->
  Enhanced.loop_body ev self <> Enhanced.Raised e.
Proof.
  intros ev self e Hs H. loop_cases H.
  - match goal with
    | E : Enhanced.next_status ?s = Raise _ |- _ =>
        destruct (next_status_total s) as [s' E']; congruence
    end.
  - bools.
    destruct (getitem_in_range _ (Enhanced.get_filtered_tasks self)
                (Enhanced.selected_index self)) as [x E]; [lia|].
    congruence.
Qed.

Lemma loop_body_break_iff : forall ev self,
  Enhanced.loop_body ev self = Enhanced.Break
  <-> Enhanced.key ev = Enhanced.KEY_Q.
Proof.
  intros ev self. split.
  - intros H. loop_cases H. bools. assumption.
  - intros H. unfold Enhanced.loop_body. rewrite H. reflexivity.
Qed.

(** What every turn keeps, the loop keeps. *)
Lemma run_continue_ind : forall (P : Enhanced.EnhancedRoadmapTUI -> Prop),
  (forall ev self self', P self ->
     Enhanced.loop_body ev self = Enhanced.Continue self' -> P self') ->
  forall turns self self',
    P self -> Enhanced.run self turns = Enhanced.Continue self' -> P self'.
Proof.
  intros P Hstep. induction turns as [|ev turns IH]; intros self self' HP H;
    cbn [Enhanced.run] in H.
  - injection H as <-. exact HP.
  - destruct (Enhanced.loop_body ev self) as [s1| |e] eqn:E; try discriminate.
    eapply IH; [|exact H]. eapply Hstep; eassumption.
Qed.

(** X3.  The dispatch of the keys raises nothing: from a state whose
    selection is not negative (the browser starts at 0), for no sequence
    of keys, terminal sizes and times does [tasks[self.selected_index]]
    or [status_cycle[current_idx + 1]] raise: the space key finds its
    task, and a next status for every status.  (The drawing and the
    writing of the file are taken to succeed.) *)
Theorem run_never_raises :
  forall (self : Enhanced.EnhancedRoadmapTUI) (turns : list Enhanced.turn)
         (e : exn),
  0 <= Enhanced.selected_index self ->
  Enhanced.run self turns <> Enhanced.Raised e.
Proof.
  intros self turns e. revert self.
  induction turns as [|ev turns IH]; intros self Hs; cbn [Enhanced.run];
    [discriminate|].
  destruct (Enhanced.loop_body ev self) as [s1| |e'] eqn:E.
  - apply IH. eapply loop_body_nonneg; eassumption.
  - discriminate.
  - exfalso. eapply loop_body_no_raise; eassumption.
Qed.

Lemma run_never_raises_witness :
  0 <= Enhanced.selected_index (Enhanced.init sample_store)
  /\ Enhanced.run (Enhanced.init sample_store)
       [press 24 32; press 24 258; press 24 32; press 24 259; press 24 32]
     <> Enhanced.Raised IndexError.
Proof.
  split; [cbn; lia|].
  apply (run_never_raises (Enhanced.init sample_store)). cbn. lia.
Defined.

(** X4.  The loop ends at [q] and at nothing else: [run] breaks exactly
    when one of the keys is [q], and waits for the next key exactly when
    none is. *)
Theorem run_ends_at_first_q :
  forall (self : Enhanced.EnhancedRoadmapTUI) (turns : list Enhanced.turn),
  0 <= Enhanced.selected_index self ->
  (Enhanced.run self turns = Enhanced.Break
   <-> exists ev, In ev turns /\ Enhanced.key ev = Enhanced.KEY_Q)
  /\ ((exists self', Enhanced.run self turns = Enhanced.Continue self')
      <-> forall ev, In ev turns -> Enhanced.key ev <> Enhanced.KEY_Q).
Proof.
  intros self turns. revert self.
  induction turns as [|ev turns IH]; intros self Hs; cbn [Enhanced.run].
  - split; split.
    + discriminate.
    + intros (ev & [] & _).
    + intros _ ev [].
    + intros _. now eexists.
  - pose proof (loop_body_break_iff ev self) as Hq.
    destruct (Enhanced.loop_body ev self) as [s1| |e'] eqn:E.
    + assert (Hk : Enhanced.key ev <> Enhanced.KEY_Q).
      { intros K. apply Hq in K. discriminate. }
      destruct (IH s1 (loop_body_nonneg _ _ _ Hs E)) as [IH1 IH2].
      split.
      * rewrite IH1. split.
        -- intros (x & Hx & K). exists x. split; [now right | exact K].
        -- intros (x & [<-|Hx] & K); [contradiction|]. now exists x.
      * rewrite IH2. split.
        -- intros H x [<-|Hx]; [exact Hk | now apply H].
        -- intros H x Hx. apply H. now right.
    + assert (K : Enhanced.key ev = Enhanced.KEY_Q) by now apply Hq.
      split; split.
      * intros _. exists ev. split; [now left | exact K].
      * reflexivity.
      * intros [s H]. discriminate.
      * intros H. exfalso. apply (H ev); [now left | exact K].
    + exfalso. eapply loop_body_no_raise; eassumption.
Qed.

Lemma run_ends_at_first_q_witness :
  Enhanced.run (Enhanced.init sample_store)
    [press 24 258; press 24 113; press 24 32]
  = Enhanced.Break.
Proof.
  apply (proj1 (run_ends_at_first_q (Enhanced.init sample_store) _
                  ltac:(cbn; lia))).
  exists (press 24 113). split; [right; left; reflexivity | reflexivity].
Defined.

Lemma same_but_status_refl : forall t, same_but_status t t.
Proof. intros t. repeat split. Qed.

Lemma same_but_status_trans : forall a b c,
  same_but_status a b -> same_but_status b c -> same_but_status a c.
Proof.
  unfold same_but_status. intros a b c H1 H2.
  repeat match goal with H : _ /\ _ |- _ => destruct H end.
  repeat split; congruence.
Qed.

Lemma same_tasks_refl : forall ts, same_tasks ts ts.
Proof.
  induction ts as [|r ts IH]; constructor; [|exact IH].
  split; [reflexivity | apply same_but_status_refl].
Qed.

Lemma same_tasks_trans : forall a b c,
  same_tasks a b -> same_tasks b c -> same_tasks a c.
Proof.
  intros a b c H. revert c. induction H as [|x y a b [Hk Hs] _ IH];
    intros c Hc; inversion Hc as [|y' z b' c' [Hk' Hs'] Hbc]; subst;
    constructor.
  - split; [congruence | eapply same_but_status_trans; eassumption].
  - now apply IH.
Qed.

Lemma same_tasks_assign : forall k s now ts,
  same_tasks ts (Enhanced.assign k s now ts).
Proof.
  intros k s now ts. unfold Enhanced.assign.
  induction ts as [|r ts IH]; cbn [map]; constructor; [|exact IH].
  destruct (fst r =? k)%string; cbn [fst snd]; split;
    first [reflexivity | apply same_but_status_refl | repeat split].
Qed.

Lemma loop_body_same_tasks : forall ev self self',
  Enhanced.loop_body ev self = Enhanced.Continue self' ->
  same_tasks (Enhanced.tasks (Enhanced.tool self))
             (Enhanced.tasks (Enhanced.tool self')).
Proof.
  intros ev self self' H. loop_cases H; injection H as <-;
    cbn [Enhanced.tool Enhanced.tasks Enhanced.with_position
         Enhanced.with_tool Enhanced.save_tasks];
    first [apply same_tasks_refl | apply same_tasks_assign].
Qed.

(** X5.  The browser changes nothing of the collection but the [status]
    and the [updated] of its tasks: whatever keys are pressed, the
    collection keeps its keys in their order, and every task its id,
    title, priority, project, description, milestone, creation time,
    details, links and subtasks.  No key adds, removes or edits a task
    (the help line offers [n], [d] and Enter, which have no branch). *)
Theorem run_keeps_the_tasks :
  forall (self : Enhanced.EnhancedRoadmapTUI) (turns : list Enhanced.turn)
         (self' : Enhanced.EnhancedRoadmapTUI),
  Enhanced.run self turns = Enhanced.Continue self' ->
  same_tasks (Enhanced.tasks (Enhanced.tool self))
             (Enhanced.tasks (Enhanced.tool self')).
Proof.
  intros self turns self' H.
  apply (run_continue_ind
           (fun s => same_tasks (Enhanced.tasks (Enhanced.tool self))
                                (Enhanced.tasks (Enhanced.tool s))))
    with (turns := turns) (self := self); [|apply same_tasks_refl|exact H].
  intros ev s s' Hs Hstep.
  eapply same_tasks_trans; [exact Hs|].
  eapply loop_body_same_tasks; eassumption.
Qed.

Lemma run_keeps_the_tasks_witness :
  exists self',
    Enhanced.run (Enhanced.init sample_store)
      [press 24 32; press 24 110; press 24 258; press 24 100; press 24 32]
    = Enhanced.Continue self'
    /\ same_tasks (Enhanced.tasks sample_store)
                  (Enhanced.tasks (Enhanced.tool self')).
Proof.
  eexists. split; [vm_compute; reflexivity|].
  apply (run_keeps_the_tasks (Enhanced.init sample_store)
           [press 24 32; press 24 110; press 24 258; press 24 100;
            press 24 32]).
  vm_compute. reflexivity.
Defined.

Lemma loop_body_sync : forall ev self self',
  Enhanced.loop_body ev self = Enhanced.Continue self' ->
  Enhanced.tool self' = Enhanced.tool self \/ saved self'.
Proof.
  intros ev self self' H. loop_cases H; injection H as <-;
    first [left; reflexivity | right; reflexivity].
Qed.

Lemma run_sync : forall self turns self',
  Enhanced.run self turns = Enhanced.Continue self' ->
  Enhanced.tool self' = Enhanced.tool self \/ saved self'.
Proof.
  intros self turns self' H.
  apply (run_continue_ind
           (fun s => Enhanced.tool s = Enhanced.tool self \/ saved s))
    with (turns := turns) (self := self); [|now left|exact H].
  intros ev s s' Hs Hstep.
  destruct (loop_body_sync _ _ _ Hstep) as [E|S]; [|now right].
  destruct Hs as [E0|S0]; [left; congruence|].
  right. unfold saved in *. now rewrite E.
Qed.

(** X6.  The file never lags behind the collection: after any sequence of
    keys, either the browser has changed neither the collection nor the
    file, or the file, loaded again, gives the whole collection as it is
    in memory. *)
Theorem run_file_in_sync :
  forall (self : Enhanced.EnhancedRoadmapTUI) (turns : list Enhanced.turn)
         (self' : Enhanced.EnhancedRoadmapTUI),
  Enhanced.run self turns = Enhanced.Continue self' ->
  Enhanced.tool self' = Enhanced.tool self
  \/ (forall clock,
        Enhanced.load_tasks clock (Enhanced.tasks_file (Enhanced.tool self'))
        = Ok (Enhanced.tasks (Enhanced.tool self'))).
Proof.
  intros self turns self' H.
  destruct (run_sync _ _ _ H) as [E|S]; [now left|].
  right. intros clock. unfold saved in S. rewrite S.
  apply load_tasks_dump.
Qed.

Lemma run_file_in_sync_witness :
  exists self',
    Enhanced.run (Enhanced.init sample_store)
      [press 24 258; press 24 32; press 24 259; press 24 118]
    = Enhanced.Continue self'
    /\ Enhanced.tool self' <> sample_store
    /\ (forall clock,
          Enhanced.load_tasks clock
            (Enhanced.tasks_file (Enhanced.tool self'))
          = Ok (Enhanced.tasks (Enhanced.tool self'))).
Proof.
  eexists. split; [vm_compute; reflexivity|].
  split; [vm_compute; discriminate|].
  destruct (run_file_in_sync (Enhanced.init sample_store)
              [press 24 258; press 24 32; press 24 259; press 24 118]
              _ eq_refl) as [E|L].
  - vm_compute in E. discriminate E.
  - exact L.
Defined.

Lemma filter_all : forall (A : Type) (p : A -> bool) l,
  (forall x, p x = true) -> filter p l = l.
Proof.
  intros A p l H. induction l as [|x l IH]; cbn [filter]; [reflexivity|].
  now rewrite H, IH.
Qed.

Lemma unfiltered_length : forall self,
  unfiltered self ->
  List.length (Enhanced.get_filtered_tasks self)
  = List.length (Enhanced.tasks (Enhanced.tool self)).
Proof.
  intros self (H1 & H2 & H3). rewrite get_filtered_tasks_eq.
  rewrite (Permutation_length (sort_perm _ _ _)).
  rewrite filter_all; [reflexivity|].
  intros r. unfold satisfiesb.
  now rewrite !constrainsb_unset by assumption.
Qed.

Lemma loop_body_unfiltered : forall ev self self',
  unfiltered self ->
  Enhanced.loop_body ev self = Enhanced.Continue self' ->
  unfiltered self'.
Proof.
  intros ev self self' U H. loop_cases H; injection H as <-;
    first [exact U | repeat split].
Qed.

Lemma loop_body_length : forall ev self self',
  Enhanced.loop_body ev self = Enhanced.Continue self' ->
  List.length (Enhanced.tasks (Enhanced.tool self'))
  = List.length (Enhanced.tasks (Enhanced.tool self)).
Proof.
  intros ev self self' H.
  apply loop_body_same_tasks in H. symmetry. eapply Forall2_length. exact H.
Qed.

Lemma loop_body_in_list : forall ev self self',
  unfiltered self -> in_list self ->
  Enhanced.loop_body ev self = Enhanced.Continue self' ->
  in_list self'.
Proof.
  intros ev self self' U [H0 H1] H. unfold in_list.
  rewrite (loop_body_length _ _ _ H).
  pose proof (unfiltered_length self U) as L.
  loop_cases H; injection H as <-; bools; cbn; lia.
Qed.

(** X7.  The selection stays in the list.  With no filter set (the browser
    sets none), whatever keys are pressed, the selected index remains an
    index of the collection, and when the collection is not empty there
    is a task under it, one of the collection. *)
Theorem selection_stays_in_list :
  forall (self : Enhanced.EnhancedRoadmapTUI) (turns : list Enhanced.turn)
         (self' : Enhanced.EnhancedRoadmapTUI),
  unfiltered self -> in_list self ->
  Enhanced.run self turns = Enhanced.Continue self' ->
  in_list self'
  /\ (Enhanced.tasks (Enhanced.tool self) <> [] ->
      exists r, selected self' = Some r
                /\ In r (Enhanced.tasks (Enhanced.tool self'))).
Proof.
  intros self turns self' U I H.
  assert (P : unfiltered self' /\ in_list self'
              /\ List.length (Enhanced.tasks (Enhanced.tool self'))
                 = List.length (Enhanced.tasks (Enhanced.tool self))).
  { apply (run_continue_ind
             (fun s => unfiltered s /\ in_list s
                       /\ List.length (Enhanced.tasks (Enhanced.tool s))
                          = List.length (Enhanced.tasks (Enhanced.tool self))))
      with (turns := turns) (self := self);
      [|split; [exact U | split; [exact I | reflexivity]]|exact H].
    intros ev s s' (Us & Is & Ls) Hstep. split; [|split].
    - eapply loop_body_unfiltered; eassumption.
    - eapply loop_body_in_list; eassumption.
    - rewrite <- Ls. eapply loop_body_length; eassumption. }
  destruct P as (U' & I' & L'). split; [exact I'|].
  intros Hne. unfold selected.
  destruct I' as [I0 I1].
  assert (Hlen : (0 < List.length (Enhanced.tasks (Enhanced.tool self)))%nat).
  { destruct (Enhanced.tasks (Enhanced.tool self)); [congruence | cbn; lia]. }
  destruct (nth_error (Enhanced.get_filtered_tasks self')
              (Z.to_nat (Enhanced.selected_index self'))) as [r|] eqn:E.
  - exists r. split; [reflexivity|].
    apply get_filtered_tasks_incl. eapply nth_error_In. exact E.
  - apply nth_error_None in E. rewrite (unfiltered_length _ U') in E. lia.
Qed.

Lemma selection_stays_in_list_witness :
  exists self',
    Enhanced.run (Enhanced.init sample_store)
      [press 24 258; press 24 258; press 24 258; press 24 258; press 24 32]
    = Enhanced.Continue self'
    /\ in_list self'.
Proof.
  eexists. split; [vm_compute; reflexivity|].
  apply (selection_stays_in_list (Enhanced.init sample_store)
           [press 24 258; press 24 258; press 24 258; press 24 258;
            press 24 32]).
  - repeat split.
  - split; cbn; lia.
  - vm_compute. reflexivity.
Defined.

Lemma loop_body_in_window : forall h ev self self',
  7 <= h -> Enhanced.height ev = h -> in_window h self ->
  Enhanced.loop_body ev self = Enhanced.Continue self' ->
  in_window h self'.
Proof.
  intros h ev self self' Hh Hev (W0 & W1 & W2) H. unfold in_window.
  loop_cases H; injection H as <-; cbn;
    repeat match goal with
           | |- context [if ?b then _ else _] => destruct b eqn:?
           end; bools; lia.
Qed.

(** X8.  The scroll offset follows the selection.  On a terminal that
    keeps its height [h] of at least 7 lines, whatever keys are pressed,
    the offset is never negative and never after the selection, and the
    selection is at most [content_height - 3] rows below it, where
    [content_height = h - 4]. *)
Theorem scroll_follows_selection :
  forall (h : Z) (self : Enhanced.EnhancedRoadmapTUI)
         (turns : list Enhanced.turn) (self' : Enhanced.EnhancedRoadmapTUI),
  7 <= h ->
  Forall (fun ev => Enhanced.height ev = h) turns ->
  in_window h self ->
  Enhanced.run self turns = Enhanced.Continue self' ->
  in_window h self'.
Proof.
  intros h self turns. revert self.
  induction turns as [|ev turns IH]; intros self self' Hh Hall W H;
    cbn [Enhanced.run] in H.
  - injection H as <-. exact W.
  - inversion Hall as [|? ? Hev Hrest]; subst.
    destruct (Enhanced.loop_body ev self) as [s1| |e] eqn:E; try discriminate.
    eapply IH; [exact Hh | exact Hrest | | exact H].
    eapply loop_body_in_window; [exact Hh | reflexivity | exact W | exact E].
Qed.

Lemma scroll_follows_selection_witness :
  exists self',
    Enhanced.run (Enhanced.init sample_store)
      [press 8 258; press 8 258; press 8 259]
    = Enhanced.Continue self'
    /\ in_window 8 self'.
Proof.
  eexists. split; [vm_compute; reflexivity|].
  apply (scroll_follows_selection 8 (Enhanced.init sample_store)
           [press 8 258; press 8 258; press 8 259]).
  - lia.
  - repeat constructor.
  - repeat split; cbn; lia.
  - vm_compute. reflexivity.
Defined.

(** ** The task list on the screen *)

Lemma slice_rows : forall (A : Type) (l : list A) a b i,
  0 <= a -> 0 <= i < Z.of_nat (List.length (PyList.slice l a b)) ->
  i + a <> b.
Proof.
  intros A l a b i Ha Hi. unfold PyList.slice in Hi.
  rewrite length_firstn in Hi. unfold clamp in Hi.
  destruct (a <? 0) eqn:Ea; [apply Z.ltb_lt in Ea; lia|].
  destruct (b <? 0) eqn:Eb; [apply Z.ltb_lt in Eb; lia|].
  apply Z.ltb_ge in Eb. lia.
Qed.

Lemma attempted_Forall : forall (P : Enhanced.call -> Prop) r cs,
  Forall P cs -> Forall P (Enhanced.attempted r cs).
Proof.
  intros P r cs H. induction H as [|c cs Hc _ IH]; cbn [Enhanced.attempted];
    [constructor|].
  destruct (r c); constructor; first [exact Hc | exact IH | constructor].
Qed.

Lemma status_colors_plain : forall s,
  Z.testbit (Z.lor (Enhanced.status_colors s) 0) 18 = false.
Proof.
  intros s. unfold Enhanced.status_colors.
  repeat match goal with
         | |- context [if ?b then _ else _] => destruct b
         end; reflexivity.
Qed.

Lemma draw_row_plain : forall term self height sy sx lw i task,
  i + Enhanced.scroll_offset self <> Enhanced.selected_index self ->
  Forall (fun c => reversed c = false)
         (Enhanced.draw_row term self height sy sx lw i task).
Proof.
  intros term self height sy sx lw i task Hi. unfold Enhanced.draw_row.
  apply Z.eqb_neq in Hi. rewrite Hi.
  destruct ((sy + 2 + i <? sy + height - 1)
            && (sy + 2 + i <? Enhanced.LINES term - 1)); [|constructor].
  apply attempted_Forall.
  repeat match goal with
         | |- context [if ?b then _ else _] => destruct b
         end;
    repeat (first [apply Forall_nil | apply Forall_cons
                  | apply Forall_app; split]);
    cbn [reversed]; first [reflexivity | apply status_colors_plain].
Qed.

Lemma draw_rows_plain : forall term self height sy sx lw visible i,
  (forall j, i <= j < i + Z.of_nat (List.length visible) ->
             j + Enhanced.scroll_offset self <> Enhanced.selected_index self) ->
  Forall (fun c => reversed c = false)
         (Enhanced.draw_rows term self height sy sx lw i visible).
Proof.
  intros term self height sy sx lw visible.
  induction visible as [|task others IH]; intros i H; cbn [Enhanced.draw_rows];
    [constructor|].
  apply Forall_app. split.
  - apply draw_row_plain. apply H. cbn [List.length]. lia.
  - apply IH. intros j Hj. apply H. cbn [List.length]. lia.
Qed.

(** X9.  Scrolling down takes the selection bar off the screen.  Whenever
    the DOWN key moves the scroll offset, the new selection is a task of
    the list, it stands [content_height - 3] rows below the new offset,
    and the list, drawn with the same [content_height = height - 4],
    shows the rows from the offset to [content_height - 4] below it only:
    no call of [draw_task_list] draws in reverse video, whatever the
    terminal, the widths and the position of the list. *)
Theorem scrolling_down_hides_the_selection :
  forall (term : Enhanced.terminal) (self : Enhanced.EnhancedRoadmapTUI)
         (ev : Enhanced.turn) (self' : Enhanced.EnhancedRoadmapTUI)
         (width start_y start_x list_width : Z),
  Enhanced.key ev = Enhanced.KEY_DOWN ->
  0 <= Enhanced.scroll_offset self ->
  0 <= Enhanced.selected_index self ->
  Enhanced.loop_body ev self = Enhanced.Continue self' ->
  Enhanced.scroll_offset self' <> Enhanced.scroll_offset self ->
  (exists r, selected self' = Some r)
  /\ Enhanced.selected_index self'
     = Enhanced.scroll_offset self' + (Enhanced.height ev - 4) - 3
  /\ Forall (fun c => reversed c = false)
       (Enhanced.draw_task_list term self' (Enhanced.get_filtered_tasks self')
          (Enhanced.height ev - 4) width start_y start_x list_width).
Proof.
  intros term self ev self' width sy sx lw K Hoff Hsel H Hscroll.
  unfold Enhanced.loop_body in H. rewrite K in H.
  change (Enhanced.KEY_DOWN =? Enhanced.KEY_Q) with false in H.
  change (Enhanced.KEY_DOWN =? Enhanced.KEY_UP) with false in H.
  change (Enhanced.KEY_DOWN =? Enhanced.KEY_DOWN) with true in H.
  cbv iota zeta in H.
  destruct (Enhanced.selected_index self
            <? Z.of_nat (List.length (Enhanced.get_filtered_tasks self)) - 1)
    eqn:Elen; [|injection H as <-; congruence].
  destruct (Enhanced.scroll_offset self + (Enhanced.height ev - 4) - 2
            <=? Enhanced.selected_index self + 1) eqn:Escroll;
    injection H as <-; [|cbn in Hscroll; congruence].
  bools. split; [|split].
  - unfold selected.
    change (Enhanced.get_filtered_tasks (Enhanced.with_position self _ _))
      with (Enhanced.get_filtered_tasks self).
    cbn [Enhanced.selected_index Enhanced.with_position].
    destruct (nth_error (Enhanced.get_filtered_tasks self)
                (Z.to_nat (Enhanced.selected_index self + 1))) as [r|] eqn:E;
      [now exists r|].
    apply nth_error_None in E. lia.
  - cbn. lia.
  - unfold Enhanced.draw_task_list.
    destruct (lw <? 30); [constructor|].
    apply Forall_app. split.
    + apply attempted_Forall. repeat constructor.
    + apply draw_rows_plain. intros j Hj.
      unfold Enhanced.visible_tasks in Hj.
      cbn [Enhanced.scroll_offset Enhanced.selected_index
           Enhanced.with_position] in *.
      pose proof (slice_rows _
                    (Enhanced.get_filtered_tasks
                       (Enhanced.with_position self
                          (Enhanced.selected_index self + 1)
                          (Enhanced.selected_index self + 1
                           - (Enhanced.height ev - 4) + 3)))
                    (Enhanced.selected_index self + 1
                     - (Enhanced.height ev - 4) + 3)
                    (Enhanced.selected_index self + 1
                     - (Enhanced.height ev - 4) + 3
                     + (Enhanced.height ev - 4) - 3) j) as S.
      lia.
Qed.

Lemma scrolling_down_hides_the_selection_witness :
  exists self',
    Enhanced.run (Enhanced.init sample_store) [press 8 258; press 8 258]
    = Enhanced.Continue self'
    /\ Enhanced.selected_index self' = 2
    /\ Enhanced.scroll_offset self' = 1
    /\ map fst (Enhanced.visible_tasks self'
                  (Enhanced.get_filtered_tasks self') 4)
       = ["T1"]
    /\ Forall (fun c => reversed c = false)
         (Enhanced.draw_task_list small_terminal self'
            (Enhanced.get_filtered_tasks self') 4 120 2 0 45).
Proof.
  eexists. split; [vm_compute; reflexivity|].
  split; [reflexivity|]. split; [reflexivity|]. split; [reflexivity|].
  apply (scrolling_down_hides_the_selection small_terminal
           (Enhanced.with_position (Enhanced.init sample_store) 1 0)
           (press 8 258) _ 120 2 0 45).
  - reflexivity.
  - cbn. lia.
  - cbn. lia.
  - vm_compute. reflexivity.
  - cbn. lia.
Defined.

Lemma substring_length : forall s n m,
  String.length (String.substring n m s) = Nat.min m (String.length s - n).
Proof.
  induction s as [|c s IH]; intros n m.
  - destruct n, m; reflexivity.
  - destruct n as [|n].
    + destruct m as [|m]; [reflexivity|].
      cbn [String.substring String.length]. rewrite IH. lia.
    + cbn [String.substring String.length]. rewrite IH. lia.
Qed.

Lemma slice_to_len : forall s n,
  0 <= n -> len (slice_to s n) = Z.min n (len s).
Proof.
  intros s n Hn. unfold slice_to, len, clamp.
  rewrite substring_length.
  destruct (n <? 0) eqn:E; [apply Z.ltb_lt in E; lia|]. lia.
Qed.

Lemma substring_prefix : forall s k,
  String.prefix (String.substring 0 k s) s = true.
Proof.
  induction s as [|c s IH]; intros k.
  - destruct k; reflexivity.
  - destruct k as [|k]; [reflexivity|].
    cbn [String.substring String.prefix].
    destruct (ascii_dec c c); [apply IH | congruence].
Qed.

Lemma truncated_title_len : forall title tw,
  3 <= tw ->
  len (Enhanced.truncated_title title tw) <= tw
  /\ (tw < len title -> len (Enhanced.truncated_title title tw) = tw).
Proof.
  intros title tw H3. unfold Enhanced.truncated_title.
  destruct (len title <=? tw) eqn:E; bools.
  - split; [exact E | lia].
  - assert (L : len (slice_to title (tw - 3) ++ "...") = tw).
    { rewrite len_append, slice_to_len by lia.
      change (len "...") with 3. lia. }
    split; [lia | intros _; exact L].
Qed.

(** X10.  The title never leaves its column.  The title column is at
    least 10 characters wide; the title drawn in it is never longer than
    the column, and a title that is longer is cut to exactly the width of
    the column: a start of the title followed by three dots. *)
Theorem truncated_title_fits : forall (title : string) (list_width : Z),
  10 <= Enhanced.title_width list_width
  /\ len (Enhanced.truncated_title title (Enhanced.title_width list_width))
     <= Enhanced.title_width list_width
  /\ (Enhanced.title_width list_width < len title ->
      len (Enhanced.truncated_title title (Enhanced.title_width list_width))
      = Enhanced.title_width list_width
      /\ exists cut,
           Enhanced.truncated_title title (Enhanced.title_width list_width)
           = (cut ++ "...")%string
           /\ startswith title cut = true).
Proof.
  intros title lw.
  assert (H10 : 10 <= Enhanced.title_width lw)
    by (unfold Enhanced.title_width; lia).
  split; [exact H10|].
  destruct (truncated_title_len title (Enhanced.title_width lw)) as [L1 L2];
    [lia|].
  split; [exact L1|]. intros Hlong. split; [now apply L2|].
  unfold Enhanced.truncated_title.
  replace (len title <=? Enhanced.title_width lw) with false
    by (symmetry; apply Z.leb_gt; exact Hlong).
  eexists. split; [reflexivity|].
  unfold startswith, slice_to. apply substring_prefix.
Qed.

Lemma times_len : forall c n, len (times c n) = Z.of_nat n.
Proof.
  intros c n. unfold len.
  induction n as [|n IH]; cbn [times String.length]; lia.
Qed.

Lemma ljust_len : forall s w, len (ljust s w) = Z.max (len s) w.
Proof.
  intros s w. unfold ljust. rewrite len_append, times_len.
  pose proof (len_nonneg s). lia.
Qed.

(** X11.  The width of a row.  In a list at least 33 columns wide the
    header has [list_width - 1] characters, and the [line] of a task (the
    text of the selected row) has as many, plus what its fields exceed
    their columns by.  A status [in_progress] exceeds its column by 3 and
    a priority [critical] (the mark [!!!]) by 1: in the row of such a
    task the columns after it stand further right than in the header. *)
Theorem line_width :
  forall (task : Enhanced.EnhancedTask) (list_width : Z),
  33 <= list_width ->
  len (Enhanced.header list_width) = list_width - 1
  /\ len (Enhanced.line task list_width) = list_width - 1 + overflow task
  /\ 0 <= overflow task
  /\ (Enhanced.status task = "in_progress" -> 3 <= overflow task)
  /\ (Enhanced.priority task = "critical" -> 1 <= overflow task).
Proof.
  intros task lw Hlw.
  assert (Wi : Enhanced.id_width lw = 6).
  { unfold Enhanced.id_width. apply Z.min_l.
    apply Z.div_le_lower_bound; lia. }
  assert (Ws : Enhanced.status_width lw = 8).
  { unfold Enhanced.status_width. apply Z.min_l.
    apply Z.div_le_lower_bound; lia. }
  assert (Wt : Enhanced.title_width lw = lw - 23).
  { unfold Enhanced.title_width. rewrite Wi, Ws.
    unfold Enhanced.pri_width, Enhanced.m_width. lia. }
  destruct (truncated_title_len (Enhanced.title task) (Enhanced.title_width lw))
    as [Ht _]; [rewrite Wt; lia|].
  unfold Enhanced.header, Enhanced.line, overflow.
  rewrite !len_append, !ljust_len, Wi, Ws, Wt in *.
  unfold Enhanced.pri_width, Enhanced.m_width.
  change (len " ") with 1. change (len "ID") with 2.
  change (len "Status") with 6. change (len "P") with 1.
  change (len "M") with 1. change (len "Title") with 5.
  split; [lia|]. split; [lia|]. split; [lia|]. split.
  - intros ->. change (len "in_progress") with 11. lia.
  - intros ->. change (len (Enhanced.pri_map "critical")) with 3. lia.
Qed.

Lemma line_width_witness :
  33 <= 45
  /\ len (Enhanced.header 45) = 44
  /\ len (Enhanced.line (sample_entry "T1" "todo" "high") 45) = 44
  /\ len (Enhanced.line (sample_entry "T2" "in_progress" "critical") 45) = 48.
Proof.
  assert (H : 33 <= 45) by lia.
  split; [exact H|].
  destruct (line_width (sample_entry "T1" "todo" "high") 45 H)
    as (E1 & E2 & _).
  destruct (line_width (sample_entry "T2" "in_progress" "critical") 45 H)
    as (_ & E3 & _).
  split; [exact E1|]. split; [exact E2 | exact E3].
Defined.

(** ** The breaks of the wrapper *)

Section WrapTight.
Import Wrap.

Lemma tight_app_last : forall width ls l l',
  tight width (ls ++ [l]) ->
  (forall p, forced width p l -> forced width p l') ->
  tight width (ls ++ [l']).
Proof.
  intros width ls l l' H Hf. induction ls as [|a ls IH]; [split; exact I|].
  cbn [app tight] in *. destruct H as [H1 H2]. split; [|now apply IH].
  destruct ls as [|b ls]; cbn [app] in *; [now apply Hf | exact H1].
Qed.

Lemma tight_snoc : forall width ls l next,
  tight width (ls ++ [l]) -> forced width l next ->
  tight width ((ls ++ [l]) ++ [next]).
Proof.
  intros width ls l next H Hf. induction ls as [|a ls IH].
  - cbn [app tight]. repeat split. exact Hf.
  - cbn [app tight] in *. destruct H as [H1 H2]. split; [|now apply IH].
    destruct ls as [|b ls]; cbn [app] in *; exact H1.
Qed.

Lemma tight_pairs : forall width ls,
  tight width ls ->
  forall before l next after,
    ls = before ++ l :: next :: after -> forced width l next.
Proof.
  intros width ls H before. revert ls H.
  induction before as [|a before IH]; intros ls H l next after E; subst ls;
    cbn [app tight] in H; destruct H as [H1 H2].
  - exact H1.
  - now apply (IH _ H2 l next after).
Qed.

Lemma wrap_word_tight : forall width st w,
  wrap_tight width st -> is_word w -> wrap_tight width (wrap_word width st w).
Proof.
  intros width st w T Hw. unfold wrap_word.
  pose proof (t_words _ _ T) as W. pose proof (t_tight _ _ T) as G.
  destruct (current_length st + len w + 1 <=? width) eqn:Hfit.
  - constructor; cbn [lines current_line current_length].
    + apply Forall_app. split; [exact W | constructor; [exact Hw | constructor]].
    + apply (t_spaced _ _ T).
    + intros E. now apply app_eq_nil in E as [_ E].
    + intros _. destruct (current_line st) as [|x cl] eqn:E.
      * destruct (t_first _ _ T E) as [_ Z0]. rewrite Z0.
        cbn [app join String.concat]. lia.
      * rewrite len_join_snoc by discriminate.
        pose proof (t_charged _ _ T) as C. rewrite E in C.
        specialize (C ltac:(discriminate)). lia.
    + unfold flush in *. cbn [lines current_line].
      destruct (current_line st) as [|x cl] eqn:E.
      * destruct (t_first _ _ T E) as [-> _]. split; exact I.
      * cbn [app]. eapply tight_app_last; [exact G|].
        intros p (a & ws & Hs & Hl).
        rewrite split_join in Hs by exact W. injection Hs as <- <-.
        exists x, (cl ++ [w]). split; [|exact Hl].
        change (x :: cl ++ [w]) with ((x :: cl) ++ [w]).
        apply split_join. apply Forall_app.
        split; [exact W | constructor; [exact Hw | constructor]].
  - apply Z.leb_gt in Hfit.
    constructor; cbn [lines current_line current_length].
    + constructor; [exact Hw | constructor].
    + unfold flush. destruct (current_line st) as [|x cl] eqn:E;
        [apply (t_spaced _ _ T)|].
      apply Forall_app. split; [apply (t_spaced _ _ T)|].
      constructor; [|constructor].
      exists (x :: cl). split; [discriminate | split; [exact W | reflexivity]].
    + discriminate.
    + intros _. cbn. lia.
    + unfold flush at 1. cbn [lines current_line].
      unfold flush in *. destruct (current_line st) as [|x cl] eqn:E.
      * destruct (t_first _ _ T E) as [-> _]. split; exact I.
      * apply tight_snoc; [exact G|].
        exists w, []. split; [now apply split_word|].
        pose proof (t_charged _ _ T) as C. rewrite E in C.
        specialize (C ltac:(discriminate)). lia.
Qed.

Lemma wrap_fold_tight : forall width ws st,
  wrap_tight width st -> Forall is_word ws ->
  wrap_tight width (fold_left (wrap_word width) ws st).
Proof.
  intros width ws. induction ws as [|w ws IH]; intros st T W; cbn [fold_left];
    [exact T|].
  inversion W as [|? ? Hw Hws]; subst.
  apply IH; [|exact Hws]. now apply wrap_word_tight.
Qed.

Lemma wrap_loop_tight : forall width text,
  wrap_tight width (wrap_loop width (split text)).
Proof.
  intros width text. unfold wrap_loop. apply wrap_fold_tight.
  - constructor; cbn; try constructor; try congruence; auto.
  - apply split_words.
Qed.

Lemma flush_spaced : forall width st,
  wrap_tight width st -> Forall spaced (flush st).
Proof.
  intros width st T. unfold flush.
  destruct (current_line st) as [|x cl] eqn:E; [apply (t_spaced _ _ T)|].
  apply Forall_app. split; [apply (t_spaced _ _ T)|].
  constructor; [|constructor].
  exists (x :: cl). split; [discriminate|]. split; [|reflexivity].
  rewrite <- E. apply (t_words _ _ T).
Qed.

End WrapTight.

(** X12.  The wrapper breaks a line only when it must, and its lines are
    clean.  For every text and width (both wrappers are the same
    function): where a line is followed by another, the first word of the
    next line would have brought the line to [width] characters or more;
    a text without a word gives the one empty line; and the lines of a
    text with words are never empty and hold their words with single
    spaces between them, none at the ends. *)
Theorem wrap_text_breaks_are_forced : forall (text : string) (width : Z),
  (forall before l next after,
     Enhanced._wrap_text text width = before ++ l :: next :: after ->
     exists w ws,
       split next = w :: ws /\ width <= len l + 1 + len w)
  /\ (split text = [] -> Enhanced._wrap_text text width = [""])
  /\ (split text <> [] ->
      forall l, In l (Enhanced._wrap_text text width) ->
        l <> "" /\ join " " (split l) = l)
  /\ Modern.format_text text width = Enhanced._wrap_text text width.
Proof.
  intros text width.
  pose proof (wrap_loop_tight width text) as T.
  pose proof (t_tight _ _ T) as G.
  pose proof (flush_spaced _ _ T) as S.
  pose proof (flush_words _ _ _ _ (wrap_loop_inv width text)) as D.
  unfold Enhanced._wrap_text, Modern.format_text, Wrap.wrap_result.
  destruct (Wrap.flush (Wrap.wrap_loop width (split text))) as [|l0 ls] eqn:E.
  - split; [|split; [|split]].
    + intros before l next after H.
      destruct before as [|? [|? ?]]; discriminate H.
    + reflexivity.
    + intros Hn. cbn in D. congruence.
    + reflexivity.
  - split; [|split; [|split]].
    + intros before l next after H.
      apply (tight_pairs width _ G before l next after H).
    + intros Hn. rewrite Hn in D. cbn [flat_map] in D.
      destruct (Forall_inv S) as (ws & Hne & Hws & ->).
      rewrite split_join in D by exact Hws.
      destruct ws; [congruence | discriminate].
    + intros _ l Hl. rewrite Forall_forall in S.
      destruct (S l Hl) as (ws & Hne & Hws & ->). split.
      * intros E'. destruct ws as [|w ws]; [congruence|].
        inversion Hws as [|? ? [Hw _] _]; subst.
        unfold join in E'. destruct ws; cbn in E'.
        -- congruence.
        -- destruct w; [congruence | discriminate].
      * now rewrite split_join.
    + reflexivity.
Qed.

(** ** The numbers of the listing *)

Section Numbers.
Import Modern.


















End Numbers.




(** ** The order of the linked documents *)

Section Documents.
Import Modern.

Lemma fold_add_link : forall self task_id links tech others,
  fold_left (next_link self task_id) links (Ok (rev tech ++ others))
  = if forallb (examinable self) links
    then Ok (rev (tech
                  ++ map (entry self task_id)
                       (filter (fun l => technical l && kept self task_id l)
                               links))
             ++ others
             ++ map (entry self task_id)
                  (filter (fun l => negb (technical l)
                                    && kept self task_id l) links))
    else Raise OSError.
Proof.
  intros self task_id links.
  induction links as [|link links IH]; intros tech others;
    cbn [fold_left filter map forallb].
  - now rewrite !app_nil_r.
  - destruct (examinable self link) eqn:Ex; cbn [andb next_link bind].
    + unfold add_link.
      rewrite (load_prd_content_examinable _ _ _ Ex). cbn [bind].
      fold (technical link).
      change (negb (content_of self (url link) task_id =? "")%string
              && negb (content_of self (url link) task_id
                       =? "PRD file not found: " ++ url link)%string)
        with (kept self task_id link).
      destruct (technical link), (kept self task_id link);
        cbn [andb negb map app].
      * change ((name link, content_of self (url link) task_id)
                :: rev tech ++ others)
          with ((entry self task_id link :: rev tech) ++ others).
        change (entry self task_id link :: rev tech)
          with ([entry self task_id link] ++ rev tech).
        rewrite <- (rev_unit tech (entry self task_id link)) at 1.
        rewrite IH. destruct (forallb (examinable self) links);
          [|reflexivity].
        rewrite <- !app_assoc. reflexivity.
      * apply IH.
      * rewrite <- app_assoc. rewrite IH.
        destruct (forallb (examinable self) links); [|reflexivity].
        rewrite <- !app_assoc. reflexivity.
      * apply IH.
    + unfold add_link.
      rewrite (load_prd_content_inaccessible _ _ _ Ex). cbn [bind].
      apply fold_next_link_raise.
Qed.

(** ** The block taken from a document *)

Lemma scan_capturing_block : forall o task_id lines st block,
  capturing st = true ->
  scan_lines o task_id lines st = inr block ->
  exists taken post,
    lines = taken ++ post /\ block = task_content st ++ taken.
Proof.
  intros o task_id lines.
  induction lines as [|line rest IH]; intros st block Hc H;
    cbn [scan_lines] in H.
  - injection H as <-. exists [], []. split; [reflexivity|].
    now rewrite app_nil_r.
  - destruct (tagged o task_id line) eqn:T; [| |discriminate].
    + apply IH in H; [|reflexivity].
      destruct H as (taken & post & -> & ->). cbn [task_content].
      exists (line :: taken), post. split; [reflexivity|].
      now rewrite <- app_assoc.
    + rewrite Hc in H.
      destruct (startswith line "#" && (heading_level line <=? section_level st)
                && (0 <? section_level st)).
      * destruct (re_search o task_id line); [| |discriminate].
        -- apply IH in H; [|reflexivity].
           destruct H as (taken & post & -> & ->). cbn [task_content].
           exists (line :: taken), post. split; [reflexivity|].
           now rewrite <- app_assoc.
        -- injection H as <-. exists [], (line :: rest).
           split; [reflexivity | now rewrite app_nil_r].
      * apply IH in H; [|reflexivity].
        destruct H as (taken & post & -> & ->). cbn [task_content].
        exists (line :: taken), post. split; [reflexivity|].
        now rewrite <- app_assoc.
Qed.

Lemma scan_block : forall o task_id lines block,
  scan_lines o task_id lines scan_start = inr block ->
  (block = [] /\ Forall (plain o task_id) lines)
  \/ exists before first taken after,
       lines = before ++ first :: taken ++ after
       /\ Forall (plain o task_id) before
       /\ tagged o task_id first = Found
       /\ block = first :: taken.
Proof.
  intros o task_id lines.
  assert (G : forall st block,
             capturing st = false -> task_content st = [] ->
             scan_lines o task_id lines st = inr block ->
             (block = [] /\ Forall (plain o task_id) lines)
             \/ exists before first taken after,
                  lines = before ++ first :: taken ++ after
                  /\ Forall (plain o task_id) before
                  /\ tagged o task_id first = Found
                  /\ block = first :: taken).
  { induction lines as [|line rest IH]; intros st block Hc Hn H;
      cbn [scan_lines] in H.
    - injection H as <-. left. split; [exact Hn | constructor].
    - destruct (tagged o task_id line) eqn:T; [| |discriminate].
      + right. apply scan_capturing_block in H; [|reflexivity].
        destruct H as (taken & post & -> & ->). cbn [task_content].
        exists [], line, taken, post. rewrite Hn.
        repeat split; [constructor | exact T].
      + rewrite Hc in H. apply IH in H; [|exact Hc|exact Hn].
        destruct H as [[-> Hall]
                      |(before & first & taken & after & -> & Hb & Hf & ->)].
        * left. split; [reflexivity|]. constructor; [exact T | exact Hall].
        * right. exists (line :: before), first, taken, after.
          repeat split; [constructor; [exact T | exact Hb] | exact Hf]. }
  intros block H.
  apply (G scan_start block); [reflexivity | reflexivity | exact H].
Qed.

Lemma scan_skips_plain : forall o task_id before lines st,
  capturing st = false ->
  Forall (plain o task_id) before ->
  scan_lines o task_id (before ++ lines) st = scan_lines o task_id lines st.
Proof.
  intros o task_id before lines st Hc H.
  induction H as [|line before Hl _ IH]; [reflexivity|].
  cbn [app scan_lines]. unfold plain in Hl. rewrite Hl, Hc. exact IH.
Qed.

Lemma scan_level_zero : forall o task_id lines st,
  capturing st = true -> section_level st = 0 ->
  Forall (no_heading_tagged o task_id) lines ->
  scan_lines o task_id lines st = inr (task_content st ++ lines).
Proof.
  intros o task_id lines.
  induction lines as [|line rest IH]; intros st Hc Hz H; cbn [scan_lines].
  - now rewrite app_nil_r.
  - inversion H as [|? ? [T|[T S]] Hrest]; subst; rewrite T.
    + rewrite Hc, Hz. change (0 <? 0) with false. rewrite andb_false_r.
      rewrite IH; [|reflexivity|reflexivity|exact Hrest].
      cbn [task_content]. now rewrite <- app_assoc.
    + rewrite S. rewrite IH; [|reflexivity|exact Hz|exact Hrest].
      cbn [task_content]. now rewrite <- app_assoc.
Qed.

Lemma scan_plain_tag : forall o task_id before first rest,
  Forall (plain o task_id) before ->
  tagged o task_id first = Found ->
  startswith first "#" = false ->
  Forall (no_heading_tagged o task_id) rest ->
  scan_lines o task_id (before ++ first :: rest) scan_start
  = inr (first :: rest).
Proof.
  intros o task_id before first rest Hb Hf Hs Hr.
  rewrite scan_skips_plain by (try reflexivity; exact Hb).
  cbn [scan_lines]. rewrite Hf, Hs.
  rewrite scan_level_zero; [reflexivity|reflexivity|reflexivity|exact Hr].
Qed.

(** A heading has a level. *)
Lemma heading_level_pos : forall line,
  startswith line "#" = true -> 0 < heading_level line.
Proof.
  intros line H. unfold startswith in H. destruct line as [|c s]; [discriminate|].
  cbn [String.prefix] in H.
  destruct (ascii_dec "#" c) as [<-|]; [|discriminate].
  unfold heading_level. cbn [split_at].
  change ("#" =? " ")%char with false. cbv iota.
  destruct (split_at " " s) as [|w ws]; unfold len; cbn [String.length]; lia.
Qed.

Lemma scan_section : forall o task_id body tail st,
  capturing st = true -> 0 < section_level st ->
  Forall (inside o task_id (section_level st)) body ->
  (tail = [] \/ exists stop after,
                  tail = stop :: after
                  /\ closes o task_id (section_level st) stop) ->
  scan_lines o task_id (body ++ tail) st = inr (task_content st ++ body).
Proof.
  intros o task_id body tail.
  induction body as [|line body IH]; intros st Hc Hp Hb Ht; cbn [app].
  - rewrite app_nil_r.
    destruct Ht as [->|(stop & after & -> & T & S & L & R)]; [reflexivity|].
    cbn [scan_lines]. rewrite T, Hc, S, R.
    replace (heading_level stop <=? section_level st) with true
      by (symmetry; apply Z.leb_le; exact L).
    replace (0 <? section_level st) with true
      by (symmetry; apply Z.ltb_lt; exact Hp).
    reflexivity.
  - inversion Hb as [|? ? [T S] Hrest]; subst.
    cbn [scan_lines]. rewrite T, Hc.
    assert (E : startswith line "#" && (heading_level line <=? section_level st)
                && (0 <? section_level st) = false).
    { destruct (startswith line "#"); [|reflexivity].
      specialize (S eq_refl).
      replace (heading_level line <=? section_level st) with false
        by (symmetry; apply Z.leb_gt; exact S).
      reflexivity. }
    rewrite E.
    rewrite IH; [|reflexivity|exact Hp|exact Hrest|exact Ht].
    cbn [task_content]. now rewrite <- app_assoc.
Qed.

Lemma scan_tagged_heading : forall o task_id before first body tail,
  Forall (plain o task_id) before ->
  tagged o task_id first = Found ->
  startswith first "#" = true ->
  Forall (inside o task_id (heading_level first)) body ->
  (tail = [] \/ exists stop after,
                  tail = stop :: after
                  /\ closes o task_id (heading_level first) stop) ->
  scan_lines o task_id (before ++ first :: body ++ tail) scan_start
  = inr (first :: body).
Proof.
  intros o task_id before first body tail Hb Hf Hs Hbody Htail.
  rewrite scan_skips_plain by (try reflexivity; exact Hb).
  cbn [scan_lines]. rewrite Hf, Hs.
  rewrite scan_section;
    [reflexivity | reflexivity | now apply heading_level_pos
    | exact Hbody | exact Htail].
Qed.

Lemma load_prd_content_scanned : forall self url task_id content,
  file_at (env self) (prd_path self url) = Text content ->
  load_prd_content self url task_id
  = Ok match scan_lines (env self) task_id (split_at LF content)
                        scan_start with
       | inl reason => ("Error reading PRD: " ++ reason)%string
       | inr [] => ""
       | inr block => String.concat (String LF "") block
       end.
Proof.
  intros self url task_id content Hf. unfold load_prd_content.
  rewrite Hf. fold scan_start.
  now destruct (scan_lines _ _ _ _) as [r|[|l ls]].
Qed.

(** ** The document that is not there *)





(** ** The content of a document on the screen *)

Lemma print_lines_app : forall l1 l2 b,
  print_lines b (l1 ++ l2)
  = print_lines b l1 ++ print_lines (xorb b (Nat.odd (fences l1))) l2.
Proof.
  unfold fences.
  induction l1 as [|line l1 IH]; intros l2 b; cbn [app print_lines filter].
  - cbn. now rewrite xorb_false_r.
  - destruct (contains "```" line) eqn:F.
    + rewrite IH, <- app_assoc. do 2 f_equal.
      cbn [List.length]. rewrite Nat.odd_succ, <- Nat.negb_odd.
      now destruct b, (Nat.odd (List.length (filter (contains "```") l1))).
    + rewrite IH, <- app_assoc. reflexivity.
Qed.

End Documents.

(** X16.  The order of the documents in the detail view.  The documents
    whose link is technical (its name holds [Technical PRD], or
    [technical] in any letter case) come first, the last link first; the
    others follow in the order of their links; a link is among them when
    its content is neither empty nor the text it is compared with.  When
    the existence of a linked document cannot be checked, the loop over
    the links ends in the [OSError] of the check. *)
Theorem technical_documents_come_first_reversed :
  forall (self : Modern.ModernRoadmapViewer) (task_id : string)
         (links : list Link),
  Modern.collect_prd_contents self task_id links
  = if forallb (examinable self) links
    then Ok (rev (map (entry self task_id)
                    (filter (fun l => technical l && kept self task_id l)
                            links))
             ++ map (entry self task_id)
                  (filter (fun l => negb (technical l)
                                    && kept self task_id l) links))
    else Raise OSError.
Proof.
  intros self task_id links. unfold Modern.collect_prd_contents.
  fold (next_link self task_id).
  apply (fold_add_link self task_id links [] []).
Qed.

(** X17.  What [load_prd_content] returns for a document that can be
    read: an error text (a pattern did not compile); or nothing, and then
    no line of the document carries the tag or the heading of the task;
    or a run of consecutive lines of the document, joined by line feeds,
    that starts at the first line carrying the tag or the heading. *)
Theorem captured_block_is_contiguous :
  forall (self : Modern.ModernRoadmapViewer) (url task_id content : string),
  Modern.file_at (Modern.env self) (Modern.prd_path self url)
  = Modern.Text content ->
  (exists reason,
     Modern.load_prd_content self url task_id
     = Ok ("Error reading PRD: " ++ reason)%string)
  \/ (Modern.load_prd_content self url task_id = Ok ""
      /\ Forall (plain (Modern.env self) task_id) (split_at LF content))
  \/ (exists before first taken after,
        split_at LF content = before ++ first :: taken ++ after
        /\ Forall (plain (Modern.env self) task_id) before
        /\ Modern.tagged (Modern.env self) task_id first = Modern.Found
        /\ Modern.load_prd_content self url task_id
           = Ok (String.concat (String LF "") (first :: taken))).
Proof.
  intros self url task_id content Hf.
  rewrite (load_prd_content_scanned _ _ _ _ Hf).
  destruct (Modern.scan_lines (Modern.env self) task_id (split_at LF content)
              scan_start) as [reason|block] eqn:E.
  - left. now exists reason.
  - right. destruct (scan_block _ _ _ _ E)
      as [[-> Hall]|(before & first & taken & after & Hl & Hb & Ht & ->)].
    + left. now split.
    + right. exists before, first, taken, after. now repeat split.
Qed.

Lemma captured_block_is_contiguous_witness :
  let self := tagging_viewer (Modern.Text (text_of sectioned_document)) in
  Modern.load_prd_content self "../prds/t.md" "T1"
  = Ok (text_of
          ["## Setup [task-id: T1]"; "step one"; "### Detail"; "more"])
  /\ ((exists reason,
         Modern.load_prd_content self "../prds/t.md" "T1"
         = Ok ("Error reading PRD: " ++ reason)%string)
      \/ (Modern.load_prd_content self "../prds/t.md" "T1" = Ok ""
          /\ Forall (plain (Modern.env self) "T1")
                    (split_at LF (text_of sectioned_document)))
      \/ (exists before first taken after,
            split_at LF (text_of sectioned_document)
            = before ++ first :: taken ++ after
            /\ Forall (plain (Modern.env self) "T1") before
            /\ Modern.tagged (Modern.env self) "T1" first = Modern.Found
            /\ Modern.load_prd_content self "../prds/t.md" "T1"
               = Ok (String.concat (String LF "") (first :: taken)))).
Proof.
  intros self. split; [vm_compute; reflexivity|].
  exact (captured_block_is_contiguous self "../prds/t.md" "T1"
           (text_of sectioned_document) eq_refl).
Defined.

(** X18.  A tag on a line that is no heading opens a block that nothing
    closes.  When the first line that carries the tag does not start with
    [#], and no later line is a heading that carries it, the content is
    that line and every line after it, to the end of the document,
    headings of other sections included. *)
Theorem tag_on_a_plain_line_captures_to_the_end :
  forall (self : Modern.ModernRoadmapViewer) (url task_id content : string)
         (before : list string) (first : string) (rest : list string),
  Modern.file_at (Modern.env self) (Modern.prd_path self url)
  = Modern.Text content ->
  split_at LF content = before ++ first :: rest ->
  Forall (plain (Modern.env self) task_id) before ->
  Modern.tagged (Modern.env self) task_id first = Modern.Found ->
  startswith first "#" = false ->
  Forall (no_heading_tagged (Modern.env self) task_id) rest ->
  Modern.load_prd_content self url task_id
  = Ok (String.concat (String LF "") (first :: rest)).
Proof.
  intros self url task_id content before first rest Hf Hl Hb Ht Hs Hr.
  rewrite (load_prd_content_scanned _ _ _ _ Hf), Hl.
  now rewrite scan_plain_tag.
Qed.

Lemma tag_on_a_plain_line_captures_to_the_end_witness :
  Modern.load_prd_content
    (tagging_viewer (Modern.Text (text_of noted_document)))
    "../prds/t.md" "T1"
  = Ok (text_of ["note [task-id: T1]"; "step one"; "## Other"]).
Proof.
  apply (tag_on_a_plain_line_captures_to_the_end
           (tagging_viewer (Modern.Text (text_of noted_document)))
           "../prds/t.md" "T1" (text_of noted_document)
           ["# Plan"] "note [task-id: T1]" ["step one"; "## Other"]).
  - reflexivity.
  - reflexivity.
  - repeat constructor.
  - reflexivity.
  - reflexivity.
  - repeat constructor; left; reflexivity.
Defined.

(** X19.  A tagged heading opens its section.  When the first line that
    carries the tag is a heading, the content is that heading and the
    lines after it, as long as they carry no tag and are no heading of
    the same or a higher level; it ends at the end of the document, or
    before the first heading of the same or a higher level that does not
    mention the task. *)
Theorem tagged_heading_captures_its_section :
  forall (self : Modern.ModernRoadmapViewer) (url task_id content : string)
         (before : list string) (first : string) (body tail : list string),
  Modern.file_at (Modern.env self) (Modern.prd_path self url)
  = Modern.Text content ->
  split_at LF content = before ++ first :: body ++ tail ->
  Forall (plain (Modern.env self) task_id) before ->
  Modern.tagged (Modern.env self) task_id first = Modern.Found ->
  startswith first "#" = true ->
  Forall (inside (Modern.env self) task_id (Modern.heading_level first))
         body ->
  (tail = []
   \/ exists stop after,
        tail = stop :: after
        /\ closes (Modern.env self) task_id (Modern.heading_level first)
                  stop) ->
  Modern.load_prd_content self url task_id
  = Ok (String.concat (String LF "") (first :: body)).
Proof.
  intros self url task_id content before first body tail
         Hf Hl Hb Ht Hs Hbody Htail.
  rewrite (load_prd_content_scanned _ _ _ _ Hf), Hl.
  now rewrite scan_tagged_heading.
Qed.

Lemma tagged_heading_captures_its_section_witness :
  Modern.load_prd_content
    (tagging_viewer (Modern.Text (text_of sectioned_document)))
    "../prds/t.md" "T1"
  = Ok (text_of
          ["## Setup [task-id: T1]"; "step one"; "### Detail"; "more"]).
Proof.
  apply (tagged_heading_captures_its_section
           (tagging_viewer (Modern.Text (text_of sectioned_document)))
           "../prds/t.md" "T1" (text_of sectioned_document)
           ["# Plan"] "## Setup [task-id: T1]"
           ["step one"; "### Detail"; "more"] ["## Other"; "tail"]).
  - reflexivity.
  - reflexivity.
  - repeat constructor.
  - reflexivity.
  - reflexivity.
  - repeat constructor; discriminate.
  - right. exists "## Other", ["tail"].
    split; [reflexivity|].
    repeat split. vm_compute. discriminate.
Defined.



(** X21.  Code is what stands between fences.  [format_and_print_content]
    prints the lines of the content in their order.  A line that holds a
    fence is not printed: a rule takes its place, with the label of the
    language it names or, when it names none and closes a block, a second
    rule.  Any other line is printed as it is in the colour of code when
    the number of fence lines above it is odd, and by its markdown shape
    when that number is even. *)
Theorem code_is_what_stands_between_fences :
  forall (content : string) (before : list string) (line : string)
         (after : list string),
  split_at LF content = before ++ line :: after ->
  Modern.format_and_print_content content
  = Modern.print_lines false before
    ++ (if contains "```" line
        then Modern.print_fence line (Nat.even (fences before))
        else if Nat.odd (fences before) then [Modern.Shown Modern.AsCode line]
             else Modern.print_line line)
    ++ Modern.print_lines
         (xorb (Nat.odd (fences before)) (contains "```" line)) after.
Proof.
  intros content before line after H. unfold Modern.format_and_print_content.
  rewrite H, print_lines_app. f_equal.
  cbn [Modern.print_lines xorb].
  destruct (contains "```" line).
  - rewrite <- Nat.negb_odd.
    now destruct (Nat.odd (fences before)).
  - now destruct (Nat.odd (fences before)).
Qed.

Lemma code_is_what_stands_between_fences_witness :
  Modern.format_and_print_content
    (text_of ["## Run"; "```bash"; "# not a heading"; "```"; "* done"])
  = [Modern.Blank; Modern.Shown Modern.AsSection "## Run"; Modern.Dashes 40;
     Modern.Dashes 60; Modern.Label "Shell Command:";
     Modern.Shown Modern.AsCode "# not a heading";
     Modern.Dashes 60; Modern.Dashes 60;
     Modern.Bullet "" " done"].
Proof.
  rewrite (code_is_what_stands_between_fences
             (text_of ["## Run"; "```bash"; "# not a heading"; "```"; "* done"])
             ["## Run"; "```bash"] "# not a heading" ["```"; "* done"]
             eq_refl).
  vm_compute. reflexivity.
Defined.

(** ** The statistics *)

Section Report.
Import Modern.

Lemma count_filter_le : forall (A : Type) (p : A -> bool) l,
  (List.length (filter p l) <= List.length l)%nat.
Proof.
  intros A p l. induction l as [|x l IH]; cbn [filter List.length]; [lia|].
  destruct (p x); cbn [List.length]; lia.
Qed.

Lemma filter_length_all : forall (A : Type) (p : A -> bool) l,
  List.length (filter p l) = List.length l <-> Forall (fun x => p x = true) l.
Proof.
  intros A p l. induction l as [|x l IH]; cbn [filter List.length].
  - split; [constructor | reflexivity].
  - pose proof (count_filter_le A p l) as Hle.
    destruct (p x) eqn:E; cbn [List.length].
    + split.
      * intros H. constructor; [exact E | apply IH; lia].
      * intros H. inversion H; subst. f_equal. now apply IH.
    + split; [lia|]. intros H. inversion H; subst. congruence.
Qed.

Lemma has_one_value : forall field v v' kv,
  has field v kv = true -> has field v' kv = true -> v = v'.
Proof.
  intros field v v' kv. unfold has.
  destruct (field (snd kv)) as [x|]; [|discriminate].
  rewrite !String.eqb_eq. congruence.
Qed.

Lemma stats_sum : forall doc,
  (List.length (filter (has d_status "todo") doc)
   + List.length (filter (has d_status "in_progress") doc)
   + List.length (filter (has d_status "done") doc)
   + List.length (filter (has d_status "blocked") doc)
   = List.length (filter counted doc))%nat.
Proof.
  induction doc as [|kv doc IH]; cbn [filter List.length]; [reflexivity|].
  unfold counted at 1.
  destruct (has d_status "todo" kv) eqn:A,
           (has d_status "in_progress" kv) eqn:B,
           (has d_status "done" kv) eqn:C,
           (has d_status "blocked" kv) eqn:D;
    cbn [orb List.length];
    try (exfalso;
         first [ discriminate (has_one_value _ _ _ _ A B)
               | discriminate (has_one_value _ _ _ _ A C)
               | discriminate (has_one_value _ _ _ _ A D)
               | discriminate (has_one_value _ _ _ _ B C)
               | discriminate (has_one_value _ _ _ _ B D)
               | discriminate (has_one_value _ _ _ _ C D) ]);
    lia.
Qed.

(** ** The filter menus *)



Lemma labels_write : forall labels,
  writes (for_each labels print) tt (map Line labels).
Proof.
  induction labels as [|l labels IH]; cbn [for_each map].
  - apply writes_ret.
  - eapply (writes_seq _ _ _ _ _ _ [Line l]); [apply writes_print | exact IH].
Qed.


(** A text with a superscript digit is no decimal number. *)
Lemma decimal_none : forall s acc c,
  In c (list_ascii_of_string s) ->
  In (N_of_ascii c) [178; 179; 185]%N ->
  decimal acc s = None.
Proof.
  induction s as [|a s IH]; intros acc c Hin Hc; [destruct Hin|].
  cbn [list_ascii_of_string] in Hin. cbn [decimal].
  destruct Hin as [->|Hin].
  - destruct Hc as [E|[E|[E|[]]]]; rewrite <- E; reflexivity.
  - destruct ((48 <=? N_of_ascii a) && (N_of_ascii a <=? 57))%N;
      [|reflexivity].
    eapply IH; eassumption.
Qed.

Lemma filter_menu_value_error :
  forall self heading labels values field prompt what none c raw rest,
  terminal self ->
  stdin c = raw :: rest ->
  isdigit (strip raw) = true ->
  int (strip raw) = None ->
  filter_menu self heading labels values field prompt what none c
  = Fails ValueError
      {| stdin := rest;
         stdout := stdout c
                   ++ [Clear; Header; Line heading] ++ map Line labels
                   ++ [Prompt prompt] |}.
Proof.
  intros self heading labels values field prompt what none c raw rest
         T Hin Hd Hi.
  unfold filter_menu.
  rewrite (seq_writes _ _ _ _ _ _ _ (writes_emit _)).
  rewrite (seq_writes _ _ _ _ _ _ _ (print_header_writes _ T)).
  rewrite (seq_writes _ _ _ _ _ _ _ (writes_print _)).
  rewrite (seq_writes _ _ _ _ _ _ _ (labels_write labels)).
  erewrite seq_input by (cbn; exact Hin).
  unfold valid_choice. rewrite Hd, Hi.
  unfold seq, raise, put. cbn [stdin stdout].
  f_equal. f_equal. now rewrite <- !app_assoc.
Qed.

(** ** The search *)






(** ** The filters of the command line *)


(** Without a terminal the run ends at the header. *)
Lemma header_piped : forall (B : Type) self (k : unit -> io B) c,
  columns (env self) = None ->
  seq (emit Clear) (fun _ => seq (print_header self) k) c
  = Fails OSError (put c [Clear]).
Proof.
  intros B self k c E. unfold seq at 1. unfold emit at 1.
  unfold seq. now rewrite (print_header_piped _ _ E).
Qed.

(** ** The end of the menu *)

Lemma writes_ahead : forall (A : Type) (m : io A) a evs,
  writes m a evs -> reads_ahead m.
Proof.
  intros A m a evs H c a' c' E. rewrite H in E. injection E as _ <-.
  now exists [].
Qed.

Lemma ahead_ret : forall (A : Type) (a : A), reads_ahead (ret a).
Proof. intros A a c a' c' E. injection E as _ <-. now exists []. Qed.

Lemma ahead_raise : forall (A : Type) e, reads_ahead (@raise A e).
Proof. intros A e c a c' E. discriminate E. Qed.

Lemma ahead_emit : forall e, reads_ahead (emit e).
Proof. intros e. eapply writes_ahead, writes_emit. Qed.

Lemma ahead_print : forall text, reads_ahead (print text).
Proof. intros text. eapply writes_ahead, writes_print. Qed.

Lemma ahead_input : forall prompt, reads_ahead (input prompt).
Proof.
  intros prompt c a c' E. unfold input in E.
  destruct (stdin c) as [|l rest]; [discriminate|].
  injection E as _ <-. now exists [l].
Qed.

Lemma ahead_seq : forall (A B : Type) (m : io A) (k : A -> io B),
  reads_ahead m -> (forall a, reads_ahead (k a)) -> reads_ahead (seq m k).
Proof.
  intros A B m k Hm Hk c b c' E. unfold seq in E.
  destruct (m c) as [a c1| |] eqn:E1; try discriminate.
  destruct (Hm _ _ _ E1) as [u1 H1]. destruct (Hk _ _ _ _ E) as [u2 H2].
  exists (u1 ++ u2). now rewrite H1, H2, app_assoc.
Qed.

Lemma ahead_for_each : forall (A : Type) (body : A -> io unit) l,
  (forall x, reads_ahead (body x)) -> reads_ahead (for_each l body).
Proof.
  intros A body l H. induction l as [|x l IH]; cbn [for_each].
  - apply ahead_ret.
  - apply ahead_seq; [apply H | intros _; exact IH].
Qed.

Lemma ahead_pause : forall prompt, reads_ahead (pause prompt).
Proof.
  intros prompt. unfold pause. apply ahead_seq; [apply ahead_input|].
  intros a. apply ahead_ret.
Qed.

Lemma ahead_print_header : forall self, reads_ahead (print_header self).
Proof.
  intros self. unfold print_header.
  destruct (columns (env self)); [apply ahead_emit | apply ahead_raise].
Qed.

Lemma ahead_print_task_card : forall self task_id task detailed,
  reads_ahead (print_task_card self task_id task detailed).
Proof.
  intros self task_id task detailed. unfold print_task_card.
  destruct (columns (env self)); [|apply ahead_raise].
  destruct (card_fits _ _ _); [apply ahead_emit|].
  apply ahead_seq; [apply ahead_emit | intros _; apply ahead_raise].
Qed.

(** Routines put together from parts that read from the front do so. *)
Ltac solve_ahead :=
  solve
    [ repeat first
        [ apply ahead_ret | apply ahead_raise | apply ahead_emit
        | apply ahead_print | apply ahead_pause | apply ahead_input
        | apply ahead_print_header | apply ahead_print_task_card
        | apply ahead_seq; [|intros ?]
        | apply ahead_for_each; intros ?
        | match goal with
          | |- reads_ahead (if ?b then _ else _) => destruct b
          | |- reads_ahead (match ?x with _ => _ end) => destruct x
          end ] ].

Ltac ahead_lead := repeat (apply ahead_seq; [solve_ahead | intros ?]).

Lemma ahead_show_task_detail : forall self task_id wait,
  reads_ahead (show_task_detail self task_id wait).
Proof.
  intros self task_id wait. unfold show_task_detail.
  destruct (lookup task_id (tasks self)) as [task|]; [|apply ahead_print].
  destruct (show_notes_writes task) as [e2 H2].
  destruct (show_subtasks_writes self task) as [e3 H3].
  ahead_lead.
  destruct (collect_prd_contents _ _ _); [|apply ahead_raise].
  repeat (apply ahead_seq;
          [first [ solve_ahead
                 | eapply writes_ahead;
                   first [apply show_prd_contents_writes | exact H2 | exact H3] ]
          | intros ?]).
  solve_ahead.
Qed.

Lemma ahead_show_upper : forall self typed wait,
  reads_ahead (show_upper self typed wait).
Proof.
  intros self typed wait. unfold show_upper.
  destruct (upper typed); [apply ahead_show_task_detail | apply ahead_emit].
Qed.

Lemma ahead_print_bucket : forall self interactive cards st,
  reads_ahead (print_bucket self interactive cards st).
Proof.
  intros self interactive cards. induction cards as [|[task_id task] rest IH];
    intros st; cbn [print_bucket]; [apply ahead_ret|].
  ahead_lead. apply IH.
Qed.

Lemma ahead_print_buckets : forall self interactive buckets st,
  reads_ahead (print_buckets self interactive buckets st).
Proof.
  intros self interactive buckets. induction buckets as [|[m cards] rest IH];
    intros st; cbn [print_buckets]; [apply ahead_ret|].
  ahead_lead.
  apply ahead_seq; [apply ahead_print_bucket|]. intros st'. apply IH.
Qed.

Lemma ahead_list_tasks_by_milestone : forall self interactive,
  reads_ahead (list_tasks_by_milestone self interactive).
Proof.
  intros self interactive. unfold list_tasks_by_milestone.
  apply ahead_seq; [apply ahead_print_buckets | intros st; apply ahead_ret].
Qed.

Lemma ahead_list_and_select : forall self hint wait,
  reads_ahead (list_and_select self hint wait).
Proof.
  intros self hint wait. unfold list_and_select.
  ahead_lead.
  apply ahead_seq; [apply ahead_list_tasks_by_milestone|]. intros task_map.
  ahead_lead.
  destruct (_ =? "")%string; [apply ahead_ret|].
  destruct (map_get _ _); [apply ahead_show_task_detail|].
  solve_ahead.
Qed.

Lemma ahead_filter_menu :
  forall self heading labels values field prompt what none,
  reads_ahead (filter_menu self heading labels values field prompt what none).
Proof.
  intros. unfold filter_menu, valid_choice, print_selection.
  ahead_lead.
  match goal with
  | |- reads_ahead (if ?b then _ else _) => destruct b; [|apply ahead_ret]
  end.
  destruct (int _); [|apply ahead_raise].
  destruct (PyList.getitem _ _); [|apply ahead_raise].
  ahead_lead. solve_ahead.
Qed.

Lemma ahead_search_tasks : forall self, reads_ahead (search_tasks self).
Proof.
  intros self. unfold search_tasks, print_selection.
  ahead_lead.
  destruct (_ =? "")%string; [apply ahead_ret|].
  ahead_lead. solve_ahead.
Qed.

Lemma ahead_dispatch : forall self choice, reads_ahead (dispatch self choice).
Proof.
  intros self choice. unfold dispatch, filter_by_status, filter_by_priority.
  repeat match goal with
         | |- reads_ahead (if ?b then _ else _) => destruct b
         end;
    repeat first
      [ apply ahead_ret | apply ahead_print | apply ahead_pause
      | apply ahead_list_and_select | apply ahead_show_upper
      | apply ahead_filter_menu | apply ahead_search_tasks
      | apply ahead_input
      | apply ahead_seq; [|intros ?] ].
Qed.

Lemma then_true : forall (m : io unit) c c',
  seq m (fun _ => ret true) c <> Done false c'.
Proof.
  intros m c c' H. unfold seq in H. destruct (m c); discriminate.
Qed.

(** Only the choice [q] leaves the loop. *)
Lemma dispatch_quits : forall self choice c c',
  dispatch self choice c = Done false c' ->
  choice = "q" /\ c' = put c [Line "Goodbye!"].
Proof.
  intros self choice c c' H. unfold dispatch in H.
  destruct (choice =? "1")%string; [now apply then_true in H|].
  destruct (choice =? "2")%string.
  { exfalso. unfold seq in H.
    destruct (input "Enter task ID: " c) as [a c1| |]; try discriminate.
    destruct (show_upper self (strip a) true c1) as [[] c2| |];
      try discriminate.
    destruct (pause "Press Enter to continue..." c2); discriminate. }
  destruct (choice =? "3")%string; [now apply then_true in H|].
  destruct (choice =? "4")%string; [now apply then_true in H|].
  destruct (choice =? "5")%string; [now apply then_true in H|].
  destruct (String.eqb_spec choice "q") as [->|_]; [|discriminate].
  split; [reflexivity|]. unfold seq, print, emit, ret in H.
  injection H as <-. reflexivity.
Qed.

Lemma menu_turn_cases : forall self c again c',
  menu_turn self c = Done again c' ->
  exists raw rest,
    stdin c = raw :: rest
    /\ (exists used, rest = used ++ stdin c')
    /\ (again = false ->
        lower (strip raw) = "q"
        /\ c' = {| stdin := rest;
                   stdout := stdout c ++ menu_screen
                             ++ [Prompt "Select option: "; Line "Goodbye!"] |}).
Proof.
  intros self c again c' H. unfold menu_turn in H.
  assert (W : writes (print_menu self) tt menu_screen).
  { destruct (columns (env self)) as [cols|] eqn:Ec.
    - intros c0. unfold print_menu, menu_screen, print_header.
      rewrite Ec. cbn [for_each].
      unfold seq, print, emit, ret, put. cbn [stdin stdout].
      f_equal. f_equal. now rewrite <- !app_assoc.
    - exfalso. unfold seq at 1 in H. unfold print_menu in H.
      rewrite (header_piped _ self _ c Ec) in H. discriminate H. }
  rewrite (seq_writes _ _ _ _ _ _ _ W) in H.
  unfold seq, input in H. cbn [stdin put] in H.
  destruct (stdin c) as [|raw rest] eqn:E; [discriminate|].
  exists raw, rest. split; [reflexivity|]. split.
  - destruct (ahead_dispatch _ _ _ _ _ H) as [used Hu]. now exists used.
  - intros ->. apply dispatch_quits in H. destruct H as [Hq ->].
    split; [exact Hq|]. unfold put. cbn [stdin stdout].
    f_equal. now rewrite <- !app_assoc.
Qed.

Lemma menu_loop_returns : forall self n c c',
  menu_loop n self c = Done tt c' ->
  (exists raw, In raw (stdin c) /\ lower (strip raw) = "q")
  /\ exists before, stdout c' = before ++ [Line "Goodbye!"].
Proof.
  intros self n. induction n as [|n IH]; intros c c' H; cbn [menu_loop] in H;
    [discriminate|].
  unfold seq in H.
  destruct (menu_turn self c) as [again c1| |] eqn:E; try discriminate.
  destruct (menu_turn_cases _ _ _ _ E) as (raw & rest & Hin & [used Hu] & Hq).
  destruct again.
  - destruct (IH _ _ H) as ((r & Hr & Q) & B). split; [|exact B].
    exists r. split; [|exact Q]. rewrite Hin, Hu. right.
    apply in_or_app. now right.
  - injection H as <-. destruct (Hq eq_refl) as [Q ->]. split.
    + exists raw. split; [rewrite Hin; now left | exact Q].
    + eexists. cbn [stdout]. rewrite !app_assoc.
      change [Prompt "Select option: "; Line "Goodbye!"]
        with ([Prompt "Select option: "] ++ [Line "Goodbye!"]).
      rewrite !app_assoc. reflexivity.
Qed.

End Report.

(** X22.  What the statistics count.  The four rows of the grid count the
    tasks whose status is [todo], [in_progress], [done] and [blocked];
    together they count the tasks with one of these four, so that their
    sum is at most the total, and is the total only when every task has
    one of the four: a task with another status, or with none, is in the
    total and in no row. *)
Theorem stats_count_the_four_statuses :
  forall self : Modern.ModernRoadmapViewer,
  fold_right Z.add 0 (map snd (Modern.stats self))
  = Z.of_nat (List.length (filter counted (Modern.tasks self)))
  /\ fold_right Z.add 0 (map snd (Modern.stats self)) <= Modern.total self
  /\ (fold_right Z.add 0 (map snd (Modern.stats self)) = Modern.total self
      <-> Forall (fun kv => counted kv = true) (Modern.tasks self)).
Proof.
  intros self.
  assert (S : fold_right Z.add 0 (map snd (Modern.stats self))
              = Z.of_nat (List.length (filter counted (Modern.tasks self)))).
  { unfold Modern.stats, Modern.count_status. cbn [map snd fold_right].
    fold (has d_status "todo"). fold (has d_status "in_progress").
    fold (has d_status "done"). fold (has d_status "blocked").
    rewrite <- stats_sum. lia. }
  rewrite S. unfold Modern.total. split; [reflexivity|]. split.
  - pose proof (count_filter_le _ counted (Modern.tasks self)). lia.
  - rewrite <- filter_length_all. lia.
Qed.



(** X24.  Digits that are no number end the menu.  After the menu entry
    of a filter, a choice that passes [isdigit()] and that [int()]
    refuses raises [ValueError] out of the menu, after the prompt of the
    filter and with the rest of the input unread: nothing catches it.
    Every text with a superscript digit (the characters 178, 179 and 185
    pass [isdigit()]) is refused by [int()].  (On a terminal: without
    one the menu ends at its header.) *)
Theorem digits_that_are_no_number_end_the_menu :
  forall (self : Modern.ModernRoadmapViewer) (c : Modern.console)
         (option raw : string) (rest : list string),
  terminal self ->
  Modern.stdin c = option :: raw :: rest ->
  lower (strip option) = "3" \/ lower (strip option) = "4" ->
  isdigit (strip raw) = true ->
  int (strip raw) = None ->
  (exists c' before prompt,
     Modern.interactive_menu self c = Modern.Fails ValueError c'
     /\ Modern.stdin c' = rest
     /\ Modern.stdout c' = before ++ [Modern.Prompt prompt])
  /\ (forall s a,
        In a (list_ascii_of_string s) ->
        In (N_of_ascii a) [178; 179; 185]%N -> int s = None).
Proof.
  intros self c option raw rest T Hin Hopt Hd Hi. split.
  - unfold Modern.interactive_menu. rewrite Hin.
    cbn [List.length Modern.menu_loop].
    unfold Modern.seq at 1. unfold Modern.menu_turn.
    rewrite (seq_writes _ _ _ _ _ _ _ (print_menu_writes _ T)).
    erewrite seq_input by (cbn; exact Hin).
    destruct Hopt as [-> | ->]; unfold Modern.dispatch;
      cbn [String.eqb Ascii.eqb Bool.eqb];
      cbv iota; unfold Modern.filter_by_status, Modern.filter_by_priority;
      unfold Modern.seq at 1;
      erewrite filter_menu_value_error by (first [reflexivity | assumption]);
      (eexists; eexists; eexists; split; [reflexivity|]);
      cbn [Modern.stdin Modern.stdout put]; (split; [reflexivity|]);
      rewrite !app_assoc; reflexivity.
  - intros s a Ha Hs. unfold int.
    destruct (4300 <? String.length s)%nat; [reflexivity|].
    eapply decimal_none; eassumption.
Qed.

Lemma digits_that_are_no_number_end_the_menu_witness :
  exists c' before prompt,
    Modern.interactive_menu one_task_viewer
      {| Modern.stdin := ["3"; String (ascii_of_N 178) ""; "q"];
         Modern.stdout := [] |}
    = Modern.Fails ValueError c'
    /\ Modern.stdin c' = ["q"]
    /\ Modern.stdout c' = before ++ [Modern.Prompt prompt].
Proof.
  exact (proj1 (digits_that_are_no_number_end_the_menu one_task_viewer
                  {| Modern.stdin := ["3"; String (ascii_of_N 178) ""; "q"];
                     Modern.stdout := [] |}
                  "3" (String (ascii_of_N 178) "") ["q"]
                  (terminal_80 one_task_viewer eq_refl)
                  eq_refl (or_introl eq_refl) eq_refl eq_refl)).
Defined.



(** X26.  The menu returns by [q] only.  On every input the menu either
    ends in an exception ([EOFError] when the input runs out), or it
    returns, and then one of the lines of the input reads [q] (spaces at
    its ends and the case of the letter apart) and the last thing printed
    is the goodbye. *)
Theorem menu_returns_only_after_q :
  forall (self : Modern.ModernRoadmapViewer) (c : Modern.console),
  (exists e c', Modern.interactive_menu self c = Modern.Fails e c')
  \/ (exists c' raw before,
        Modern.interactive_menu self c = Modern.Done tt c'
        /\ In raw (Modern.stdin c)
        /\ lower (strip raw) = "q"
        /\ Modern.stdout c' = before ++ [Modern.Line "Goodbye!"]).
Proof.
  intros self c.
  pose proof (interactive_menu_total self c) as T.
  destruct (Modern.interactive_menu self c) as [[] c'|e c'|] eqn:E.
  - right. unfold Modern.interactive_menu in E.
    destruct (menu_loop_returns _ _ _ _ E) as ((raw & Hin & Q) & before & B).
    now exists c', raw, before.
  - left. now exists e, c'.
  - contradiction.
Qed.


